(** * Mission planner: fleet coordinator, flight-mode state machine and
    physics integrator of the multi-drone mission control.

    The development embeds [contexts/DroneContext.tsx] (the fleet
    coordinator), [types.ts] (the data model) and the multi-drone
    [MissionControl] component (geodesy helpers, the [tick] physics loop,
    [setMode], [handleManualControl]).

    JavaScript numbers are modelled as real numbers: every arithmetic
    operation is the exact one, rounding is not part of the model.  The
    React state updates queued by [setDrones] are modelled as a list of
    effects that is applied to the drone map after the tick. *)

From Stdlib Require Import Reals Lra Lia ZArith List String.
From stdpp Require Import base decidable option list gmap strings.

Local Open Scope R_scope.

(** ** JavaScript numeric helpers *)

#[global] Instance Rlt_decision (x y : R) : Decision (x < y) := Rlt_dec x y.
#[global] Instance Rle_decision (x y : R) : Decision (x <= y) := Rle_dec x y.
#[global] Instance Rgt_decision (x y : R) : Decision (x > y) := Rgt_dec x y.
#[global] Instance Rge_decision (x y : R) : Decision (x >= y) := Rge_dec x y.
#[global] Instance Req_decision : EqDecision R := Req_dec_T.

Module JS.

(** [Math.sign] *)
Definition sign (x : R) : R :=
  if decide (0 < x) then 1 else if decide (x < 0) then -1 else 0.

(** [Math.atan2(y, x)], with [atan2(0, 0) = 0]. *)
Definition atan2 (y x : R) : R :=
  if decide (0 < x) then atan (y / x)
  else if decide (x < 0) then
         if decide (0 <= y) then atan (y / x) + PI else atan (y / x) - PI
  else if decide (0 < y) then PI / 2
  else if decide (y < 0) then - (PI / 2)
  else 0.

(** The remainder operator [x % m]: truncated division, the result has the
    sign of the dividend. *)
Definition rem (x m : R) : R :=
  if decide (0 <= x)
  then x - Rabs m * IZR (Int_part (x / Rabs m))
  else - ((- x) - Rabs m * IZR (Int_part ((- x) / Rabs m))).

(** [while (a > 180) a -= 360], with the number of iterations as fuel. *)
Fixpoint while_gt_180 (fuel : nat) (a : R) : R :=
  match fuel with
  | O => a
  | S fuel' => if decide (180 < a) then while_gt_180 fuel' (a - 360) else a
  end.

(** [while (a < -180) a += 360] *)
Fixpoint while_lt_m180 (fuel : nat) (a : R) : R :=
  match fuel with
  | O => a
  | S fuel' => if decide (a < -180) then while_lt_m180 fuel' (a + 360) else a
  end.

(** Enough iterations for either loop on input [a]. *)
Definition loop_fuel (a : R) : nat := Z.to_nat (up (Rabs a / 360)).

(** Array indexing [arr[i]] by a number: [undefined] out of range. *)
Definition index {A : Type} (arr : list A) (i : Z) : option A :=
  if decide (0 <= i)%Z then arr !! Z.to_nat i else None.

(** Truthiness of a [string | null] value. *)
Definition truthy (s : option string) : bool :=
  match s with
  | Some s' => negb (String.eqb s' EmptyString)
  | None => false
  end.

End JS.

(** ** Data model ([types.ts]) *)

Inductive Priority := Normal | Emergency.
Inductive MissionStatus := ms_pending | ms_dispatched | ms_active | ms_completed.

Inductive DroneState :=
| OFF | BOOTING | IDLE | ARMED | TAKEOFF | ENROUTE | HOVER | RETURNING
| LANDING | EMERGENCY.

Inductive DroneStatus := idle | dispatched | running | completed | returning.

Inductive MavCmd :=
| NAV_TAKEOFF | NAV_WAYPOINT | NAV_LOITER_TIME | NAV_RETURN_TO_LAUNCH | NAV_LAND.

Inductive FlightMode := STABILIZE | LOITER | AUTO | RTL | GUIDED | LAND.

#[global] Instance DroneStatus_eq_dec : EqDecision DroneStatus.
Proof. solve_decision. Defined.
#[global] Instance MavCmd_eq_dec : EqDecision MavCmd.
Proof. solve_decision. Defined.
#[global] Instance FlightMode_eq_dec : EqDecision FlightMode.
Proof. solve_decision. Defined.

Module Location.
Record t := mk { lat : R; lng : R; address : option string }.
End Location.

Module MedicineRequest.
Record t := mk {
  id : string;
  hospitalId : string;
  hospitalName : string;
  location : Location.t;
  origin : option Location.t;
  medicines : list string;
  priority : Priority;
  status : MissionStatus;
  timestamp : R;
  eta : option R;
  batteryRequired : option R;
  droneId : option string
}.
End MedicineRequest.

Module MissionItem.
Record t := mk {
  seq : Z;
  command : MavCmd;
  p1 : option R;
  p2 : option R;
  p3 : option R;
  p4 : option R;
  lat : R;
  lng : R;
  alt : R
}.
End MissionItem.

Module DroneTelemetry.
Record t := mk {
  latitude : R;
  longitude : R;
  altitude : R;
  speed : R;
  verticalSpeed : R;
  battery : R;
  bearing : R;
  distanceTraveled : R;
  distanceRemaining : R;
  status : DroneState;
  connectionStrength : R;
  satellites : R;
  flightTime : R
}.

(** [Partial<DroneTelemetry>]: the fields the mission control publishes. *)
Record partial := mkPartial {
  p_latitude : option R;
  p_longitude : option R;
  p_altitude : option R;
  p_speed : option R;
  p_verticalSpeed : option R;
  p_battery : option R;
  p_bearing : option R;
  p_status : option DroneState
}.

(** [{ ...telemetry, ...patch }] *)
Definition merge (tm : t) (patch : partial) : t :=
  {| latitude := default (latitude tm) (p_latitude patch);
     longitude := default (longitude tm) (p_longitude patch);
     altitude := default (altitude tm) (p_altitude patch);
     speed := default (speed tm) (p_speed patch);
     verticalSpeed := default (verticalSpeed tm) (p_verticalSpeed patch);
     battery := default (battery tm) (p_battery patch);
     bearing := default (bearing tm) (p_bearing patch);
     distanceTraveled := distanceTraveled tm;
     distanceRemaining := distanceRemaining tm;
     status := default (status tm) (p_status patch);
     connectionStrength := connectionStrength tm;
     satellites := satellites tm;
     flightTime := flightTime tm |}.
End DroneTelemetry.

Module Drone.
Record t := mk {
  id : string;
  name : string;
  status : DroneStatus;
  currentLocation : Location.t;
  assignedTaskId : option string;
  assignedRoute : option (list MissionItem.t);
  telemetry : DroneTelemetry.t;
  homeLocation : Location.t;
  color : string
}.
End Drone.

(** Per-drone physics state of the mission control. *)
Module DronePhysics.
Record t := mk {
  lat : R;
  lng : R;
  alt : R;
  heading : R;
  speed : R;
  vSpeed : R;
  roll : R;
  pitch : R;
  battery_v : R;
  battery_rem : R;
  wind_dir : R;
  wind_spd : R;
  lastTick : R;
  armed : bool;
  flightMode : FlightMode;
  activeWpIndex : Z;
  homeLocation : Location.t;
  deliveryWaitTime : R;
  isReturningHome : bool
}.

Definition set_lat (p : t) (v : R) : t :=
  mk v (lng p) (alt p) (heading p) (speed p) (vSpeed p) (roll p) (pitch p)
     (battery_v p) (battery_rem p) (wind_dir p) (wind_spd p) (lastTick p)
     (armed p) (flightMode p) (activeWpIndex p) (homeLocation p)
     (deliveryWaitTime p) (isReturningHome p).
Definition set_lng (p : t) (v : R) : t :=
  mk (lat p) v (alt p) (heading p) (speed p) (vSpeed p) (roll p) (pitch p)
     (battery_v p) (battery_rem p) (wind_dir p) (wind_spd p) (lastTick p)
     (armed p) (flightMode p) (activeWpIndex p) (homeLocation p)
     (deliveryWaitTime p) (isReturningHome p).
Definition set_alt (p : t) (v : R) : t :=
  mk (lat p) (lng p) v (heading p) (speed p) (vSpeed p) (roll p) (pitch p)
     (battery_v p) (battery_rem p) (wind_dir p) (wind_spd p) (lastTick p)
     (armed p) (flightMode p) (activeWpIndex p) (homeLocation p)
     (deliveryWaitTime p) (isReturningHome p).
Definition set_heading (p : t) (v : R) : t :=
  mk (lat p) (lng p) (alt p) v (speed p) (vSpeed p) (roll p) (pitch p)
     (battery_v p) (battery_rem p) (wind_dir p) (wind_spd p) (lastTick p)
     (armed p) (flightMode p) (activeWpIndex p) (homeLocation p)
     (deliveryWaitTime p) (isReturningHome p).
Definition set_speed (p : t) (v : R) : t :=
  mk (lat p) (lng p) (alt p) (heading p) v (vSpeed p) (roll p) (pitch p)
     (battery_v p) (battery_rem p) (wind_dir p) (wind_spd p) (lastTick p)
     (armed p) (flightMode p) (activeWpIndex p) (homeLocation p)
     (deliveryWaitTime p) (isReturningHome p).
Definition set_vSpeed (p : t) (v : R) : t :=
  mk (lat p) (lng p) (alt p) (heading p) (speed p) v (roll p) (pitch p)
     (battery_v p) (battery_rem p) (wind_dir p) (wind_spd p) (lastTick p)
     (armed p) (flightMode p) (activeWpIndex p) (homeLocation p)
     (deliveryWaitTime p) (isReturningHome p).
Definition set_roll (p : t) (v : R) : t :=
  mk (lat p) (lng p) (alt p) (heading p) (speed p) (vSpeed p) v (pitch p)
     (battery_v p) (battery_rem p) (wind_dir p) (wind_spd p) (lastTick p)
     (armed p) (flightMode p) (activeWpIndex p) (homeLocation p)
     (deliveryWaitTime p) (isReturningHome p).
Definition set_pitch (p : t) (v : R) : t :=
  mk (lat p) (lng p) (alt p) (heading p) (speed p) (vSpeed p) (roll p) v
     (battery_v p) (battery_rem p) (wind_dir p) (wind_spd p) (lastTick p)
     (armed p) (flightMode p) (activeWpIndex p) (homeLocation p)
     (deliveryWaitTime p) (isReturningHome p).
Definition set_battery_v (p : t) (v : R) : t :=
  mk (lat p) (lng p) (alt p) (heading p) (speed p) (vSpeed p) (roll p) (pitch p)
     v (battery_rem p) (wind_dir p) (wind_spd p) (lastTick p)
     (armed p) (flightMode p) (activeWpIndex p) (homeLocation p)
     (deliveryWaitTime p) (isReturningHome p).
Definition set_battery_rem (p : t) (v : R) : t :=
  mk (lat p) (lng p) (alt p) (heading p) (speed p) (vSpeed p) (roll p) (pitch p)
     (battery_v p) v (wind_dir p) (wind_spd p) (lastTick p)
     (armed p) (flightMode p) (activeWpIndex p) (homeLocation p)
     (deliveryWaitTime p) (isReturningHome p).
Definition set_lastTick (p : t) (v : R) : t :=
  mk (lat p) (lng p) (alt p) (heading p) (speed p) (vSpeed p) (roll p) (pitch p)
     (battery_v p) (battery_rem p) (wind_dir p) (wind_spd p) v
     (armed p) (flightMode p) (activeWpIndex p) (homeLocation p)
     (deliveryWaitTime p) (isReturningHome p).
Definition set_armed (p : t) (v : bool) : t :=
  mk (lat p) (lng p) (alt p) (heading p) (speed p) (vSpeed p) (roll p) (pitch p)
     (battery_v p) (battery_rem p) (wind_dir p) (wind_spd p) (lastTick p)
     v (flightMode p) (activeWpIndex p) (homeLocation p)
     (deliveryWaitTime p) (isReturningHome p).
Definition set_flightMode (p : t) (v : FlightMode) : t :=
  mk (lat p) (lng p) (alt p) (heading p) (speed p) (vSpeed p) (roll p) (pitch p)
     (battery_v p) (battery_rem p) (wind_dir p) (wind_spd p) (lastTick p)
     (armed p) v (activeWpIndex p) (homeLocation p)
     (deliveryWaitTime p) (isReturningHome p).
Definition set_activeWpIndex (p : t) (v : Z) : t :=
  mk (lat p) (lng p) (alt p) (heading p) (speed p) (vSpeed p) (roll p) (pitch p)
     (battery_v p) (battery_rem p) (wind_dir p) (wind_spd p) (lastTick p)
     (armed p) (flightMode p) v (homeLocation p)
     (deliveryWaitTime p) (isReturningHome p).
Definition set_deliveryWaitTime (p : t) (v : R) : t :=
  mk (lat p) (lng p) (alt p) (heading p) (speed p) (vSpeed p) (roll p) (pitch p)
     (battery_v p) (battery_rem p) (wind_dir p) (wind_spd p) (lastTick p)
     (armed p) (flightMode p) (activeWpIndex p) (homeLocation p)
     v (isReturningHome p).
Definition set_isReturningHome (p : t) (v : bool) : t :=
  mk (lat p) (lng p) (alt p) (heading p) (speed p) (vSpeed p) (roll p) (pitch p)
     (battery_v p) (battery_rem p) (wind_dir p) (wind_spd p) (lastTick p)
     (armed p) (flightMode p) (activeWpIndex p) (homeLocation p)
     (deliveryWaitTime p) v.
End DronePhysics.

(** ** Fleet coordinator ([contexts/DroneContext.tsx])

    Each operation is the updater passed to [setDrones]: a function from
    the previous drone map to the next one. *)

Module DroneContext.

Definition assignTaskToDrone (droneId : string) (task : MedicineRequest.t)
    (route : list MissionItem.t) (prev : gmap string Drone.t)
    : gmap string Drone.t :=
  match prev !! droneId with
  | Some drone =>
      <[droneId :=
          {| Drone.id := Drone.id drone;
             Drone.name := Drone.name drone;
             Drone.status := dispatched;
             Drone.currentLocation := Drone.currentLocation drone;
             Drone.assignedTaskId := Some (MedicineRequest.id task);
             Drone.assignedRoute := Some route;
             Drone.telemetry := Drone.telemetry drone;
             Drone.homeLocation := Drone.homeLocation drone;
             Drone.color := Drone.color drone |}]> prev
  | None => prev
  end.

Definition updateDroneStatus (droneId : string) (status : DroneStatus)
    (prev : gmap string Drone.t) : gmap string Drone.t :=
  match prev !! droneId with
  | Some drone =>
      <[droneId :=
          {| Drone.id := Drone.id drone;
             Drone.name := Drone.name drone;
             Drone.status := status;
             Drone.currentLocation := Drone.currentLocation drone;
             Drone.assignedTaskId := Drone.assignedTaskId drone;
             Drone.assignedRoute := Drone.assignedRoute drone;
             Drone.telemetry := Drone.telemetry drone;
             Drone.homeLocation := Drone.homeLocation drone;
             Drone.color := Drone.color drone |}]> prev
  | None => prev
  end.

Definition updateDroneLocation (droneId : string) (location : Location.t)
    (prev : gmap string Drone.t) : gmap string Drone.t :=
  match prev !! droneId with
  | Some drone =>
      <[droneId :=
          {| Drone.id := Drone.id drone;
             Drone.name := Drone.name drone;
             Drone.status := Drone.status drone;
             Drone.currentLocation := location;
             Drone.assignedTaskId := Drone.assignedTaskId drone;
             Drone.assignedRoute := Drone.assignedRoute drone;
             Drone.telemetry := Drone.telemetry drone;
             Drone.homeLocation := Drone.homeLocation drone;
             Drone.color := Drone.color drone |}]> prev
  | None => prev
  end.

Definition updateDroneTelemetry (droneId : string)
    (telemetry : DroneTelemetry.partial) (prev : gmap string Drone.t)
    : gmap string Drone.t :=
  match prev !! droneId with
  | Some drone =>
      <[droneId :=
          {| Drone.id := Drone.id drone;
             Drone.name := Drone.name drone;
             Drone.status := Drone.status drone;
             Drone.currentLocation := Drone.currentLocation drone;
             Drone.assignedTaskId := Drone.assignedTaskId drone;
             Drone.assignedRoute := Drone.assignedRoute drone;
             Drone.telemetry :=
               DroneTelemetry.merge (Drone.telemetry drone) telemetry;
             Drone.homeLocation := Drone.homeLocation drone;
             Drone.color := Drone.color drone |}]> prev
  | None => prev
  end.

Definition updateDroneRoute (droneId : string) (route : list MissionItem.t)
    (prev : gmap string Drone.t) : gmap string Drone.t :=
  match prev !! droneId with
  | Some drone =>
      <[droneId :=
          {| Drone.id := Drone.id drone;
             Drone.name := Drone.name drone;
             Drone.status := Drone.status drone;
             Drone.currentLocation := Drone.currentLocation drone;
             Drone.assignedTaskId := Drone.assignedTaskId drone;
             Drone.assignedRoute := Some route;
             Drone.telemetry := Drone.telemetry drone;
             Drone.homeLocation := Drone.homeLocation drone;
             Drone.color := Drone.color drone |}]> prev
  | None => prev
  end.

Definition completeDroneTask (droneId : string) (prev : gmap string Drone.t)
    : gmap string Drone.t :=
  match prev !! droneId with
  | Some drone =>
      <[droneId :=
          {| Drone.id := Drone.id drone;
             Drone.name := Drone.name drone;
             Drone.status := idle;
             Drone.currentLocation := Drone.homeLocation drone;
             Drone.assignedTaskId := None;
             Drone.assignedRoute := None;
             Drone.telemetry := Drone.telemetry drone;
             Drone.homeLocation := Drone.homeLocation drone;
             Drone.color := Drone.color drone |}]> prev
  | None => prev
  end.

End DroneContext.

(** ** Mission control (multi-drone [MissionControl] component) *)

Module MissionControl.

Import DronePhysics.

Definition SIM_SPEED_MULT : R := 4.
Definition WP_RADIUS : R := 15.
Definition RTL_ALT : R := 50.

Inductive Severity := INFO | WARNING | ERROR | CRITICAL.

(** The log lines written by [addLog], by message kind. *)
Inductive LogText :=
| MISSION_STARTED (droneName : string)
| INITIATING_RTL (droneName : string)
| MANUAL_CONTROL_ACTIVE
| MANUAL_OVERRIDE_SWITCHING_TO_GUIDED
| AUTO_FAIL_NO_MISSION
| AUTO_FAIL_ARM_FIRST
| MODE_CHANGED (droneName : string) (mode : FlightMode).

(** What a tick or an action asks of its collaborators: the queued
    [setDrones] updaters of the drone context, the request-status callback
    of the task store ([updateRequestStatus]) and the log. *)
Inductive Effect :=
| UpdateDroneStatus (droneId : string) (status : DroneStatus)
| CompleteDroneTask (droneId : string)
| UpdateDroneTelemetry (droneId : string) (patch : DroneTelemetry.partial)
| UpdateRequestStatus (id : string) (status : MissionStatus)
| AddLog (text : LogText) (severity : Severity).

(** Runs one queued effect on the drone map. *)
Definition applyEffect (drones : gmap string Drone.t) (e : Effect)
    : gmap string Drone.t :=
  match e with
  | UpdateDroneStatus droneId status =>
      DroneContext.updateDroneStatus droneId status drones
  | CompleteDroneTask droneId => DroneContext.completeDroneTask droneId drones
  | UpdateDroneTelemetry droneId patch =>
      DroneContext.updateDroneTelemetry droneId patch drones
  | UpdateRequestStatus _ _ => drones
  | AddLog _ _ => drones
  end.

Definition applyEffects (effs : list Effect) (drones : gmap string Drone.t)
    : gmap string Drone.t :=
  foldl applyEffect drones effs.

(** *** Geodesy helpers *)

Definition toRad (d : R) : R := d * PI / 180.
Definition toDeg (r : R) : R := r * 180 / PI.

Definition getDist (lat1 lon1 lat2 lon2 : R) : R :=
  let R_ := 6371e3 in
  let phi1 := toRad lat1 in
  let phi2 := toRad lat2 in
  let dphi := toRad (lat2 - lat1) in
  let dlam := toRad (lon2 - lon1) in
  let a := sin (dphi / 2) ^ 2 + cos phi1 * cos phi2 * sin (dlam / 2) ^ 2 in
  R_ * 2 * JS.atan2 (sqrt a) (sqrt (1 - a)).

Definition getBearing (lat1 lon1 lat2 lon2 : R) : R :=
  let phi1 := toRad lat1 in
  let phi2 := toRad lat2 in
  let dlam := toRad (lon2 - lon1) in
  let y := sin dlam * cos phi2 in
  let x := cos phi1 * sin phi2 - sin phi1 * cos phi2 * cos dlam in
  JS.rem (toDeg (JS.atan2 y x) + 360) 360.

(** The forward geodesic projection of the integrator: the point reached
    from [(lat, lng)] after [moveDist] metres along [heading]. *)
Definition destination (lat lng heading moveDist : R) : R * R :=
  let latRad := toRad lat in
  let lngRad := toRad lng in
  let headRad := toRad heading in
  let angularDist := moveDist / 6371e3 in
  let newLat :=
    asin (sin latRad * cos angularDist
          + cos latRad * sin angularDist * cos headRad) in
  let newLng :=
    lngRad + JS.atan2 (sin headRad * sin angularDist * cos latRad)
                      (cos angularDist - sin latRad * sin newLat) in
  (toDeg newLat, toDeg newLng).

(** The heading error wrapped by the two [while] loops of the tick. *)
Definition wrapAngle (angleDiff : R) : R :=
  let a1 := JS.while_gt_180 (JS.loop_fuel angleDiff) angleDiff in
  JS.while_lt_m180 (JS.loop_fuel a1) a1.

(** *** The physics loop, for one drone *)

(** The commanded target of a tick. *)
Record Target := mkTarget { targetLat : R; targetLng : R; targetAlt : R }.

(** On the ground at a [NAV_LAND] waypoint ([physics.alt < 0.5]): report the
    delivery the first time, wait, then start the return. *)
Definition deliveryLanding (dt : R) (drone : Drone.t) (physics : t)
    : t * list Effect :=
  if decide (isReturningHome physics = false ∧ deliveryWaitTime physics = 0)
  then
    (set_deliveryWaitTime physics dt,
     match Drone.assignedTaskId drone with
     | Some taskId =>
         if JS.truthy (Some taskId)
         then [UpdateRequestStatus taskId ms_completed] else []
     | None => []
     end)
  else if decide (isReturningHome physics = false ∧ deliveryWaitTime physics < 3)
  then (set_deliveryWaitTime physics (deliveryWaitTime physics + dt), [])
  else if decide (isReturningHome physics = false ∧ deliveryWaitTime physics >= 3)
  then
    (set_flightMode (set_armed (set_isReturningHome physics true) true) RTL,
     [AddLog (INITIATING_RTL (Drone.name drone)) INFO])
  else (physics, []).

(** The waypoint logic of [AUTO] once the index is started. *)
Definition autoWaypoint (dt : R) (drone : Drone.t) (route : list MissionItem.t)
    (tgt0 : Target) (physics : t) : t * Target * list Effect :=
  match JS.index route (activeWpIndex physics) with
  | Some nextWP =>
      let tLat := MissionItem.lat nextWP in
      let tLng := MissionItem.lng nextWP in
      let tAlt := MissionItem.alt nextWP in
      let dist := getDist (lat physics) (lng physics) tLat tLng in
      if decide (dist < WP_RADIUS ∧ Rabs (alt physics - tAlt) < 2) then
        if decide (MissionItem.command nextWP = NAV_LAND) then
          if decide (alt physics < 0.5) then
            let '(physics', effs) := deliveryLanding dt drone physics in
            (physics', mkTarget tLat tLng 0, effs)
          else (physics, mkTarget tLat tLng 0, [])
        else
          if decide (activeWpIndex physics < Z.of_nat (length route) - 1)%Z
          then (set_activeWpIndex physics (activeWpIndex physics + 1),
                mkTarget tLat tLng tAlt, [])
          else (physics, mkTarget tLat tLng tAlt, [])
      else (physics, mkTarget tLat tLng tAlt, [])
  | None => (physics, tgt0, [])
  end.

(** Step 1 of the tick: battery drain and flight-mode logic. *)
Definition stateMachine (dt : R) (droneId : string) (drone : Drone.t)
    (route : list MissionItem.t) (physics : t) : t * Target * list Effect :=
  let tgt0 := mkTarget (lat physics) (lng physics) (alt physics) in
  if armed physics then
    let physics :=
      set_battery_rem physics
        (battery_rem physics
         - (if decide (flightMode physics = STABILIZE) then 0.01 else 0.05) * dt) in
    let physics :=
      set_battery_v physics (22.0 + (battery_rem physics / 100) * 3.2) in
    if decide (flightMode physics = AUTO ∧ (0 < length route)%nat) then
      let '(physics, effs0) :=
        if decide (activeWpIndex physics = (-1)%Z)
        then (set_activeWpIndex physics 0%Z,
              [UpdateDroneStatus droneId running;
               AddLog (MISSION_STARTED (Drone.name drone)) INFO])
        else (physics, []) in
      let '(physics, tgt, effs1) := autoWaypoint dt drone route tgt0 physics in
      (physics, tgt, effs0 ++ effs1)
    else if decide (flightMode physics = RTL) then
      let tLat := Location.lat (homeLocation physics) in
      let tLng := Location.lng (homeLocation physics) in
      let tAlt := Rmax (alt physics) RTL_ALT in
      let physics :=
        if decide (getDist (lat physics) (lng physics) tLat tLng < 5)
        then set_flightMode physics LAND else physics in
      (physics, mkTarget tLat tLng tAlt, [])
    else if decide (flightMode physics = LAND) then
      let tgt := mkTarget (lat physics) (lng physics) 0 in
      if decide (alt physics < 0.5) then
        let physics := set_flightMode (set_armed physics false) STABILIZE in
        if isReturningHome physics then
          (set_activeWpIndex
             (set_deliveryWaitTime (set_isReturningHome physics false) 0)
             (-1)%Z,
           tgt, [CompleteDroneTask droneId])
        else (physics, tgt, [])
      else (physics, tgt, [])
    else (physics, tgt0, [])
  else (physics, tgt0, []).

(** ['AUTO', 'RTL', 'GUIDED', 'LAND'].includes(mode) *)
Definition navigating (mode : FlightMode) : bool :=
  match mode with
  | AUTO | RTL | GUIDED | LAND => true
  | STABILIZE | LOITER => false
  end.

(** Step 2 of the tick: the integrator.  [mult] is the simulation speed
    multiplier ([SIM_SPEED_MULT] in the tick). *)
Definition physicsMove (mult dt : R) (tgt : Target) (physics : t) : t :=
  if armed physics then
    (* vertical *)
    let vErr := targetAlt tgt - alt physics in
    let vSpdTarget := Rmax (-3) (Rmin 5 vErr) in
    let physics :=
      set_vSpeed physics
        (vSpeed physics + (vSpdTarget - vSpeed physics) * 2 * dt) in
    let physics := set_alt physics (alt physics + vSpeed physics * dt * mult) in
    (* horizontal *)
    if navigating (flightMode physics) then
      let groundSpeed := 15 in
      let bearing :=
        getBearing (lat physics) (lng physics) (targetLat tgt) (targetLng tgt) in
      let angleDiff := wrapAngle (bearing - heading physics) in
      let turnRate := 30 in
      let physics :=
        if decide (Rabs angleDiff > 1) then
          let physics :=
            set_heading physics
              (heading physics
               + JS.sign angleDiff * Rmin (Rabs angleDiff) (turnRate * dt * mult)) in
          let physics :=
            set_heading physics (JS.rem (heading physics + 360) 360) in
          set_roll physics (JS.sign angleDiff * -15)
        else set_roll physics 0 in
      let moveDist := groundSpeed * dt * mult in
      if decide (moveDist > 0) then
        let '(newLat, newLng) :=
          destination (lat physics) (lng physics) (heading physics) moveDist in
        set_speed (set_lng (set_lat physics newLat) newLng) (groundSpeed * 3.6)
      else physics
    else physics
  else physics.

(** Step 3 of the tick: the telemetry published for the drone. *)
Definition basicTelemetry (physics : t) : DroneTelemetry.partial :=
  {| DroneTelemetry.p_latitude := Some (lat physics);
     DroneTelemetry.p_longitude := Some (lng physics);
     DroneTelemetry.p_altitude := Some (alt physics);
     DroneTelemetry.p_speed := Some (speed physics);
     DroneTelemetry.p_verticalSpeed := Some (vSpeed physics);
     DroneTelemetry.p_battery := Some (battery_rem physics);
     DroneTelemetry.p_bearing := Some (heading physics);
     DroneTelemetry.p_status := Some (if armed physics then ENROUTE else IDLE) |}.

Definition manualTelemetry (physics : t) : DroneTelemetry.partial :=
  {| DroneTelemetry.p_latitude := Some (lat physics);
     DroneTelemetry.p_longitude := Some (lng physics);
     DroneTelemetry.p_altitude := Some (alt physics);
     DroneTelemetry.p_speed := None;
     DroneTelemetry.p_verticalSpeed := None;
     DroneTelemetry.p_battery := None;
     DroneTelemetry.p_bearing := Some (heading physics);
     DroneTelemetry.p_status := Some ENROUTE |}.

(** [activeControls[k]] as a condition. *)
Definition ctl (activeControls : gmap string bool) (k : string) : bool :=
  default false (activeControls !! k).

(** [Object.values(activeControls).some(v => v)] *)
Definition anyControl (activeControls : gmap string bool) : bool :=
  bool_decide (map_Exists (λ _ v, v = true) activeControls).

(** Step 4 of the tick: manual control of the selected, armed drone.
    The three parts of the block come first. *)

(** Mode override: any held control takes the drone out of automation. *)
Definition modeOverride (activeControls : gmap string bool) (physics : t)
    : t * list Effect :=
  if anyControl activeControls then
    if decide (flightMode physics <> GUIDED
               /\ (flightMode physics = AUTO \/ flightMode physics = RTL
                   \/ flightMode physics = STABILIZE))
    then (set_isReturningHome (set_flightMode physics GUIDED) false,
          [AddLog MANUAL_CONTROL_ACTIVE WARNING])
    else (physics, [])
  else (physics, []).

(** Throttle and yaw keys; the flag is [movedManually]. *)
Definition throttleYaw (ALT_SPEED YAW_SPEED : R)
    (activeControls : gmap string bool) (physics : t) : t * bool :=
  let '(physics, moved) :=
    if ctl activeControls "up"
    then (set_alt physics (alt physics + ALT_SPEED), true)
    else (physics, false) in
  let '(physics, moved) :=
    if ctl activeControls "down"
    then (set_alt physics (Rmax 0 (alt physics - ALT_SPEED)), true)
    else (physics, moved) in
  let '(physics, moved) :=
    if ctl activeControls "turnLeft"
    then (set_heading physics
            (JS.rem (heading physics - YAW_SPEED + 360) 360), true)
    else (physics, moved) in
  if ctl activeControls "turnRight"
  then (set_heading physics (JS.rem (heading physics + YAW_SPEED) 360), true)
  else (physics, moved).

(** Pitch and roll keys: a displacement in the heading frame. *)
Definition pitchRoll (MOVE_SPEED : R) (activeControls : gmap string bool)
    (physics : t) (moved : bool) : t * bool :=
  if ctl activeControls "forward" || ctl activeControls "backward"
     || ctl activeControls "left" || ctl activeControls "right"
  then
    let '(physics, dx, dy) :=
      if ctl activeControls "forward"
      then (set_pitch physics 15,
            0 + cos (toRad (heading physics)),
            0 + sin (toRad (heading physics)))
      else if ctl activeControls "backward"
      then (set_pitch physics (-15),
            0 - cos (toRad (heading physics)),
            0 - sin (toRad (heading physics)))
      else (set_pitch physics (pitch physics * 0.8), 0, 0) in
    let '(physics, dx, dy) :=
      if ctl activeControls "left"
      then (set_roll physics (-15),
            dx + cos (toRad (heading physics - 90)),
            dy + sin (toRad (heading physics - 90)))
      else if ctl activeControls "right"
      then (set_roll physics 15,
            dx + cos (toRad (heading physics + 90)),
            dy + sin (toRad (heading physics + 90)))
      else (set_roll physics (roll physics * 0.8), dx, dy) in
    let physics := set_lat physics (lat physics + MOVE_SPEED * dx) in
    let physics := set_lng physics (lng physics + MOVE_SPEED * dy) in
    (physics, true)
  else
    let physics := set_pitch physics (pitch physics * 0.6) in
    (set_roll physics (roll physics * 0.6), moved).

Definition manualControl (mult dt : R) (selectedDroneId : option string)
    (activeControls : gmap string bool) (droneId : string) (drone : Drone.t)
    (physics : t) : t * list Effect :=
  if decide (armed physics = true /\ Some droneId = selectedDroneId) then
    let MOVE_SPEED := 0.00018 * dt * mult in
    let ALT_SPEED := 20 * dt * mult in
    let YAW_SPEED := 75 * dt * mult in
    let '(physics, effs0) := modeOverride activeControls physics in
    let '(physics, moved) :=
      throttleYaw ALT_SPEED YAW_SPEED activeControls physics in
    let '(physics, moved) := pitchRoll MOVE_SPEED activeControls physics moved in
    if moved then
      let physics := set_speed physics 45 in
      (physics,
       effs0 ++ [UpdateDroneTelemetry (Drone.id drone) (manualTelemetry physics)])
    else (physics, effs0)
  else (physics, []).

(** The body of [drones.forEach] in [tick], for a drone that has a physics
    record: the new physics record and the effects of the tick, in order. *)
Definition tickDrone (now : R) (selectedDroneId : option string)
    (activeControls : gmap string bool) (droneId : string) (drone : Drone.t)
    (physics : t) : t * list Effect :=
  match Drone.assignedRoute drone with
  | None => (physics, [])
  | Some route =>
      let dt := Rmin ((now - lastTick physics) / 1000) 0.1 in
      let physics := set_lastTick physics now in
      let '(physics, tgt, effs1) := stateMachine dt droneId drone route physics in
      let physics := physicsMove SIM_SPEED_MULT dt tgt physics in
      let effs2 := [UpdateDroneTelemetry droneId (basicTelemetry physics)] in
      let '(physics, effs3) :=
        manualControl SIM_SPEED_MULT dt selectedDroneId activeControls
          droneId drone physics in
      (physics, effs1 ++ effs2 ++ effs3)
  end.

(** *** The fleet *)

(** The state the component works on: the drone map of the context, the
    physics records it keeps by drone id, the selection and the control
    axes currently held. *)
Record World := mkWorld {
  drones : gmap string Drone.t;
  dronePhysicsRef : gmap string DronePhysics.t;
  selectedDroneId : option string;
  activeControls : gmap string bool
}.

(** [setDrones(updater)] of the drone context: only the drone map changes. *)
Definition setDrones (updater : gmap string Drone.t -> gmap string Drone.t)
    (w : World) : World :=
  mkWorld (updater (drones w)) (dronePhysicsRef w) (selectedDroneId w)
          (activeControls w).

(** One iteration of [drones.forEach]: skips a drone without physics. *)
Definition tickStep (now : R) (sel : option string) (controls : gmap string bool)
    (acc : gmap string DronePhysics.t * list Effect) (kv : string * Drone.t)
    : gmap string DronePhysics.t * list Effect :=
  match acc.1 !! kv.1 with
  | Some physics =>
      let '(physics', effs) := tickDrone now sel controls kv.1 kv.2 physics in
      (<[kv.1 := physics']> acc.1, acc.2 ++ effs)
  | None => acc
  end.

(** [tick]: every drone of the snapshot is advanced, then the queued drone
    updates run.  Returns the effects for the collaborators as well. *)
Definition tick (now : R) (w : World) : World * list Effect :=
  let '(phys, effs) :=
    foldl (tickStep now (selectedDroneId w) (activeControls w))
          (dronePhysicsRef w, []) (map_to_list (drones w)) in
  (mkWorld (applyEffects effs (drones w)) phys (selectedDroneId w)
           (activeControls w),
   effs).

(** *** Pilot actions on the selected drone *)

Definition getSelectedDrone (w : World) : option Drone.t :=
  match selectedDroneId w with
  | Some sel => if JS.truthy (Some sel) then drones w !! sel else None
  | None => None
  end.

Definition getSelectedPhysics (w : World) : option DronePhysics.t :=
  match selectedDroneId w with
  | Some sel => if JS.truthy (Some sel) then dronePhysicsRef w !! sel else None
  | None => None
  end.

(** Stores the physics record of the selected drone back. *)
Definition putSelectedPhysics (w : World) (physics : DronePhysics.t) : World :=
  match selectedDroneId w with
  | Some sel =>
      mkWorld (drones w) (<[sel := physics]> (dronePhysicsRef w))
              (selectedDroneId w) (activeControls w)
  | None => w
  end.

(** [route.length === 0] or no route at all *)
Definition noMission (drone : Drone.t) : bool :=
  match Drone.assignedRoute drone with
  | None => true
  | Some route => bool_decide (length route = 0%nat)
  end.

(** The change [setMode] makes to the physics record once it is accepted. *)
Definition setModePhysics (mode : FlightMode) (physics : DronePhysics.t)
    : DronePhysics.t :=
  let physics := set_flightMode physics mode in
  if decide (flightMode physics ≠ RTL)
  then set_deliveryWaitTime (set_isReturningHome physics false) 0
  else physics.

Definition setMode (mode : FlightMode) (w : World) : World * list Effect :=
  match getSelectedDrone w, getSelectedPhysics w with
  | Some drone, Some physics =>
      if decide (mode = AUTO ∧ noMission drone = true)
      then (w, [AddLog AUTO_FAIL_NO_MISSION ERROR])
      else if decide (mode = AUTO ∧ armed physics = false)
      then (w, [AddLog AUTO_FAIL_ARM_FIRST ERROR])
      else (putSelectedPhysics w (setModePhysics mode physics),
            [AddLog (MODE_CHANGED (Drone.name drone) mode) INFO])
  | _, _ => (w, [])
  end.

(** The override [handleManualControl] applies at once to a physics record. *)
Definition manualOverride (physics : DronePhysics.t) : DronePhysics.t :=
  set_isReturningHome (set_flightMode physics GUIDED) false.

Definition handleManualControl (action : string) (active : bool) (w : World)
    : World * list Effect :=
  let w :=
    mkWorld (drones w) (dronePhysicsRef w) (selectedDroneId w)
            (<[action := active]> (activeControls w)) in
  if active then
    match getSelectedPhysics w with
    | Some physics =>
        if decide (flightMode physics = AUTO ∨ flightMode physics = RTL)
        then (putSelectedPhysics w (manualOverride physics),
              [AddLog MANUAL_OVERRIDE_SWITCHING_TO_GUIDED WARNING])
        else (w, [])
    | None => (w, [])
    end
  else (w, []).

End MissionControl.

(** ** Route generator and initial fleet *)

(** [generateRouteForTask] of the dispatch dashboard. *)
Definition generateRouteForTask (start destination : Location.t)
    : list MissionItem.t :=
  let DEFAULT_ALT := 100 in
  [ MissionItem.mk 1 NAV_TAKEOFF None None None None
      (Location.lat start) (Location.lng start) DEFAULT_ALT;
    MissionItem.mk 2 NAV_WAYPOINT None None None None
      ((Location.lat start + Location.lat destination) / 2)
      ((Location.lng start + Location.lng destination) / 2) DEFAULT_ALT;
    MissionItem.mk 3 NAV_WAYPOINT None None None None
      (Location.lat destination) (Location.lng destination) DEFAULT_ALT;
    MissionItem.mk 4 NAV_LOITER_TIME (Some 5) None None None
      (Location.lat destination) (Location.lng destination) DEFAULT_ALT;
    MissionItem.mk 5 NAV_LAND None None None None
      (Location.lat destination) (Location.lng destination) 0 ].

Definition CENTRAL_HOSPITAL_LOCATION : Location.t :=
  Location.mk 18.5204 73.8567 None.

Definition PHC_Village_A : Location.t :=
  Location.mk 18.5304 73.8767 (Some "North Valley PHC"%string).

(** The drone record [createInitialDrones] builds for one fleet slot. *)
Definition initialDrone (droneId name color : string) : Drone.t :=
  {| Drone.id := droneId;
     Drone.name := name;
     Drone.status := idle;
     Drone.currentLocation := CENTRAL_HOSPITAL_LOCATION;
     Drone.assignedTaskId := None;
     Drone.assignedRoute := None;
     Drone.telemetry :=
       {| DroneTelemetry.latitude := Location.lat CENTRAL_HOSPITAL_LOCATION;
          DroneTelemetry.longitude := Location.lng CENTRAL_HOSPITAL_LOCATION;
          DroneTelemetry.altitude := 0;
          DroneTelemetry.speed := 0;
          DroneTelemetry.verticalSpeed := 0;
          DroneTelemetry.battery := 100;
          DroneTelemetry.bearing := 0;
          DroneTelemetry.distanceTraveled := 0;
          DroneTelemetry.distanceRemaining := 0;
          DroneTelemetry.status := IDLE;
          DroneTelemetry.connectionStrength := 100;
          DroneTelemetry.satellites := 14;
          DroneTelemetry.flightTime := 0 |};
     Drone.homeLocation := CENTRAL_HOSPITAL_LOCATION;
     Drone.color := color |}.

Definition createInitialDrones : gmap string Drone.t :=
  <["DRONE-1"%string := initialDrone "DRONE-1" "Drone 1" "#10b981"]>
  (<["DRONE-2"%string := initialDrone "DRONE-2" "Drone 2" "#3b82f6"]>
  (<["DRONE-3"%string := initialDrone "DRONE-3" "Drone 3" "#f59e0b"]>
  (<["DRONE-4"%string := initialDrone "DRONE-4" "Drone 4" "#ec4899"]>
  (<["DRONE-5"%string := initialDrone "DRONE-5" "Drone 5" "#8b5cf6"]> ∅)))).

(** The physics record the mission control creates for a drone. *)
Definition initialPhysics (drone : Drone.t) (now : R) : DronePhysics.t :=
  {| DronePhysics.lat := Location.lat (Drone.homeLocation drone);
     DronePhysics.lng := Location.lng (Drone.homeLocation drone);
     DronePhysics.alt := 0;
     DronePhysics.heading := 0;
     DronePhysics.speed := 0;
     DronePhysics.vSpeed := 0;
     DronePhysics.roll := 0;
     DronePhysics.pitch := 0;
     DronePhysics.battery_v := 25.2;
     DronePhysics.battery_rem := 100;
     DronePhysics.wind_dir := 45;
     DronePhysics.wind_spd := 5;
     DronePhysics.lastTick := now;
     DronePhysics.armed := false;
     DronePhysics.flightMode := STABILIZE;
     DronePhysics.activeWpIndex := (-1)%Z;
     DronePhysics.homeLocation := Drone.homeLocation drone;
     DronePhysics.deliveryWaitTime := 0;
     DronePhysics.isReturningHome := false |}.

(** A request for the first village clinic. *)
Definition sampleRequest (requestId : string) : MedicineRequest.t :=
  {| MedicineRequest.id := requestId;
     MedicineRequest.hospitalId := "PHC-Village-A";
     MedicineRequest.hospitalName := "North Valley PHC";
     MedicineRequest.location := PHC_Village_A;
     MedicineRequest.origin := None;
     MedicineRequest.medicines := ["Paracetamol"%string];
     MedicineRequest.priority := Normal;
     MedicineRequest.status := ms_pending;
     MedicineRequest.timestamp := 0;
     MedicineRequest.eta := None;
     MedicineRequest.batteryRequired := None;
     MedicineRequest.droneId := None |}.

Definition sampleRoute : list MissionItem.t :=
  generateRouteForTask CENTRAL_HOSPITAL_LOCATION PHC_Village_A.

(** ** Specification predicates *)

(** [status == idle] implies no route and no task. *)
Definition idleInvariant (d : Drone.t) : Prop :=
  Drone.status d = idle ->
  Drone.assignedRoute d = None /\ Drone.assignedTaskId d = None.

Definition fleetInvariant (m : gmap string Drone.t) : Prop :=
  map_Forall (fun _ d => idleInvariant d) m.

(** Effects that cannot make a drone idle while it keeps a route or task. *)
Definition benign (e : MissionControl.Effect) : Prop :=
  match e with
  | MissionControl.UpdateDroneStatus _ st => st <> idle
  | _ => True
  end.

(** The effect changes the mission fields (status, task, route) of the
    drone stored under [k]. *)
Definition touches (k : string) (e : MissionControl.Effect) : Prop :=
  match e with
  | MissionControl.UpdateDroneStatus droneId _ => droneId = k
  | MissionControl.CompleteDroneTask droneId => droneId = k
  | _ => False
  end.

(** The mission fields of a drone record. *)
Definition missionFields (d : Drone.t)
    : DroneStatus * option string * option (list MissionItem.t) :=
  (Drone.status d, Drone.assignedTaskId d, Drone.assignedRoute d).

(** The completion callback of the task store for request [taskId]. *)
Definition isCompletion (taskId : string) (e : MissionControl.Effect) : bool :=
  match e with
  | MissionControl.UpdateRequestStatus id' ms_completed =>
      String.eqb id' taskId
  | _ => false
  end.

Definition completions (taskId : string) (effs : list MissionControl.Effect)
    : nat :=
  length (filter (fun e => isCompletion taskId e = true) effs).

(** The inputs of one tick of one drone: the clock, the selection, the
    controls held and the drone record of the snapshot. *)
Record TickInput := mkTickInput {
  ti_now : R;
  ti_selected : option string;
  ti_controls : gmap string bool;
  ti_droneId : string;
  ti_drone : Drone.t
}.

(** The physics record of a drone after one tick and after a run of ticks. *)
Definition tickPhysics (physics : DronePhysics.t) (i : TickInput)
    : DronePhysics.t :=
  (MissionControl.tickDrone (ti_now i) (ti_selected i) (ti_controls i)
     (ti_droneId i) (ti_drone i) physics).1.

Definition runPhysics (inputs : list TickInput) (physics : DronePhysics.t)
    : DronePhysics.t :=
  foldl tickPhysics physics inputs.

(** The clock of the ticks never runs backwards, starting from [t0]. *)
Fixpoint clockFrom (t0 : R) (inputs : list TickInput) : Prop :=
  match inputs with
  | [] => True
  | i :: rest => t0 <= ti_now i /\ clockFrom (ti_now i) rest
  end.

Import MissionControl DronePhysics.

(** Only the drone's own key is touched by the effects of its tick. *)
Definition ownEffect (droneId : string) (e : Effect) : Prop :=
  forall k, touches k e -> k = droneId.

(** Effects that only log or publish telemetry. *)
Definition passive (e : Effect) : Prop :=
  match e with
  | AddLog _ _ | UpdateDroneTelemetry _ _ => True
  | _ => False
  end.

(** The battery percent after the drain of one tick. *)
Definition drained (dt : R) (physics : t) : R :=
  if armed physics
  then battery_rem physics
       - (if decide (flightMode physics = STABILIZE) then 0.01 else 0.05) * dt
  else battery_rem physics.



(** ** Example fleets and worlds *)

Definition initialWorld (now : R) : World :=
  mkWorld createInitialDrones
          ((fun drone => initialPhysics drone now) <$> createInitialDrones)
          None ∅.

(** The fleet after the first drone was dispatched to the village clinic. *)
Definition dispatchedFleet : gmap string Drone.t :=
  DroneContext.assignTaskToDrone "DRONE-1" (sampleRequest "REQ-1") sampleRoute
    createInitialDrones.

Definition dispatchedDrone : Drone.t :=
  {| Drone.id := "DRONE-1";
     Drone.name := "Drone 1";
     Drone.status := dispatched;
     Drone.currentLocation := CENTRAL_HOSPITAL_LOCATION;
     Drone.assignedTaskId := Some "REQ-1"%string;
     Drone.assignedRoute := Some sampleRoute;
     Drone.telemetry :=
       Drone.telemetry (initialDrone "DRONE-1" "Drone 1" "#10b981");
     Drone.homeLocation := CENTRAL_HOSPITAL_LOCATION;
     Drone.color := "#10b981" |}.

(** The same fleet once the mission of the first drone was started. *)
Definition runningFleet : gmap string Drone.t :=
  DroneContext.updateDroneStatus "DRONE-1" running dispatchedFleet.

Definition runningDrone : Drone.t :=
  {| Drone.id := "DRONE-1";
     Drone.name := "Drone 1";
     Drone.status := running;
     Drone.currentLocation := CENTRAL_HOSPITAL_LOCATION;
     Drone.assignedTaskId := Some "REQ-1"%string;
     Drone.assignedRoute := Some sampleRoute;
     Drone.telemetry :=
       Drone.telemetry (initialDrone "DRONE-1" "Drone 1" "#10b981");
     Drone.homeLocation := CENTRAL_HOSPITAL_LOCATION;
     Drone.color := "#10b981" |}.

(** A physics record in flight for the first drone; the examples below
    vary its position, mode and mission flags. *)
Definition flightPhysics (lat lng alt : R) (mode : FlightMode) (index : Z)
    (wait : R) (returning : bool) (battery : R) : DronePhysics.t :=
  {| DronePhysics.lat := lat;
     DronePhysics.lng := lng;
     DronePhysics.alt := alt;
     DronePhysics.heading := 0;
     DronePhysics.speed := 54;
     DronePhysics.vSpeed := 0;
     DronePhysics.roll := 0;
     DronePhysics.pitch := 0;
     DronePhysics.battery_v := 22.0 + (battery / 100) * 3.2;
     DronePhysics.battery_rem := battery;
     DronePhysics.wind_dir := 45;
     DronePhysics.wind_spd := 5;
     DronePhysics.lastTick := 1000;
     DronePhysics.armed := true;
     DronePhysics.flightMode := mode;
     DronePhysics.activeWpIndex := index;
     DronePhysics.homeLocation := CENTRAL_HOSPITAL_LOCATION;
     DronePhysics.deliveryWaitTime := wait;
     DronePhysics.isReturningHome := returning |}.

(** Touching down at home at the end of the return. *)
Definition homeLandingPhysics : DronePhysics.t :=
  flightPhysics 18.5204 73.8567 0.2 LAND 4 3.1 true 95.

Definition homeLandingWorld : World :=
  mkWorld runningFleet {["DRONE-1"%string := homeLandingPhysics]}
          (Some "DRONE-1"%string) ∅.

(** Arriving over home in [RTL] while the pilot holds the climb key. *)
Definition rtlArrivalPhysics : DronePhysics.t :=
  flightPhysics 18.5204 73.8567 50 RTL 4 3.1 true 95.

Definition rtlArrivalWorld : World :=
  mkWorld runningFleet {["DRONE-1"%string := rtlArrivalPhysics]}
          (Some "DRONE-1"%string) {["up"%string := true]}.

(** On the way out in [AUTO], the drone selected and the climb key held. *)
Definition outboundPhysics : DronePhysics.t :=
  flightPhysics 18.5254 73.8667 100 AUTO 2 0 false 98.

Definition outboundWorld : World :=
  mkWorld runningFleet {["DRONE-1"%string := outboundPhysics]}
          (Some "DRONE-1"%string) {["up"%string := true]}.

(** The route replaced in flight by its first three items while the drone
    was heading for the fifth. *)
Definition shortRoute : list MissionItem.t := take 3 sampleRoute.

Definition reroutedFleet : gmap string Drone.t :=
  DroneContext.updateDroneRoute "DRONE-1" shortRoute runningFleet.

Definition reroutedDrone : Drone.t :=
  {| Drone.id := "DRONE-1";
     Drone.name := "Drone 1";
     Drone.status := running;
     Drone.currentLocation := CENTRAL_HOSPITAL_LOCATION;
     Drone.assignedTaskId := Some "REQ-1"%string;
     Drone.assignedRoute := Some shortRoute;
     Drone.telemetry :=
       Drone.telemetry (initialDrone "DRONE-1" "Drone 1" "#10b981");
     Drone.homeLocation := CENTRAL_HOSPITAL_LOCATION;
     Drone.color := "#10b981" |}.

Definition staleIndexPhysics : DronePhysics.t :=
  flightPhysics 18.5304 73.8767 100 AUTO 4 0 false 97.

Definition staleIndexWorld : World :=
  mkWorld reroutedFleet {["DRONE-1"%string := staleIndexPhysics]} None ∅.

(** A nearly flat battery in flight. *)
Definition flatBatteryPhysics : DronePhysics.t :=
  flightPhysics 18.5254 73.8667 100 AUTO 2 0 false 0.002.

Definition laterTick (now : R) : TickInput :=
  mkTickInput now None ∅ "DRONE-1" runningDrone.

(** Taking off: on the ground at home, commanded to the first waypoint. *)
Definition climbPhysics : DronePhysics.t :=
  flightPhysics 18.5204 73.8567 0 AUTO 0 0 false 100.

Definition climbTarget : Target := mkTarget 18.5204 73.8567 100.

(** On the ground at the clinic, the delivery not reported yet. *)
Definition deliveryLandingPhysics : DronePhysics.t :=
  flightPhysics 18.5304 73.8767 0.2 AUTO 4 0 false 96.

(** ** Runs of ticks and their effects *)

(** A run of ticks of one drone: the last physics record and every effect
    of the run, in order. *)
Fixpoint runTicks (inputs : list TickInput) (physics : DronePhysics.t)
    : DronePhysics.t * list Effect :=
  match inputs with
  | [] => (physics, [])
  | i :: rest =>
      let r := tickDrone (ti_now i) (ti_selected i) (ti_controls i)
                 (ti_droneId i) (ti_drone i) physics in
      let r' := runTicks rest r.1 in
      (r'.1, r.2 ++ r'.2)
  end.

(** The drone sits on the ground at the [NAV_LAND] waypoint it was sent to:
    the condition under which the tick runs the delivery sequence. *)
Definition atDeliveryLanding (route : list MissionItem.t)
    (physics : DronePhysics.t) : Prop :=
  armed physics = true /\ flightMode physics = AUTO /\
  exists wp,
    JS.index route (activeWpIndex physics) = Some wp /\
    MissionItem.command wp = NAV_LAND /\
    getDist (lat physics) (lng physics) (MissionItem.lat wp) (MissionItem.lng wp)
      < WP_RADIUS /\
    Rabs (alt physics - MissionItem.alt wp) < 2 /\
    alt physics < 0.5.

(** The heading after the turn of one integrator step, [step] being the
    largest turn of the step in degrees. *)
Definition turnedHeading (step : R) (tgt : Target) (physics : DronePhysics.t)
    : R :=
  let bearing :=
    getBearing (lat physics) (lng physics) (targetLat tgt) (targetLng tgt) in
  let angleDiff := wrapAngle (bearing - heading physics) in
  if decide (Rabs angleDiff > 1)
  then JS.rem (heading physics
               + JS.sign angleDiff * Rmin (Rabs angleDiff) step + 360) 360
  else heading physics.

(** ** A delivery at the pole

    A route whose landing waypoint is the north pole, and a drone that
    sits three metres from it, heading north.  One step of the integrator
    at the largest elapsed time (6 m) carries it over the pole to the
    point three metres beyond, so it never leaves the waypoint radius:
    the delivery wait can be followed exactly, tick by tick. *)

Definition poleRoute : list MissionItem.t :=
  [ MissionItem.mk 1 NAV_LAND None None None None 90 0 0 ].

Definition poleDrone : Drone.t :=
  {| Drone.id := "DRONE-1";
     Drone.name := "Drone 1";
     Drone.status := running;
     Drone.currentLocation := CENTRAL_HOSPITAL_LOCATION;
     Drone.assignedTaskId := Some "REQ-1"%string;
     Drone.assignedRoute := Some poleRoute;
     Drone.telemetry :=
       Drone.telemetry (initialDrone "DRONE-1" "Drone 1" "#10b981");
     Drone.homeLocation := CENTRAL_HOSPITAL_LOCATION;
     Drone.color := "#10b981" |}.

(** Three metres as an angle at the centre of the earth, in radians. *)
Definition halfStep : R := 3 / 6371e3.

Definition poleLat : R := 90 - toDeg halfStep.

(** The drone waits on the ground by the pole, 1.5 s into the wait. *)
Definition poleWaitingPhysics : DronePhysics.t :=
  flightPhysics poleLat 0 0 AUTO 0 1.5 false 90.

Definition poleWaitingWorld : World :=
  mkWorld {["DRONE-1"%string := poleDrone]}
          {["DRONE-1"%string := poleWaitingPhysics]}
          (Some "DRONE-1"%string) ∅.

(** The state the ticks by the pole keep. *)
Definition poleOrbit (physics : DronePhysics.t) : Prop :=
  lat physics = poleLat /\ alt physics = 0 /\ vSpeed physics = 0 /\
  heading physics = 0 /\ armed physics = true /\ flightMode physics = AUTO /\
  activeWpIndex physics = 0%Z /\ isReturningHome physics = false.

(** A tick of the drone by the pole: it stays selected, no control held. *)
Definition poleInput (now : R) : TickInput :=
  mkTickInput now (Some "DRONE-1"%string) ∅ "DRONE-1" poleDrone.

(** [n] ticks, 100 ms apart, starting 100 ms after [t0]. *)
Fixpoint poleTicks (t0 : R) (n : nat) : list TickInput :=
  match n with
  | O => []
  | S n' => poleInput (t0 + 100) :: poleTicks (t0 + 100) n'
  end.

(** ** Bookkeeping of deliveries

    The tick tells the first landing at the clinic from the later ones by
    the waiting time being zero.  The definitions below count what a run
    reports and state when that test is sound. *)

(** The terminal resets ([completeDroneTask]) among the effects. *)
Definition isClosure (e : Effect) : bool :=
  match e with
  | CompleteDroneTask _ => true
  | _ => false
  end.

Definition closures (effs : list Effect) : nat :=
  length (filter (fun e => isClosure e = true) effs).

(** 1 once the wait of a delivery has started, 0 before. *)
Definition waitStarted (physics : DronePhysics.t) : nat :=
  if decide (deliveryWaitTime physics = 0) then 0%nat else 1%nat.

(** The waiting time is never negative and is running while the drone
    returns home. *)
Definition waitSound (physics : DronePhysics.t) : Prop :=
  0 <= deliveryWaitTime physics /\
  (isReturningHome physics = true -> 0 < deliveryWaitTime physics).

(** Every tick sees the clock strictly later than the tick before. *)
Fixpoint clockAdvances (t0 : R) (inputs : list TickInput) : Prop :=
  match inputs with
  | [] => True
  | i :: rest => t0 < ti_now i /\ clockAdvances (ti_now i) rest
  end.

(** The drone record of the tick carries the task of the mission. *)
Definition carriesTask (taskId : string) (i : TickInput) : Prop :=
  Drone.assignedTaskId (ti_drone i) = Some taskId.

(** ** Fleet queries of the drone context

    The drone map is a JavaScript [Map]: its values are visited in the
    order in which the keys were first set.  Every operation of the context
    sets only keys that are present, so the order is the one of
    [createInitialDrones] for good; the queries take it as the list of
    keys. *)

Definition droneOrder : list string :=
  ["DRONE-1"; "DRONE-2"; "DRONE-3"; "DRONE-4"; "DRONE-5"]%string.

(** [drones.values()] *)
Definition droneValues (order : list string) (drones : gmap string Drone.t)
    : list Drone.t :=
  omap (fun k => drones !! k) order.

(** The first idle drone, [null] when there is none. *)
Definition getAvailableDrone (order : list string)
    (drones : gmap string Drone.t) : option Drone.t :=
  List.find (fun drone => bool_decide (Drone.status drone = idle))
    (droneValues order drones).

(** The first drone that carries the task, [null] when there is none. *)
Definition getDroneByTaskId (order : list string)
    (drones : gmap string Drone.t) (taskId : string) : option Drone.t :=
  List.find (fun drone => bool_decide (Drone.assignedTaskId drone = Some taskId))
    (droneValues order drones).

(** The records of the fleet are stored under their own id, and the order
    lists the keys of the map, each once. *)
Definition keyed (drones : gmap string Drone.t) : Prop :=
  map_Forall (fun k d => Drone.id d = k) drones.

Definition listsKeys (order : list string) (drones : gmap string Drone.t)
    : Prop :=
  NoDup order /\ forall k, k ∈ order <-> is_Some (drones !! k).

(** The number of idle drones of the fleet. *)
Definition idleCount (order : list string) (drones : gmap string Drone.t)
    : nat :=
  length (filter (fun drone => Drone.status drone = idle)
            (droneValues order drones)).

(** The drone an effect of the mission control is addressed to. *)
Definition addressee (e : Effect) : option string :=
  match e with
  | UpdateDroneStatus droneId _ => Some droneId
  | CompleteDroneTask droneId => Some droneId
  | UpdateDroneTelemetry droneId _ => Some droneId
  | UpdateRequestStatus _ _ => None
  | AddLog _ _ => None
  end.

(** ** Dispatch ([handleDispatch] of the dispatch dashboard) *)

(** The multi-path update written to the request store. *)
Record RequestUpdate := mkRequestUpdate {
  ru_id : string;
  ru_status : MissionStatus;
  ru_origin : Location.t;
  ru_droneId : string
}.

Inductive DispatchOutcome :=
| NoDronesAvailable
| RequestNotFound
| Dispatched (droneId : string) (request : MedicineRequest.t)
    (route : list MissionItem.t) (update : RequestUpdate).

Definition handleDispatch (order : list string) (drones : gmap string Drone.t)
    (requests : list MedicineRequest.t) (hubLocation : Location.t)
    (id : string) : DispatchOutcome :=
  match getAvailableDrone order drones with
  | None => NoDronesAvailable
  | Some availableDrone =>
      match List.find (fun r => String.eqb (MedicineRequest.id r) id) requests with
      | None => RequestNotFound
      | Some request =>
          let route :=
            generateRouteForTask hubLocation (MedicineRequest.location request) in
          Dispatched (Drone.id availableDrone) request route
            (mkRequestUpdate id ms_dispatched hubLocation
               (Drone.id availableDrone))
      end
  end.

(** The drone map once the [assignTaskToDrone] queued by a dispatch ran. *)
Definition afterDispatch (o : DispatchOutcome) (prev : gmap string Drone.t)
    : gmap string Drone.t :=
  match o with
  | Dispatched droneId request route _ =>
      DroneContext.assignTaskToDrone droneId request route prev
  | _ => prev
  end.

(** ** The console log ([addLog]) *)

Record LogMessage (T : Type) := mkLogMessage {
  log_id : R;
  log_timestamp : string;
  log_severity : Severity;
  log_text : T
}.
Arguments mkLogMessage {T} _ _ _ _.
Arguments log_id {T} _.
Arguments log_timestamp {T} _.
Arguments log_severity {T} _.
Arguments log_text {T} _.

(** [setLogs(prev => [newLog, ...prev.slice(0, 49)])]; [now] is
    [Date.now()] and [clock] the formatted time of day. *)
Definition addLog {T : Type} (now : R) (clock : string) (text : T)
    (severity : Severity) (prev : list (LogMessage T)) : list (LogMessage T) :=
  let newLog := mkLogMessage now clock severity text in
  newLog :: take 49 prev.

(** ** Physics records of the fleet *)

(** The effect that creates the physics record of every drone that has
    none; [clock droneId] is [Date.now()] when the record is created. *)
Definition initializeDronePhysics (clock : string -> R)
    (drones : gmap string Drone.t) (ref : gmap string DronePhysics.t)
    : gmap string DronePhysics.t :=
  map_fold
    (fun droneId drone ref =>
       match ref !! droneId with
       | Some _ => ref
       | None => <[droneId := initialPhysics drone (clock droneId)]> ref
       end)
    ref drones.

(** ** Arming and disarming *)

Inductive GpsFix := NO_FIX | FIX_2D | FIX_3D.

#[global] Instance GpsFix_eq_dec : EqDecision GpsFix.
Proof. solve_decision. Defined.

Module PreflightChecks.
Record t := mk { accel : bool; gyro : bool; mag : bool; rc : bool;
                 battery : bool }.
End PreflightChecks.

Inductive PreflightStep :=
  step_accel | step_gyro | step_mag | step_rc | step_battery.

(** [{ ...prev, [step]: true }] *)
Definition passCheck (step : PreflightStep) (prev : PreflightChecks.t)
    : PreflightChecks.t :=
  match step with
  | step_accel =>
      PreflightChecks.mk true (PreflightChecks.gyro prev)
        (PreflightChecks.mag prev) (PreflightChecks.rc prev)
        (PreflightChecks.battery prev)
  | step_gyro =>
      PreflightChecks.mk (PreflightChecks.accel prev) true
        (PreflightChecks.mag prev) (PreflightChecks.rc prev)
        (PreflightChecks.battery prev)
  | step_mag =>
      PreflightChecks.mk (PreflightChecks.accel prev)
        (PreflightChecks.gyro prev) true (PreflightChecks.rc prev)
        (PreflightChecks.battery prev)
  | step_rc =>
      PreflightChecks.mk (PreflightChecks.accel prev)
        (PreflightChecks.gyro prev) (PreflightChecks.mag prev) true
        (PreflightChecks.battery prev)
  | step_battery =>
      PreflightChecks.mk (PreflightChecks.accel prev)
        (PreflightChecks.gyro prev) (PreflightChecks.mag prev)
        (PreflightChecks.rc prev) true
  end.

(** [Object.values(preflightChecks).every(Boolean)] *)
Definition allChecksPassed (c : PreflightChecks.t) : bool :=
  PreflightChecks.accel c && PreflightChecks.gyro c && PreflightChecks.mag c
  && PreflightChecks.rc c && PreflightChecks.battery c.

(** The system state of the component beside the fleet. *)
Record Systems := mkSystems {
  gpsFix : GpsFix;
  preflightChecks : PreflightChecks.t;
  checklistOpen : bool
}.

Inductive SystemLog :=
| ARM_FAIL_NO_DRONE_SELECTED
| ARM_FAIL_NO_GPS_FIX
| AUTO_SEQUENCING_PREFLIGHT_CHECKS
| MOTORS_ARMED (droneName : string)
| MOTORS_ARMED_CAUTION (droneName : string)
| DISARM_REJECTED_VEHICLE_AIRBORNE
| MOTORS_DISARMED (droneName : string)
| PREFLIGHT_CHECKS_PASSED.

(** The callbacks handed to [setTimeout].  [ArmCaptured] is the callback of
    [armSystem]: it arms the physics record that was the selected one when
    [armSystem] ran, kept here by its key. *)
Inductive Timer :=
| PassCheck (step : PreflightStep)
| ClosePreflight
| ArmCaptured (captured : option string) (droneName : string).

Record Console := mkConsole {
  con_world : World;
  con_systems : Systems;
  con_timers : list (R * Timer);
  con_logs : list (SystemLog * Severity)
}.

Definition runPreflight (w : World) (sys : Systems) : Console :=
  mkConsole w
    (mkSystems (gpsFix sys) (preflightChecks sys) true)
    [(800, PassCheck step_accel); (1600, PassCheck step_gyro);
     (2400, PassCheck step_mag); (3200, PassCheck step_rc);
     (4000, PassCheck step_battery); (5000, ClosePreflight)]
    [].

Definition armSystem (w : World) (sys : Systems) : Console :=
  match getSelectedDrone w, getSelectedPhysics w with
  | Some drone, Some physics =>
      if decide (gpsFix sys = NO_FIX)
      then mkConsole w sys [] [(ARM_FAIL_NO_GPS_FIX, ERROR)]
      else if negb (allChecksPassed (preflightChecks sys))
      then
        mkConsole w
          (mkSystems (gpsFix sys) (preflightChecks sys) true)
          [(600, PassCheck step_accel); (1200, PassCheck step_gyro);
           (1800, PassCheck step_mag); (2400, PassCheck step_rc);
           (3000, PassCheck step_battery);
           (3200, ArmCaptured (selectedDroneId w)
                    (Drone.name drone))]
          [(AUTO_SEQUENCING_PREFLIGHT_CHECKS, WARNING)]
      else
        mkConsole (putSelectedPhysics w (set_armed physics true)) sys []
          [(MOTORS_ARMED_CAUTION (Drone.name drone), WARNING)]
  | _, _ => mkConsole w sys [] [(ARM_FAIL_NO_DRONE_SELECTED, ERROR)]
  end.

(** What a timer does when it fires. *)
Definition fireTimer (t : Timer) (w : World) (sys : Systems)
    : World * Systems * list (SystemLog * Severity) :=
  match t with
  | PassCheck step =>
      (w, mkSystems (gpsFix sys) (passCheck step (preflightChecks sys))
            (checklistOpen sys), [])
  | ClosePreflight =>
      (w, mkSystems (gpsFix sys) (preflightChecks sys) false,
       [(PREFLIGHT_CHECKS_PASSED, INFO)])
  | ArmCaptured captured droneName =>
      (match captured with
       | Some k =>
           mkWorld (drones w)
             (alter (fun physics => set_armed physics true) k
                (dronePhysicsRef w))
             (selectedDroneId w) (activeControls w)
       | None => w
       end,
       mkSystems (gpsFix sys) (preflightChecks sys) false,
       [(MOTORS_ARMED droneName, WARNING)])
  end.

(** Fires the timers of a list one after the other. *)
Fixpoint fireTimers (ts : list (R * Timer)) (w : World) (sys : Systems)
    : World * Systems :=
  match ts with
  | [] => (w, sys)
  | (_, t) :: rest =>
      let '(w', sys', _) := fireTimer t w sys in fireTimers rest w' sys'
  end.

Definition disarmSystem (w : World) : World * list (SystemLog * Severity) :=
  match getSelectedDrone w, getSelectedPhysics w with
  | Some drone, Some physics =>
      if decide (alt physics > 2)
      then (w, [(DISARM_REJECTED_VEHICLE_AIRBORNE, CRITICAL)])
      else (putSelectedPhysics w
              (set_flightMode (set_armed physics false) STABILIZE),
            [(MOTORS_DISARMED (Drone.name drone), INFO)])
  | _, _ => (w, [])
  end.

(** ** Keyboard control *)

Definition keyMap (key : string) : option string :=
  snd <$> List.find (fun kv => String.eqb kv.1 key)
    [("w", "up"); ("W", "up"); ("s", "down"); ("S", "down");
     ("a", "turnLeft"); ("A", "turnLeft"); ("d", "turnRight");
     ("D", "turnRight"); ("ArrowUp", "forward"); ("ArrowDown", "backward");
     ("ArrowLeft", "left"); ("ArrowRight", "right"); (" ", "up");
     ("Shift", "down")]%string.

Definition handleKeyDown (key : string) (prev : gmap string bool)
    : gmap string bool :=
  match keyMap key with
  | Some control =>
      if JS.truthy (Some control) then <[control := true]> prev else prev
  | None => prev
  end.

Definition handleKeyUp (key : string) (prev : gmap string bool)
    : gmap string bool :=
  match keyMap key with
  | Some control =>
      if JS.truthy (Some control) then <[control := false]> prev else prev
  | None => prev
  end.

(** ** Further specification predicates *)

(** The fields of a drone record that name the drone. *)
Definition identity (d : Drone.t) : string * string * Location.t * string :=
  (Drone.id d, Drone.name d, Drone.homeLocation d, Drone.color d).

(** Two drone maps hold the same drones: the same keys, and under each key
    a record with the same identity. *)
Definition sameFleet (m m' : gmap string Drone.t) : Prop :=
  forall k, identity <$> (m' !! k) = identity <$> (m !! k).

(** The waypoint index is [-1] (not started) or addresses the route. *)
Definition indexValid (route : list MissionItem.t) (i : Z) : Prop :=
  (-1 <= i < Z.of_nat (length route))%Z.

(** What the step of [tick] for the drone stored under [k] returns: the
    physics record it stores and the effects it queues. *)
Definition stepAt (now : R) (w : World) (k : string) (d : Drone.t)
    : option DronePhysics.t * list Effect :=
  match dronePhysicsRef w !! k with
  | Some p =>
      let r := tickDrone now (selectedDroneId w) (activeControls w) k d p in
      (Some r.1, r.2)
  | None => (None, [])
  end.

(** The log after the messages of [entries] were added one after the
    other, the first of the list first. *)
Definition replayLog {T : Type} (entries : list (LogMessage T))
    (prev : list (LogMessage T)) : list (LogMessage T) :=
  foldl (fun logs m =>
           addLog (log_id m) (log_timestamp m) (log_text m) (log_severity m) logs)
        prev entries.

(** A drone record as [assignTaskToDrone] leaves it. *)
Definition assigned (drone : Drone.t) (task : MedicineRequest.t)
    (route : list MissionItem.t) : Drone.t :=
  {| Drone.id := Drone.id drone;
     Drone.name := Drone.name drone;
     Drone.status := dispatched;
     Drone.currentLocation := Drone.currentLocation drone;
     Drone.assignedTaskId := Some (MedicineRequest.id task);
     Drone.assignedRoute := Some route;
     Drone.telemetry := Drone.telemetry drone;
     Drone.homeLocation := Drone.homeLocation drone;
     Drone.color := Drone.color drone |}.

(** The drone waits on the ground at the clinic, 1.5 s into the wait that
    follows its delivery; it is the selected drone and no control is held. *)
Definition clinicWaitingPhysics : DronePhysics.t :=
  flightPhysics 18.5304 73.8767 0.2 AUTO 4 1.5 false 95.

Definition clinicWaitingWorld : World :=
  mkWorld runningFleet {["DRONE-1"%string := clinicWaitingPhysics]}
          (Some "DRONE-1"%string) ∅.

(** * Properties of the mission planner *)

Import DroneContext.

(** Case analysis on every decision in the goal; the branches that
    contradict the hypotheses are closed. *)
Ltac absurd_branch :=
  exfalso;
  solve [ intuition (try discriminate; try congruence; try lra; try lia) ].

Ltac decide_all := repeat (case_decide; try absurd_branch).

(** *** Coordinator operations, one drone at a time *)

Lemma assignTaskToDrone_lookup droneId task route prev drone :
  prev !! droneId = Some drone ->
  assignTaskToDrone droneId task route prev !! droneId =
    Some {| Drone.id := Drone.id drone;
            Drone.name := Drone.name drone;
            Drone.status := dispatched;
            Drone.currentLocation := Drone.currentLocation drone;
            Drone.assignedTaskId := Some (MedicineRequest.id task);
            Drone.assignedRoute := Some route;
            Drone.telemetry := Drone.telemetry drone;
            Drone.homeLocation := Drone.homeLocation drone;
            Drone.color := Drone.color drone |}.
Proof.
  intros H. unfold assignTaskToDrone. rewrite H. apply lookup_insert_eq.
Qed.

Lemma assignTaskToDrone_other droneId task route prev other :
  other <> droneId ->
  assignTaskToDrone droneId task route prev !! other = prev !! other.
Proof.
  intros H. unfold assignTaskToDrone.
  destruct (prev !! droneId); [|done]. by rewrite lookup_insert_ne.
Qed.

Lemma assignTaskToDrone_unknown droneId task route prev :
  prev !! droneId = None -> assignTaskToDrone droneId task route prev = prev.
Proof. intros H. unfold assignTaskToDrone. by rewrite H. Qed.

Lemma updateDroneStatus_lookup droneId status prev drone :
  prev !! droneId = Some drone ->
  updateDroneStatus droneId status prev !! droneId =
    Some {| Drone.id := Drone.id drone;
            Drone.name := Drone.name drone;
            Drone.status := status;
            Drone.currentLocation := Drone.currentLocation drone;
            Drone.assignedTaskId := Drone.assignedTaskId drone;
            Drone.assignedRoute := Drone.assignedRoute drone;
            Drone.telemetry := Drone.telemetry drone;
            Drone.homeLocation := Drone.homeLocation drone;
            Drone.color := Drone.color drone |}.
Proof.
  intros H. unfold updateDroneStatus. rewrite H. apply lookup_insert_eq.
Qed.

Lemma updateDroneRoute_lookup droneId route prev drone :
  prev !! droneId = Some drone ->
  updateDroneRoute droneId route prev !! droneId =
    Some {| Drone.id := Drone.id drone;
            Drone.name := Drone.name drone;
            Drone.status := Drone.status drone;
            Drone.currentLocation := Drone.currentLocation drone;
            Drone.assignedTaskId := Drone.assignedTaskId drone;
            Drone.assignedRoute := Some route;
            Drone.telemetry := Drone.telemetry drone;
            Drone.homeLocation := Drone.homeLocation drone;
            Drone.color := Drone.color drone |}.
Proof.
  intros H. unfold updateDroneRoute. rewrite H. apply lookup_insert_eq.
Qed.

Lemma dispatchedFleet_lookup :
  dispatchedFleet !! "DRONE-1"%string = Some dispatchedDrone.
Proof.
  unfold dispatchedFleet.
  rewrite (assignTaskToDrone_lookup _ _ _ _
             (initialDrone "DRONE-1" "Drone 1" "#10b981")); [done|].
  unfold createInitialDrones. apply lookup_insert_eq.
Qed.

Lemma runningFleet_lookup :
  runningFleet !! "DRONE-1"%string = Some runningDrone.
Proof.
  unfold runningFleet.
  by rewrite (updateDroneStatus_lookup _ _ _ _ dispatchedFleet_lookup).
Qed.

Lemma reroutedFleet_lookup :
  reroutedFleet !! "DRONE-1"%string = Some reroutedDrone.
Proof.
  unfold reroutedFleet.
  by rewrite (updateDroneRoute_lookup _ _ _ _ runningFleet_lookup).
Qed.

Lemma fleetInvariant_insert m k d :
  idleInvariant d -> fleetInvariant m -> fleetInvariant (<[k := d]> m).
Proof. intros Hd Hm. by apply map_Forall_insert_2. Qed.

Lemma fleetInvariant_assign droneId task route prev :
  fleetInvariant prev -> fleetInvariant (assignTaskToDrone droneId task route prev).
Proof.
  intros H. unfold assignTaskToDrone.
  destruct (prev !! droneId); [|done].
  apply fleetInvariant_insert; [|done]. intros Hs. discriminate Hs.
Qed.

Lemma fleetInvariant_complete droneId prev :
  fleetInvariant prev -> fleetInvariant (completeDroneTask droneId prev).
Proof.
  intros H. unfold completeDroneTask.
  destruct (prev !! droneId); [|done].
  apply fleetInvariant_insert; [|done]. intros _. done.
Qed.

Lemma fleetInvariant_status droneId st prev :
  st <> idle -> fleetInvariant prev ->
  fleetInvariant (updateDroneStatus droneId st prev).
Proof.
  intros Hst H. unfold updateDroneStatus.
  destruct (prev !! droneId); [|done].
  apply fleetInvariant_insert; [|done]. intros Hs. simpl in Hs. done.
Qed.

Lemma fleetInvariant_telemetry droneId patch prev :
  fleetInvariant prev -> fleetInvariant (updateDroneTelemetry droneId patch prev).
Proof.
  intros H. unfold updateDroneTelemetry.
  destruct (prev !! droneId) as [d|] eqn:E; [|done].
  apply fleetInvariant_insert; [|done]. intros Hs. simpl in *.
  exact (H _ _ E Hs).
Qed.

Lemma fleetInvariant_route droneId route prev drone :
  prev !! droneId = Some drone -> Drone.status drone <> idle ->
  fleetInvariant prev -> fleetInvariant (updateDroneRoute droneId route prev).
Proof.
  intros E Hst H. unfold updateDroneRoute. rewrite E.
  apply fleetInvariant_insert; [|done]. intros Hs. simpl in Hs. done.
Qed.

Lemma fleetInvariant_applyEffect e m :
  benign e -> fleetInvariant m -> fleetInvariant (applyEffect m e).
Proof.
  destruct e; simpl; intros Hb Hm; auto using fleetInvariant_status,
    fleetInvariant_complete, fleetInvariant_telemetry.
Qed.

Lemma fleetInvariant_applyEffects effs m :
  Forall benign effs -> fleetInvariant m -> fleetInvariant (applyEffects effs m).
Proof.
  unfold applyEffects. revert m.
  induction effs as [|e effs IH]; intros m Hb Hm; simpl; [done|].
  inversion Hb; subst. apply IH; [done|]. by apply fleetInvariant_applyEffect.
Qed.

Lemma fleetInvariant_initial : fleetInvariant createInitialDrones.
Proof.
  unfold createInitialDrones.
  repeat (apply fleetInvariant_insert; [intros _; done|]).
  apply map_Forall_empty.
Qed.

(** *** The effects of a tick *)

Lemma deliveryLanding_benign dt drone physics :
  Forall benign (deliveryLanding dt drone physics).2.
Proof.
  unfold deliveryLanding. repeat case_decide; simpl; auto.
  - destruct (Drone.assignedTaskId drone); [|constructor].
    case_match; repeat constructor.
  - repeat constructor.
Qed.

Lemma autoWaypoint_benign dt drone route tgt0 physics :
  Forall benign (autoWaypoint dt drone route tgt0 physics).2.
Proof.
  unfold autoWaypoint.
  destruct (JS.index route _); [|constructor].
  repeat case_decide; simpl; try constructor.
  pose proof (deliveryLanding_benign dt drone physics) as Hd.
  destruct (deliveryLanding dt drone physics). exact Hd.
Qed.

Lemma stateMachine_benign dt droneId drone route physics :
  Forall benign (stateMachine dt droneId drone route physics).2.
Proof.
  unfold stateMachine.
  destruct (armed physics); [|constructor].
  cbv zeta.
  repeat case_decide; simpl.
  all: try constructor.
  all: try match goal with
       | |- context [autoWaypoint ?a ?b ?c ?d ?e] =>
           pose proof (autoWaypoint_benign a b c d e) as Ha;
           destruct (autoWaypoint a b c d e) as [[? ?] ?]; simpl in *
       end.
  all: try (repeat constructor; done).
  all: try (destruct (isReturningHome _); simpl; repeat constructor).
Qed.

Lemma deliveryLanding_own droneId dt drone physics :
  Forall (ownEffect droneId) (deliveryLanding dt drone physics).2.
Proof.
  unfold deliveryLanding. repeat case_decide; simpl; auto.
  - destruct (Drone.assignedTaskId drone); [|constructor].
    case_match; repeat constructor. intros k [].
  - repeat constructor. intros k [].
Qed.

Lemma autoWaypoint_own droneId dt drone route tgt0 physics :
  Forall (ownEffect droneId) (autoWaypoint dt drone route tgt0 physics).2.
Proof.
  unfold autoWaypoint.
  destruct (JS.index route _); [|constructor].
  repeat case_decide; simpl; try constructor.
  pose proof (deliveryLanding_own droneId dt drone physics) as Hd.
  destruct (deliveryLanding dt drone physics). exact Hd.
Qed.

Lemma stateMachine_own dt droneId drone route physics :
  Forall (ownEffect droneId) (stateMachine dt droneId drone route physics).2.
Proof.
  unfold stateMachine.
  destruct (armed physics); [|constructor].
  cbv zeta.
  repeat case_decide; simpl.
  all: try constructor.
  all: try match goal with
       | |- context [autoWaypoint ?a ?b ?c ?d ?e] =>
           pose proof (autoWaypoint_own droneId a b c d e) as Ha;
           destruct (autoWaypoint a b c d e) as [[? ?] ?]; simpl in *
       end.
  all: try done.
  all: try (destruct (isReturningHome _); simpl).
  all: repeat constructor; try done.
  all: try (intros k Hk; simpl in Hk; done).
Qed.

Lemma modeOverride_passive controls physics :
  Forall passive (modeOverride controls physics).2.
Proof.
  unfold modeOverride. destruct (anyControl controls); [|constructor].
  case_decide; repeat constructor.
Qed.

Lemma manualControl_passive mult dt sel controls droneId drone physics :
  Forall passive (manualControl mult dt sel controls droneId drone physics).2.
Proof.
  unfold manualControl.
  case_decide; [|constructor].
  cbv zeta.
  pose proof (modeOverride_passive controls physics) as He.
  destruct (modeOverride controls physics) as [p0 effs0].
  destruct (throttleYaw _ _ controls p0) as [p1 moved1].
  destruct (pitchRoll _ controls p1 moved1) as [p2 moved2].
  simpl in He. destruct moved2; simpl; [|done].
  apply Forall_app; split; [done|]. repeat constructor.
Qed.

Lemma passive_benign e : passive e -> benign e.
Proof. destruct e; simpl; intros H; done. Qed.

Lemma passive_own droneId e : passive e -> ownEffect droneId e.
Proof. destruct e; simpl; intros H; try done; intros k []. Qed.

Lemma passive_untouched k e : passive e -> ~ touches k e.
Proof. destruct e; simpl; intros H Ht; done. Qed.

(** The effects of one drone's tick: state machine, telemetry, manual
    control, in this order. *)
Lemma tickDrone_effects now sel controls droneId drone physics route :
  Drone.assignedRoute drone = Some route ->
  exists dt p1 tgt effs1 p2 effs3,
    dt = Rmin ((now - lastTick physics) / 1000) 0.1 /\
    stateMachine dt droneId drone route (set_lastTick physics now)
      = (p1, tgt, effs1) /\
    manualControl SIM_SPEED_MULT dt sel controls droneId drone
      (physicsMove SIM_SPEED_MULT dt tgt p1) = (p2, effs3) /\
    tickDrone now sel controls droneId drone physics
      = (p2, effs1 ++ [UpdateDroneTelemetry droneId
                         (basicTelemetry (physicsMove SIM_SPEED_MULT dt tgt p1))]
             ++ effs3).
Proof.
  intros Hr. unfold tickDrone. rewrite Hr. cbv zeta.
  destruct (stateMachine _ droneId drone route _) as [[p1 tgt] effs1] eqn:E1.
  destruct (manualControl _ _ sel controls droneId drone _) as [p2 effs3] eqn:E3.
  by exists (Rmin ((now - lastTick physics) / 1000) 0.1), p1, tgt, effs1, p2, effs3.
Qed.

Lemma tickDrone_benign now sel controls droneId drone physics :
  Forall benign (tickDrone now sel controls droneId drone physics).2.
Proof.
  destruct (Drone.assignedRoute drone) as [route|] eqn:Hr.
  - destruct (tickDrone_effects now sel controls droneId drone physics route Hr)
      as (dt & p1 & tgt & effs1 & p2 & effs3 & _ & E1 & E3 & ->).
    simpl. apply Forall_app; split.
    + pose proof (stateMachine_benign dt droneId drone route
                    (set_lastTick physics now)) as H. by rewrite E1 in H.
    + constructor; [done|].
      pose proof (manualControl_passive SIM_SPEED_MULT dt sel controls droneId
                    drone (physicsMove SIM_SPEED_MULT dt tgt p1)) as H.
      rewrite E3 in H. simpl in H.
      eapply Forall_impl; [exact H|]. apply passive_benign.
  - unfold tickDrone. rewrite Hr. constructor.
Qed.

Lemma tickDrone_own now sel controls droneId drone physics :
  Forall (ownEffect droneId) (tickDrone now sel controls droneId drone physics).2.
Proof.
  destruct (Drone.assignedRoute drone) as [route|] eqn:Hr.
  - destruct (tickDrone_effects now sel controls droneId drone physics route Hr)
      as (dt & p1 & tgt & effs1 & p2 & effs3 & _ & E1 & E3 & ->).
    simpl. apply Forall_app; split.
    + pose proof (stateMachine_own dt droneId drone route
                    (set_lastTick physics now)) as H. by rewrite E1 in H.
    + constructor; [intros k []|].
      pose proof (manualControl_passive SIM_SPEED_MULT dt sel controls droneId
                    drone (physicsMove SIM_SPEED_MULT dt tgt p1)) as H.
      rewrite E3 in H. simpl in H.
      eapply Forall_impl; [exact H|]. apply passive_own.
  - unfold tickDrone. rewrite Hr. constructor.
Qed.

(** *** The fleet tick *)

Lemma tick_unfold now w :
  tick now w =
    let r := foldl (tickStep now (selectedDroneId w) (activeControls w))
               (dronePhysicsRef w, []) (map_to_list (drones w)) in
    (mkWorld (applyEffects r.2 (drones w)) r.1 (selectedDroneId w)
       (activeControls w), r.2).
Proof. unfold tick. by destruct (foldl _ _ _). Qed.

Lemma tickStep_benign now sel controls acc kv :
  Forall benign acc.2 -> Forall benign (tickStep now sel controls acc kv).2.
Proof.
  intros H. unfold tickStep. destruct (acc.1 !! kv.1) as [p|]; [|done].
  pose proof (tickDrone_benign now sel controls kv.1 kv.2 p) as Hd.
  destruct (tickDrone now sel controls kv.1 kv.2 p). simpl in *.
  by apply Forall_app.
Qed.

Lemma foldl_tickStep_benign now sel controls l acc :
  Forall benign acc.2 ->
  Forall benign (foldl (tickStep now sel controls) acc l).2.
Proof.
  revert acc. induction l as [|kv l IH]; intros acc H; simpl; [done|].
  apply IH. by apply tickStep_benign.
Qed.

Lemma tick_benign now w : Forall benign (tick now w).2.
Proof.
  rewrite tick_unfold. simpl. by apply foldl_tickStep_benign.
Qed.

Lemma fleetInvariant_tick now w :
  fleetInvariant (drones w) -> fleetInvariant (drones (tick now w).1).
Proof.
  intros H. pose proof (tick_benign now w) as Hb.
  rewrite tick_unfold in *. simpl in *.
  by apply fleetInvariant_applyEffects.
Qed.

(** Steps of other drones leave drone [k] alone. *)
Lemma foldl_tickStep_other now sel controls k l acc :
  k ∉ l.*1 ->
  exists more,
    (foldl (tickStep now sel controls) acc l).1 !! k = acc.1 !! k /\
    (foldl (tickStep now sel controls) acc l).2 = acc.2 ++ more /\
    Forall (fun e => ~ touches k e) more.
Proof.
  revert acc. induction l as [|[j d] l IH]; intros acc Hk; simpl.
  - exists []. by rewrite app_nil_r.
  - rewrite fmap_cons in Hk. apply not_elem_of_cons in Hk as [Hj Hl]. simpl in Hj.
    destruct (IH (tickStep now sel controls acc (j, d)) Hl)
      as (more & H1 & H2 & H3).
    unfold tickStep in *. simpl in *.
    destruct (acc.1 !! j) as [p|] eqn:Ej.
    + pose proof (tickDrone_own now sel controls j d p) as Ho.
      destruct (tickDrone now sel controls j d p) as [p' effs]. simpl in *.
      exists (effs ++ more). split; [|split].
      * rewrite H1. by rewrite lookup_insert_ne.
      * rewrite H2. by rewrite <- app_assoc.
      * apply Forall_app; split; [|done].
        eapply Forall_impl; [exact Ho|]. intros e He Ht.
        apply He in Ht. done.
    + by exists more.
Qed.

(** The tick of the fleet, seen from one drone that has a physics record:
    its physics record is advanced by [tickDrone] and its effects are
    queued between the effects of the other drones, none of which touches
    its mission fields. *)
Lemma tick_focus now w k d p :
  drones w !! k = Some d -> dronePhysicsRef w !! k = Some p ->
  let r := tickDrone now (selectedDroneId w) (activeControls w) k d p in
  exists before after,
    dronePhysicsRef (tick now w).1 !! k = Some r.1 /\
    (tick now w).2 = before ++ r.2 ++ after /\
    Forall (fun e => ~ touches k e) before /\
    Forall (fun e => ~ touches k e) after.
Proof.
  intros Hd Hp r.
  rewrite tick_unfold. cbv zeta. simpl.
  pose proof (NoDup_fst_map_to_list (drones w)) as Hnd.
  assert (Hin : (k, d) ∈ map_to_list (drones w)) by by apply elem_of_map_to_list.
  apply list_elem_of_split in Hin as (l1 & l2 & Hl).
  rewrite Hl in *. rewrite fmap_app, fmap_cons in Hnd. simpl in Hnd.
  apply NoDup_app in Hnd as (_ & Hd1 & Hnd2).
  apply NoDup_cons in Hnd2 as [Hk2 _].
  assert (Hk1 : k ∉ l1.*1).
  { intros Hin. apply (Hd1 k Hin). left. }
  rewrite foldl_app. simpl.
  destruct (foldl_tickStep_other now (selectedDroneId w) (activeControls w) k l1
              (dronePhysicsRef w, []) Hk1) as (before & B1 & B2 & B3).
  simpl in *.
  set (acc1 := foldl (tickStep now (selectedDroneId w) (activeControls w))
                 (dronePhysicsRef w, []) l1) in *.
  destruct (foldl_tickStep_other now (selectedDroneId w) (activeControls w) k l2
              (tickStep now (selectedDroneId w) (activeControls w) acc1 (k, d)) Hk2)
    as (after & A1 & A2 & A3).
  exists before, after.
  rewrite A1, A2. unfold tickStep. simpl. rewrite B1, Hp.
  fold r. destruct r as [p' effs] eqn:Er. simpl.
  rewrite lookup_insert_eq. rewrite B2. rewrite <- app_assoc. done.
Qed.

(** *** Mission fields under queued effects *)

Lemma applyEffect_untouched k e m :
  ~ touches k e ->
  missionFields <$> (applyEffect m e !! k) = missionFields <$> (m !! k).
Proof.
  intros Ht. destruct e as [j st|j|j patch|? ?|? ?]; simpl in *; try done.
  - unfold DroneContext.updateDroneStatus.
    destruct (m !! j) eqn:E; [|done]. by rewrite lookup_insert_ne.
  - unfold DroneContext.completeDroneTask.
    destruct (m !! j) eqn:E; [|done]. by rewrite lookup_insert_ne.
  - unfold DroneContext.updateDroneTelemetry.
    destruct (m !! j) as [dj|] eqn:E; [|done].
    destruct (decide (j = k)) as [->|Hne].
    + rewrite lookup_insert_eq, E. done.
    + by rewrite lookup_insert_ne.
Qed.

Lemma applyEffects_untouched k effs m :
  Forall (fun e => ~ touches k e) effs ->
  missionFields <$> (applyEffects effs m !! k) = missionFields <$> (m !! k).
Proof.
  unfold applyEffects. revert m.
  induction effs as [|e effs IH]; intros m H; simpl; [done|].
  inversion H; subst. rewrite IH by done. by apply applyEffect_untouched.
Qed.

Lemma applyEffects_app effs1 effs2 m :
  applyEffects (effs1 ++ effs2) m = applyEffects effs2 (applyEffects effs1 m).
Proof. unfold applyEffects. apply foldl_app. Qed.

Lemma applyEffect_is_Some k e m :
  is_Some (m !! k) -> is_Some (applyEffect m e !! k).
Proof.
  intros H. destruct e as [j st|j|j patch|? ?|? ?]; simpl; try done.
  - unfold DroneContext.updateDroneStatus.
    destruct (m !! j) eqn:E; [|done].
    destruct (decide (j = k)) as [->|Hne];
      [by rewrite lookup_insert_eq | by rewrite lookup_insert_ne].
  - unfold DroneContext.completeDroneTask.
    destruct (m !! j) eqn:E; [|done].
    destruct (decide (j = k)) as [->|Hne];
      [by rewrite lookup_insert_eq | by rewrite lookup_insert_ne].
  - unfold DroneContext.updateDroneTelemetry.
    destruct (m !! j) eqn:E; [|done].
    destruct (decide (j = k)) as [->|Hne];
      [by rewrite lookup_insert_eq | by rewrite lookup_insert_ne].
Qed.

Lemma applyEffects_is_Some k effs m :
  is_Some (m !! k) -> is_Some (applyEffects effs m !! k).
Proof.
  unfold applyEffects. revert m.
  induction effs as [|e effs IH]; intros m H; simpl; [done|].
  apply IH. by apply applyEffect_is_Some.
Qed.

Lemma completeDroneTask_fields k m :
  is_Some (m !! k) ->
  missionFields <$> (DroneContext.completeDroneTask k m !! k)
    = Some (idle, None, None).
Proof.
  intros [d Hd]. unfold DroneContext.completeDroneTask. rewrite Hd.
  by rewrite lookup_insert_eq.
Qed.

(** *** Home landing *)

Lemma tickDrone_home_landing now sel controls droneId drone physics route :
  Drone.assignedRoute drone = Some route ->
  armed physics = true -> flightMode physics = LAND ->
  alt physics < 0.5 -> isReturningHome physics = true ->
  exists physics' patch,
    tickDrone now sel controls droneId drone physics
      = (physics', [CompleteDroneTask droneId;
                    UpdateDroneTelemetry droneId patch]) /\
    armed physics' = false /\ flightMode physics' = STABILIZE /\
    isReturningHome physics' = false /\ deliveryWaitTime physics' = 0 /\
    activeWpIndex physics' = (-1)%Z.
Proof.
  intros Hr Ha Hm Halt Hret.
  unfold tickDrone. rewrite Hr. cbv zeta.
  unfold stateMachine. destruct physics; simpl in *; subst.
  cbv zeta. simpl.
  decide_all. simpl. unfold manualControl. simpl. decide_all.
  eexists _, _. split; [reflexivity|]. simpl. done.
Qed.

(** C1: a tick that meets an armed drone with a route in LAND mode, below
    0.5 m and with [isReturningHome] set, performs the terminal reset: the
    physics record ends disarmed, in STABILIZE, with [isReturningHome] false,
    [deliveryWaitTime] 0 and [activeWpIndex] -1, and the fleet record ends
    with status idle, no route and no task. *)
Theorem home_landing_resets_mission now w k d p :
  drones w !! k = Some d -> dronePhysicsRef w !! k = Some p ->
  is_Some (Drone.assignedRoute d) ->
  armed p = true -> flightMode p = LAND -> alt p < 0.5 ->
  isReturningHome p = true ->
  exists p' d',
    dronePhysicsRef (tick now w).1 !! k = Some p' /\
    drones (tick now w).1 !! k = Some d' /\
    armed p' = false /\ flightMode p' = STABILIZE /\
    isReturningHome p' = false /\ deliveryWaitTime p' = 0 /\
    activeWpIndex p' = (-1)%Z /\
    Drone.status d' = idle /\ Drone.assignedRoute d' = None /\
    Drone.assignedTaskId d' = None.
Proof.
  intros Hd Hp [route Hr] Ha Hm Halt Hret.
  destruct (tick_focus now w k d p Hd Hp) as (before & after & F1 & F2 & F3 & F4).
  destruct (tickDrone_home_landing now (selectedDroneId w) (activeControls w)
              k d p route Hr Ha Hm Halt Hret)
    as (p' & patch & Et & G1 & G2 & G3 & G4 & G5).
  rewrite Et in F1, F2. cbn [fst snd] in F1, F2.
  assert (Hfields : missionFields <$> (drones (tick now w).1 !! k)
                    = Some (idle, None, None)).
  { pose proof F2 as F2'. rewrite tick_unfold in F2' |- *.
    cbn [fst snd drones] in F2' |- *. rewrite F2'. rewrite !applyEffects_app.
    rewrite (applyEffects_untouched k after) by done.
    change (applyEffects (CompleteDroneTask k :: [UpdateDroneTelemetry k patch]) ?m)
      with (applyEffects [UpdateDroneTelemetry k patch]
              (DroneContext.completeDroneTask k m)).
    rewrite applyEffects_untouched by (repeat constructor; simpl; tauto).
    apply completeDroneTask_fields. apply applyEffects_is_Some. by exists d. }
  destruct (drones (tick now w).1 !! k) as [d'|] eqn:Ed'; [|discriminate].
  exists p', d'. simpl in Hfields. inversion Hfields.
  repeat split; done.
Qed.

Lemma home_landing_resets_mission_witness :
  exists p' d',
    dronePhysicsRef (tick 1016 homeLandingWorld).1 !! "DRONE-1"%string = Some p' /\
    drones (tick 1016 homeLandingWorld).1 !! "DRONE-1"%string = Some d' /\
    armed p' = false /\ flightMode p' = STABILIZE /\
    isReturningHome p' = false /\ deliveryWaitTime p' = 0 /\
    activeWpIndex p' = (-1)%Z /\
    Drone.status d' = idle /\ Drone.assignedRoute d' = None /\
    Drone.assignedTaskId d' = None.
Proof.
  eapply (home_landing_resets_mission 1016 homeLandingWorld "DRONE-1"
            _ homeLandingPhysics).
  - exact runningFleet_lookup.
  - apply lookup_singleton_eq.
  - simpl. eauto.
  - reflexivity.
  - reflexivity.
  - simpl. lra.
  - reflexivity.
Defined.

(** C4: [assignTaskToDrone] never refuses. For every known drone, whatever
    its status, it sets the status to dispatched and stores the task id and
    the route, every other field of the record being kept; the physics
    records (and so [armed]) are not touched, and the other drones of the
    fleet are unchanged. *)
Theorem assignTaskToDrone_any_status w droneId task route drone :
  drones w !! droneId = Some drone ->
  drones (setDrones (assignTaskToDrone droneId task route) w) !! droneId =
    Some {| Drone.id := Drone.id drone;
            Drone.name := Drone.name drone;
            Drone.status := dispatched;
            Drone.currentLocation := Drone.currentLocation drone;
            Drone.assignedTaskId := Some (MedicineRequest.id task);
            Drone.assignedRoute := Some route;
            Drone.telemetry := Drone.telemetry drone;
            Drone.homeLocation := Drone.homeLocation drone;
            Drone.color := Drone.color drone |} /\
  dronePhysicsRef (setDrones (assignTaskToDrone droneId task route) w)
    = dronePhysicsRef w /\
  (forall other, other <> droneId ->
     drones (setDrones (assignTaskToDrone droneId task route) w) !! other
       = drones w !! other).
Proof.
  intros Hd. simpl. split; [|split].
  - by apply assignTaskToDrone_lookup.
  - reflexivity.
  - intros other Hne. by apply assignTaskToDrone_other.
Qed.

Lemma assignTaskToDrone_any_status_witness :
  drones (setDrones (assignTaskToDrone "DRONE-1" (sampleRequest "REQ-1")
                       sampleRoute) (initialWorld 0)) !! "DRONE-1"%string =
    Some {| Drone.id := "DRONE-1";
            Drone.name := "Drone 1";
            Drone.status := dispatched;
            Drone.currentLocation := CENTRAL_HOSPITAL_LOCATION;
            Drone.assignedTaskId := Some "REQ-1"%string;
            Drone.assignedRoute := Some sampleRoute;
            Drone.telemetry :=
              Drone.telemetry (initialDrone "DRONE-1" "Drone 1" "#10b981");
            Drone.homeLocation := CENTRAL_HOSPITAL_LOCATION;
            Drone.color := "#10b981" |} /\
  dronePhysicsRef (setDrones (assignTaskToDrone "DRONE-1" (sampleRequest "REQ-1")
                                sampleRoute) (initialWorld 0))
    = dronePhysicsRef (initialWorld 0) /\
  (forall other, other <> "DRONE-1"%string ->
     drones (setDrones (assignTaskToDrone "DRONE-1" (sampleRequest "REQ-1")
                          sampleRoute) (initialWorld 0)) !! other
       = drones (initialWorld 0) !! other).
Proof.
  apply (assignTaskToDrone_any_status (initialWorld 0) "DRONE-1"
           (sampleRequest "REQ-1") sampleRoute
           (initialDrone "DRONE-1" "Drone 1" "#10b981")).
  simpl. unfold createInitialDrones. apply lookup_insert_eq.
Defined.

(** A drone that is already dispatched is handed a second task: the
    assignment is not refused and the fleet changes. *)
Lemma assignTaskToDrone_overwrites_dispatched :
  Drone.status <$> (dispatchedFleet !! "DRONE-1"%string) = Some dispatched /\
  assignTaskToDrone "DRONE-1" (sampleRequest "REQ-2") [] dispatchedFleet
    <> dispatchedFleet.
Proof.
  pose proof dispatchedFleet_lookup as Hd.
  split.
  - by rewrite Hd.
  - intros Heq.
    assert (H1 : assignTaskToDrone "DRONE-1" (sampleRequest "REQ-2") []
                   dispatchedFleet !! "DRONE-1"%string
                 = dispatchedFleet !! "DRONE-1"%string) by by rewrite Heq.
    rewrite (assignTaskToDrone_lookup _ _ _ _ _ Hd) in H1. rewrite Hd in H1.
    simpl in H1. discriminate H1.
Qed.

(** C5: the invariant "status idle implies no route and no task" is
    preserved by [assignTaskToDrone], by [completeDroneTask], by
    [updateDroneStatus] to a status other than idle, by [updateDroneRoute]
    on a drone that is not idle, and by every tick. *)
Theorem fleetInvariant_preserved prev :
  fleetInvariant prev ->
  (forall droneId task route,
     fleetInvariant (assignTaskToDrone droneId task route prev)) /\
  (forall droneId, fleetInvariant (completeDroneTask droneId prev)) /\
  (forall droneId status, status <> idle ->
     fleetInvariant (updateDroneStatus droneId status prev)) /\
  (forall droneId route drone,
     prev !! droneId = Some drone -> Drone.status drone <> idle ->
     fleetInvariant (updateDroneRoute droneId route prev)) /\
  (forall now w, drones w = prev -> fleetInvariant (drones (tick now w).1)).
Proof.
  intros H. split; [|split; [|split; [|split]]].
  - intros. by apply fleetInvariant_assign.
  - intros. by apply fleetInvariant_complete.
  - intros. by apply fleetInvariant_status.
  - intros. by eapply fleetInvariant_route.
  - intros now w <-. by apply fleetInvariant_tick.
Qed.

Lemma fleetInvariant_preserved_witness :
  (forall droneId task route,
     fleetInvariant (assignTaskToDrone droneId task route createInitialDrones)) /\
  (forall droneId, fleetInvariant (completeDroneTask droneId createInitialDrones)) /\
  (forall droneId status, status <> idle ->
     fleetInvariant (updateDroneStatus droneId status createInitialDrones)) /\
  (forall droneId route drone,
     createInitialDrones !! droneId = Some drone -> Drone.status drone <> idle ->
     fleetInvariant (updateDroneRoute droneId route createInitialDrones)) /\
  (forall now w, drones w = createInitialDrones ->
     fleetInvariant (drones (tick now w).1)).
Proof.
  apply (fleetInvariant_preserved createInitialDrones).
  unfold createInitialDrones.
  repeat (apply map_Forall_insert_2; [intros _; split; reflexivity|]).
  apply map_Forall_empty.
Defined.

(** Setting a dispatched drone back to idle by [updateDroneStatus] keeps
    its route and task: the invariant is lost. *)
Lemma updateDroneStatus_idle_breaks_invariant :
  fleetInvariant dispatchedFleet /\
  ~ fleetInvariant (updateDroneStatus "DRONE-1" idle dispatchedFleet).
Proof.
  split.
  - unfold dispatchedFleet. apply fleetInvariant_assign, fleetInvariant_initial.
  - intros H.
    pose proof dispatchedFleet_lookup as Hd.
    unfold updateDroneStatus in H. rewrite Hd in H.
    specialize (H "DRONE-1"%string _ (lookup_insert_eq _ _ _)).
    destruct (H eq_refl) as [Hr _]. discriminate Hr.
Qed.

(** *** Fields the integrator and the manual control leave alone *)

Lemma physicsMove_discrete mult dt tgt physics :
  let p' := physicsMove mult dt tgt physics in
  armed p' = armed physics /\ flightMode p' = flightMode physics /\
  activeWpIndex p' = activeWpIndex physics /\
  deliveryWaitTime p' = deliveryWaitTime physics /\
  isReturningHome p' = isReturningHome physics /\
  battery_rem p' = battery_rem physics /\
  lastTick p' = lastTick physics /\
  homeLocation p' = homeLocation physics.
Proof.
  unfold physicsMove.
  destruct (armed physics) eqn:Ea; [|by rewrite Ea].
  cbv zeta. simpl.
  destruct (navigating (flightMode physics)); [|simpl; by rewrite Ea].
  repeat case_decide; simpl;
    try (destruct (destination _ _ _ _)); simpl; by rewrite Ea.
Qed.

Lemma modeOverride_discrete controls physics :
  let p' := (modeOverride controls physics).1 in
  armed p' = armed physics /\
  activeWpIndex p' = activeWpIndex physics /\
  deliveryWaitTime p' = deliveryWaitTime physics /\
  battery_rem p' = battery_rem physics /\
  lastTick p' = lastTick physics /\
  homeLocation p' = homeLocation physics /\
  (flightMode p' = flightMode physics
   /\ isReturningHome p' = isReturningHome physics
   \/ flightMode p' = GUIDED /\ isReturningHome p' = false).
Proof.
  unfold modeOverride. destruct (anyControl controls); [case_decide|];
    simpl; tauto.
Qed.

Lemma throttleYaw_discrete a y controls physics :
  let p' := (throttleYaw a y controls physics).1 in
  armed p' = armed physics /\
  activeWpIndex p' = activeWpIndex physics /\
  deliveryWaitTime p' = deliveryWaitTime physics /\
  battery_rem p' = battery_rem physics /\
  lastTick p' = lastTick physics /\
  homeLocation p' = homeLocation physics /\
  flightMode p' = flightMode physics /\
  isReturningHome p' = isReturningHome physics.
Proof.
  unfold throttleYaw.
  destruct (ctl controls "up"); destruct (ctl controls "down");
  destruct (ctl controls "turnLeft"); destruct (ctl controls "turnRight");
  simpl; tauto.
Qed.

Lemma pitchRoll_discrete m controls physics moved :
  let p' := (pitchRoll m controls physics moved).1 in
  armed p' = armed physics /\
  activeWpIndex p' = activeWpIndex physics /\
  deliveryWaitTime p' = deliveryWaitTime physics /\
  battery_rem p' = battery_rem physics /\
  lastTick p' = lastTick physics /\
  homeLocation p' = homeLocation physics /\
  flightMode p' = flightMode physics /\
  isReturningHome p' = isReturningHome physics.
Proof.
  unfold pitchRoll.
  destruct (ctl controls "forward"); destruct (ctl controls "backward");
  destruct (ctl controls "left"); destruct (ctl controls "right");
  simpl; tauto.
Qed.

Lemma manualControl_discrete mult dt sel controls droneId drone physics :
  let p' := (manualControl mult dt sel controls droneId drone physics).1 in
  armed p' = armed physics /\
  activeWpIndex p' = activeWpIndex physics /\
  deliveryWaitTime p' = deliveryWaitTime physics /\
  battery_rem p' = battery_rem physics /\
  lastTick p' = lastTick physics /\
  homeLocation p' = homeLocation physics /\
  (flightMode p' = flightMode physics
   /\ isReturningHome p' = isReturningHome physics
   \/ flightMode p' = GUIDED /\ isReturningHome p' = false).
Proof.
  unfold manualControl.
  case_decide; [|simpl; tauto].
  cbv zeta.
  pose proof (modeOverride_discrete controls physics) as H0.
  destruct (modeOverride controls physics) as [p0 effs0].
  match goal with |- context [throttleYaw ?a ?y controls p0] =>
    pose proof (throttleYaw_discrete a y controls p0) as H1;
    destruct (throttleYaw a y controls p0) as [p1 moved1] end.
  match goal with |- context [pitchRoll ?m controls p1 moved1] =>
    pose proof (pitchRoll_discrete m controls p1 moved1) as H2;
    destruct (pitchRoll m controls p1 moved1) as [p2 moved2] end.
  simpl in *.
  destruct H0 as (A0 & B0 & C0 & D0 & E0 & F0 & H0).
  destruct H1 as (A1 & B1 & C1 & D1 & E1 & F1 & G1 & I1).
  destruct H2 as (A2 & B2 & C2 & D2 & E2 & F2 & G2 & I2).
  assert (Hgoal : armed p2 = armed physics /\
    activeWpIndex p2 = activeWpIndex physics /\
    deliveryWaitTime p2 = deliveryWaitTime physics /\
    battery_rem p2 = battery_rem physics /\
    lastTick p2 = lastTick physics /\
    homeLocation p2 = homeLocation physics /\
    (flightMode p2 = flightMode physics
     /\ isReturningHome p2 = isReturningHome physics
     \/ flightMode p2 = GUIDED /\ isReturningHome p2 = false)).
  { rewrite A2, A1, A0, B2, B1, B0, C2, C1, C0, D2, D1, D0, E2, E1, E0,
      F2, F1, F0, G2, G1, I2, I1. tauto. }
  destruct moved2; simpl; exact Hgoal.
Qed.

(** *** What the state machine leaves alone *)

Lemma deliveryLanding_frame dt drone physics :
  let p' := (deliveryLanding dt drone physics).1 in
  lat p' = lat physics /\ lng p' = lng physics /\ alt p' = alt physics /\
  heading p' = heading physics /\ vSpeed p' = vSpeed physics /\
  lastTick p' = lastTick physics /\
  homeLocation p' = homeLocation physics /\
  battery_rem p' = battery_rem physics /\
  activeWpIndex p' = activeWpIndex physics.
Proof. unfold deliveryLanding. repeat case_decide; simpl; tauto. Qed.

Lemma autoWaypoint_frame dt drone route tgt0 physics :
  let p' := (autoWaypoint dt drone route tgt0 physics).1.1 in
  lat p' = lat physics /\ lng p' = lng physics /\ alt p' = alt physics /\
  heading p' = heading physics /\ vSpeed p' = vSpeed physics /\
  lastTick p' = lastTick physics /\
  homeLocation p' = homeLocation physics /\
  battery_rem p' = battery_rem physics.
Proof.
  unfold autoWaypoint.
  destruct (JS.index route _); [|simpl; tauto].
  repeat case_decide; simpl; try tauto.
  pose proof (deliveryLanding_frame dt drone physics) as Hd.
  destruct (deliveryLanding dt drone physics). simpl in *. tauto.
Qed.

Lemma stateMachine_frame dt droneId drone route physics :
  let p' := (stateMachine dt droneId drone route physics).1.1 in
  lat p' = lat physics /\ lng p' = lng physics /\ alt p' = alt physics /\
  heading p' = heading physics /\ vSpeed p' = vSpeed physics /\
  lastTick p' = lastTick physics /\
  homeLocation p' = homeLocation physics /\
  battery_rem p' = drained dt physics.
Proof.
  unfold stateMachine, drained.
  destruct (armed physics); [|simpl; tauto].
  cbv zeta.
  case_decide as Hauto.
  - repeat case_decide;
      match goal with
      | |- context [autoWaypoint ?a ?b ?c ?d ?e] =>
          pose proof (autoWaypoint_frame a b c d e) as Ha;
          destruct (autoWaypoint a b c d e) as [[? ?] ?]
      end;
      simpl in *; tauto.
  - repeat case_decide; simpl; try tauto;
      destruct (isReturningHome physics); simpl; tauto.
Qed.

(** *** Battery *)

Lemma tickDrone_battery now sel controls droneId drone physics :
  let p' := (tickDrone now sel controls droneId drone physics).1 in
  battery_rem p' =
    match Drone.assignedRoute drone with
    | Some _ => drained (Rmin ((now - lastTick physics) / 1000) 0.1) physics
    | None => battery_rem physics
    end /\
  lastTick p' =
    match Drone.assignedRoute drone with
    | Some _ => now
    | None => lastTick physics
    end.
Proof.
  destruct (Drone.assignedRoute drone) as [route|] eqn:Hr.
  - destruct (tickDrone_effects now sel controls droneId drone physics route Hr)
      as (dt & p1 & tgt & effs1 & p2 & effs3 & Hdt & E1 & E3 & Et).
    cbv zeta. rewrite Et. simpl.
    pose proof (manualControl_discrete SIM_SPEED_MULT dt sel controls droneId
                  drone (physicsMove SIM_SPEED_MULT dt tgt p1)) as Hm.
    rewrite E3 in Hm. simpl in Hm.
    destruct Hm as (_ & _ & _ & Hb & Hl & _).
    pose proof (physicsMove_discrete SIM_SPEED_MULT dt tgt p1) as Hp.
    simpl in Hp. destruct Hp as (_ & _ & _ & _ & _ & Hb' & Hl' & _).
    pose proof (stateMachine_frame dt droneId drone route
                  (set_lastTick physics now)) as Hs.
    rewrite E1 in Hs. simpl in Hs.
    destruct Hs as (_ & _ & _ & _ & _ & Hl'' & _ & Hb'').
    rewrite Hb, Hb', Hb'', Hl, Hl', Hl'', <- Hdt. done.
  - unfold tickDrone. rewrite Hr. done.
Qed.

Lemma drained_bounds dt physics :
  0 <= dt <= 0.1 ->
  battery_rem physics - 0.005 <= drained dt physics <= battery_rem physics.
Proof.
  intros Hdt. unfold drained. destruct (armed physics); [|lra].
  case_decide; nra.
Qed.

Lemma tickPhysics_battery physics i :
  lastTick physics <= ti_now i ->
  battery_rem physics - 0.005 <= battery_rem (tickPhysics physics i)
    <= battery_rem physics /\
  lastTick (tickPhysics physics i) <= ti_now i.
Proof.
  intros Hclk. unfold tickPhysics.
  destruct (tickDrone_battery (ti_now i) (ti_selected i) (ti_controls i)
              (ti_droneId i) (ti_drone i) physics) as [Hb Hl].
  rewrite Hb, Hl.
  destruct (Drone.assignedRoute (ti_drone i)); [|lra].
  split; [|lra].
  apply drained_bounds.
  unfold Rmin. destruct (Rle_dec _ _); lra.
Qed.

Lemma runPhysics_battery inputs : forall physics t0,
  lastTick physics <= t0 -> clockFrom t0 inputs ->
  battery_rem physics - 0.005 * INR (length inputs)
    <= battery_rem (runPhysics inputs physics) <= battery_rem physics.
Proof.
  induction inputs as [|i rest IH]; intros physics t0 Ht Hclk.
  - simpl. lra.
  - destruct Hclk as [Hi Hrest].
    destruct (tickPhysics_battery physics i) as [Hb Hl]; [lra|].
    specialize (IH (tickPhysics physics i) (ti_now i) Hl Hrest).
    change (runPhysics (i :: rest) physics)
      with (runPhysics rest (tickPhysics physics i)).
    change (length (i :: rest)) with (S (length rest)). rewrite S_INR. lra.
Qed.

(** C6: over any run of ticks whose clock does not go back, a battery
    that starts at 100 or less never rises, stays at 100 or less, and
    loses at most 0.005 per tick; nothing bounds it from below. *)
Theorem battery_never_recharges inputs physics :
  battery_rem physics <= 100 -> clockFrom (lastTick physics) inputs ->
  battery_rem (runPhysics inputs physics) <= battery_rem physics /\
  battery_rem (runPhysics inputs physics) <= 100 /\
  battery_rem physics - 0.005 * INR (length inputs)
    <= battery_rem (runPhysics inputs physics).
Proof.
  intros Hb Hclk.
  pose proof (runPhysics_battery inputs physics (lastTick physics)
                (Rle_refl _) Hclk).
  lra.
Qed.

(** *** A waypoint index past the end of the route *)

Lemma index_out_of_range {A} (l : list A) (i : Z) :
  (Z.of_nat (length l) <= i)%Z -> JS.index l i = None.
Proof.
  intros H. unfold JS.index. case_decide; [|done].
  apply lookup_ge_None. lia.
Qed.

Lemma stateMachine_stale_index dt droneId drone route physics :
  armed physics = true -> flightMode physics = AUTO ->
  (Z.of_nat (length route) <= activeWpIndex physics)%Z ->
  exists p1,
    stateMachine dt droneId drone route physics
      = (p1, mkTarget (lat physics) (lng physics) (alt physics), []) /\
    armed p1 = true /\ flightMode p1 = AUTO /\
    activeWpIndex p1 = activeWpIndex physics /\
    isReturningHome p1 = isReturningHome physics /\
    deliveryWaitTime p1 = deliveryWaitTime physics.
Proof.
  intros Ha Hm Hi. unfold stateMachine. rewrite Ha. cbv zeta.
  case_decide as Hauto.
  - rewrite decide_False by (simpl; lia).
    unfold autoWaypoint. simpl.
    rewrite index_out_of_range by done.
    eexists. split; [reflexivity|]. simpl. done.
  - simpl. rewrite Hm. simpl.
    eexists. split; [reflexivity|]. simpl. done.
Qed.



(** *** Manual override *)

Lemma deliveryLanding_modes dt drone physics :
  armed physics = true -> flightMode physics = AUTO ->
  let p' := (deliveryLanding dt drone physics).1 in
  armed p' = true /\ (flightMode p' = AUTO \/ flightMode p' = RTL).
Proof.
  intros Ha Hm. unfold deliveryLanding. repeat case_decide; simpl; tauto.
Qed.

Lemma stateMachine_auto_modes dt droneId drone route physics :
  armed physics = true -> flightMode physics = AUTO ->
  let p' := (stateMachine dt droneId drone route physics).1.1 in
  armed p' = true /\ (flightMode p' = AUTO \/ flightMode p' = RTL).
Proof.
  intros Ha Hm. unfold stateMachine. rewrite Ha. cbv zeta.
  case_decide as Hauto.
  - assert (Haw : forall p0, armed p0 = true -> flightMode p0 = AUTO ->
              armed (autoWaypoint dt drone route
                       (mkTarget (lat physics) (lng physics) (alt physics))
                       p0).1.1 = true /\
              (flightMode (autoWaypoint dt drone route
                       (mkTarget (lat physics) (lng physics) (alt physics))
                       p0).1.1 = AUTO \/
               flightMode (autoWaypoint dt drone route
                       (mkTarget (lat physics) (lng physics) (alt physics))
                       p0).1.1 = RTL)).
    { intros p0 Ha0 Hm0. unfold autoWaypoint.
      destruct (JS.index route _); [|simpl; tauto].
      pose proof (deliveryLanding_modes dt drone p0 Ha0 Hm0) as Hd.
      repeat case_decide; simpl; try tauto.
      all: destruct (deliveryLanding dt drone p0); simpl in *; tauto. }
    repeat case_decide.
    all: match goal with
      | |- context [autoWaypoint ?a ?b ?c ?t ?p0] =>
          specialize (Haw p0 Ha Hm);
          destruct (autoWaypoint a b c t p0) as [[? ?] ?]
      end; simpl in *; tauto.
  - simpl. rewrite Hm. simpl. tauto.
Qed.

Lemma stateMachine_rtl_far dt droneId drone route physics :
  armed physics = true -> flightMode physics = RTL ->
  ~ getDist (lat physics) (lng physics)
      (Location.lat (homeLocation physics))
      (Location.lng (homeLocation physics)) < 5 ->
  let p' := (stateMachine dt droneId drone route physics).1.1 in
  armed p' = true /\ flightMode p' = RTL.
Proof.
  intros Ha Hm Hfar. unfold stateMachine. rewrite Ha. cbv zeta. simpl.
  rewrite Hm. simpl.
  rewrite decide_False by done. simpl. tauto.
Qed.

Lemma modeOverride_fires controls physics :
  anyControl controls = true ->
  flightMode physics = AUTO \/ flightMode physics = RTL ->
  modeOverride controls physics
    = (set_isReturningHome (set_flightMode physics GUIDED) false,
       [AddLog MANUAL_CONTROL_ACTIVE WARNING]).
Proof.
  intros Hc Hm. unfold modeOverride. rewrite Hc.
  rewrite decide_True; [done|].
  destruct Hm as [-> | ->]; split; auto; discriminate.
Qed.

Lemma manualControl_override mult dt sel controls droneId drone physics :
  armed physics = true -> Some droneId = sel ->
  anyControl controls = true ->
  flightMode physics = AUTO \/ flightMode physics = RTL ->
  let p' := (manualControl mult dt sel controls droneId drone physics).1 in
  flightMode p' = GUIDED /\ isReturningHome p' = false.
Proof.
  intros Ha Hsel Hc Hm. unfold manualControl.
  rewrite decide_True by done. cbv zeta.
  rewrite (modeOverride_fires controls physics Hc Hm).
  match goal with |- context [throttleYaw ?a ?y controls ?p0] =>
    pose proof (throttleYaw_discrete a y controls p0) as H1;
    destruct (throttleYaw a y controls p0) as [p1 moved1] end.
  match goal with |- context [pitchRoll ?m controls p1 moved1] =>
    pose proof (pitchRoll_discrete m controls p1 moved1) as H2;
    destruct (pitchRoll m controls p1 moved1) as [p2 moved2] end.
  simpl in *.
  destruct H1 as (_ & _ & _ & _ & _ & _ & G1 & I1).
  destruct H2 as (_ & _ & _ & _ & _ & _ & G2 & I2).
  assert (flightMode p2 = GUIDED /\ isReturningHome p2 = false)
    by (rewrite G2, G1, I2, I1; done).
  destruct moved2; simpl; done.
Qed.

Lemma tickDrone_manual_override now sel controls droneId drone physics route :
  Drone.assignedRoute drone = Some route ->
  armed physics = true -> Some droneId = sel ->
  anyControl controls = true ->
  (flightMode physics = AUTO
   \/ flightMode physics = RTL
      /\ ~ getDist (lat physics) (lng physics)
             (Location.lat (homeLocation physics))
             (Location.lng (homeLocation physics)) < 5) ->
  let p' := (tickDrone now sel controls droneId drone physics).1 in
  flightMode p' = GUIDED /\ isReturningHome p' = false.
Proof.
  intros Hr Ha Hsel Hc Hm.
  destruct (tickDrone_effects now sel controls droneId drone physics route Hr)
    as (dt & p1 & tgt & effs1 & p2 & effs3 & Hdt & E1 & E3 & Et).
  cbv zeta. rewrite Et. simpl.
  assert (H1 : armed p1 = true /\ (flightMode p1 = AUTO \/ flightMode p1 = RTL)).
  { destruct Hm as [Hm | [Hm Hfar]].
    - pose proof (stateMachine_auto_modes dt droneId drone route
                    (set_lastTick physics now) Ha Hm) as H.
      by rewrite E1 in H.
    - pose proof (stateMachine_rtl_far dt droneId drone route
                    (set_lastTick physics now) Ha Hm Hfar) as H.
      rewrite E1 in H. simpl in H. tauto. }
  pose proof (physicsMove_discrete SIM_SPEED_MULT dt tgt p1) as Hp.
  simpl in Hp. destruct Hp as (Ha3 & Hm3 & _).
  pose proof (manualControl_override SIM_SPEED_MULT dt sel controls droneId drone
                (physicsMove SIM_SPEED_MULT dt tgt p1)) as Hmc.
  rewrite E3 in Hmc. simpl in Hmc. apply Hmc; try done.
  - rewrite Ha3. tauto.
  - rewrite Hm3. tauto.
Qed.

(** *** JavaScript numeric helpers *)

Lemma atan2_0_pos x : 0 < x -> JS.atan2 0 x = 0.
Proof.
  intros Hx. unfold JS.atan2. rewrite decide_True by done.
  replace (0 / x) with 0 by (field; lra). apply atan_0.
Qed.

Lemma atan2_0_0 : JS.atan2 0 0 = 0.
Proof. unfold JS.atan2. decide_all. reflexivity. Qed.

Lemma atan2_0_neg x : x < 0 -> JS.atan2 0 x = PI.
Proof.
  intros Hx. unfold JS.atan2. decide_all.
  replace (0 / x) with 0 by (field; lra). rewrite atan_0. lra.
Qed.

Lemma Int_part_small r : 0 <= r < 1 -> Int_part r = 0%Z.
Proof. intros H. symmetry. apply Int_part_spec. simpl. lra. Qed.

Lemma Int_part_one_more r : 1 <= r < 2 -> Int_part r = 1%Z.
Proof. intros H. symmetry. apply Int_part_spec. simpl. lra. Qed.

Lemma rem_small x m : 0 <= x < m -> JS.rem x m = x.
Proof.
  intros H. unfold JS.rem. rewrite decide_True by lra.
  rewrite Rabs_pos_eq by lra.
  rewrite Int_part_small; [simpl; lra|].
  split.
  - apply Rmult_le_pos; [lra|]. left. apply Rinv_0_lt_compat. lra.
  - apply (Rmult_lt_reg_r m); [lra|]. unfold Rdiv.
    rewrite Rmult_assoc, Rinv_l by lra. lra.
Qed.

Lemma rem_wrap x m : m <= x < 2 * m -> 0 < m -> JS.rem x m = x - m.
Proof.
  intros H Hm. unfold JS.rem. rewrite decide_True by lra.
  rewrite Rabs_pos_eq by lra.
  rewrite Int_part_one_more; [simpl; lra|].
  split.
  - apply (Rmult_le_reg_r m); [lra|]. unfold Rdiv.
    rewrite Rmult_assoc, Rinv_l by lra. lra.
  - apply (Rmult_lt_reg_r m); [lra|]. unfold Rdiv.
    rewrite Rmult_assoc, Rinv_l by lra. lra.
Qed.

Lemma while_gt_180_done fuel a : a <= 180 -> JS.while_gt_180 fuel a = a.
Proof. intros H. destruct fuel; simpl; [done|]. by rewrite decide_False by lra. Qed.

Lemma while_lt_m180_done fuel a : -180 <= a -> JS.while_lt_m180 fuel a = a.
Proof. intros H. destruct fuel; simpl; [done|]. by rewrite decide_False by lra. Qed.

Lemma wrapAngle_in_range a : -180 <= a <= 180 -> wrapAngle a = a.
Proof.
  intros H. unfold wrapAngle.
  rewrite while_gt_180_done by lra. by rewrite while_lt_m180_done by lra.
Qed.

Lemma toRad_0 : toRad 0 = 0.
Proof. unfold toRad. lra. Qed.

Lemma toDeg_0 : toDeg 0 = 0.
Proof. unfold toDeg. unfold Rdiv. lra. Qed.

Lemma toDeg_toRad x : toDeg (toRad x) = x.
Proof. unfold toDeg, toRad. field. apply PI_neq0. Qed.

Lemma toRad_toDeg x : toRad (toDeg x) = x.
Proof. unfold toDeg, toRad. field. apply PI_neq0. Qed.

Lemma getDist_same lat lng : getDist lat lng lat lng = 0.
Proof.
  unfold getDist. cbv zeta.
  replace (lat - lat) with 0 by lra. replace (lng - lng) with 0 by lra.
  rewrite toRad_0. replace (0 / 2) with 0 by lra. rewrite sin_0.
  replace (0 ^ 2 + cos (toRad lat) * cos (toRad lat) * 0 ^ 2) with 0 by lra.
  rewrite sqrt_0. replace (1 - 0) with 1 by lra. rewrite sqrt_1.
  rewrite atan2_0_pos by lra. lra.
Qed.

Lemma getBearing_same lat lng : getBearing lat lng lat lng = 0.
Proof.
  unfold getBearing. cbv zeta.
  replace (lng - lng) with 0 by lra. rewrite toRad_0, sin_0, cos_0.
  replace (0 * cos (toRad lat)) with 0 by lra.
  replace (cos (toRad lat) * sin (toRad lat)
           - sin (toRad lat) * cos (toRad lat) * 1) with 0 by lra.
  rewrite atan2_0_0, toDeg_0.
  rewrite rem_wrap by lra. lra.
Qed.

Lemma anyControl_singleton k : anyControl {[k := true]} = true.
Proof.
  unfold anyControl. apply bool_decide_eq_true.
  apply map_Exists_lookup. exists k, true. split; [|done].
  apply lookup_singleton_eq.
Qed.

Lemma modeOverride_skips controls physics :
  flightMode physics = LAND \/ flightMode physics = LOITER
  \/ flightMode physics = GUIDED ->
  modeOverride controls physics = (physics, []).
Proof.
  intros Hm. unfold modeOverride. destruct (anyControl controls); [|done].
  rewrite decide_False; [done|].
  intros [Hg Hor]. destruct Hm as [Hm|[Hm|Hm]]; rewrite Hm in *;
    intuition discriminate.
Qed.

Lemma manualControl_keeps_mode mult dt sel controls droneId drone physics :
  flightMode physics = LAND \/ flightMode physics = LOITER
  \/ flightMode physics = GUIDED ->
  let p' := (manualControl mult dt sel controls droneId drone physics).1 in
  flightMode p' = flightMode physics /\
  isReturningHome p' = isReturningHome physics.
Proof.
  intros Hm. unfold manualControl.
  case_decide; [|done]. cbv zeta.
  rewrite (modeOverride_skips controls physics Hm).
  match goal with |- context [throttleYaw ?a ?y controls ?p0] =>
    pose proof (throttleYaw_discrete a y controls p0) as H1;
    destruct (throttleYaw a y controls p0) as [p1 moved1] end.
  match goal with |- context [pitchRoll ?m controls p1 moved1] =>
    pose proof (pitchRoll_discrete m controls p1 moved1) as H2;
    destruct (pitchRoll m controls p1 moved1) as [p2 moved2] end.
  simpl in *.
  destruct H1 as (_ & _ & _ & _ & _ & _ & G1 & I1).
  destruct H2 as (_ & _ & _ & _ & _ & _ & G2 & I2).
  assert (flightMode p2 = flightMode physics /\
          isReturningHome p2 = isReturningHome physics)
    by (rewrite G2, G1, I2, I1; done).
  destruct moved2; simpl; done.
Qed.

Lemma stateMachine_rtl_near dt droneId drone route physics :
  armed physics = true -> flightMode physics = RTL ->
  getDist (lat physics) (lng physics)
    (Location.lat (homeLocation physics))
    (Location.lng (homeLocation physics)) < 5 ->
  let p' := (stateMachine dt droneId drone route physics).1.1 in
  flightMode p' = LAND /\ isReturningHome p' = isReturningHome physics.
Proof.
  intros Ha Hm Hnear. unfold stateMachine. rewrite Ha. cbv zeta. simpl.
  rewrite Hm. simpl.
  rewrite decide_True by done. simpl. tauto.
Qed.

(** Arriving home in [RTL] hands over to [LAND] before the manual control
    block runs, so a control held during this tick overrides nothing. *)
Lemma tickDrone_rtl_arrival now sel controls droneId drone physics route :
  Drone.assignedRoute drone = Some route ->
  armed physics = true -> flightMode physics = RTL ->
  getDist (lat physics) (lng physics)
    (Location.lat (homeLocation physics))
    (Location.lng (homeLocation physics)) < 5 ->
  let p' := (tickDrone now sel controls droneId drone physics).1 in
  flightMode p' = LAND /\ isReturningHome p' = isReturningHome physics.
Proof.
  intros Hr Ha Hm Hnear.
  destruct (tickDrone_effects now sel controls droneId drone physics route Hr)
    as (dt & p1 & tgt & effs1 & p2 & effs3 & Hdt & E1 & E3 & Et).
  cbv zeta. rewrite Et. simpl.
  pose proof (stateMachine_rtl_near dt droneId drone route
                (set_lastTick physics now) Ha Hm Hnear) as H1.
  rewrite E1 in H1. simpl in H1. destruct H1 as [Hm1 Hr1].
  pose proof (physicsMove_discrete SIM_SPEED_MULT dt tgt p1) as Hp.
  simpl in Hp. destruct Hp as (_ & Hm3 & _ & _ & Hr3 & _).
  pose proof (manualControl_keeps_mode SIM_SPEED_MULT dt sel controls droneId
                drone (physicsMove SIM_SPEED_MULT dt tgt p1)) as Hmc.
  rewrite E3 in Hmc. simpl in Hmc.
  destruct Hmc as [Hm4 Hr4]; [rewrite Hm3, Hm1; tauto|].
  rewrite Hm4, Hr4, Hm3, Hr3, Hm1, Hr1. done.
Qed.

Lemma handleManualControl_override action w sel physics :
  selectedDroneId w = Some sel -> JS.truthy (Some sel) = true ->
  dronePhysicsRef w !! sel = Some physics ->
  flightMode physics = AUTO \/ flightMode physics = RTL ->
  dronePhysicsRef (handleManualControl action true w).1 !! sel
    = Some (manualOverride physics).
Proof.
  intros Hsel Ht Hp Hm. unfold handleManualControl.
  unfold getSelectedPhysics. cbn [selectedDroneId dronePhysicsRef].
  rewrite Hsel, Ht, Hp.
  rewrite decide_True by done.
  unfold putSelectedPhysics. cbn [selectedDroneId dronePhysicsRef fst].
  apply lookup_insert_eq.
Qed.

(** Two ticks of the drone landing at home. *)
Lemma battery_never_recharges_witness :
  battery_rem (runPhysics [laterTick 1016; laterTick 1032] homeLandingPhysics)
    <= battery_rem homeLandingPhysics /\
  battery_rem (runPhysics [laterTick 1016; laterTick 1032] homeLandingPhysics)
    <= 100 /\
  battery_rem homeLandingPhysics - 0.005 * INR 2
    <= battery_rem (runPhysics [laterTick 1016; laterTick 1032]
                      homeLandingPhysics).
Proof.
  apply (battery_never_recharges [laterTick 1016; laterTick 1032]
           homeLandingPhysics).
  - simpl. lra.
  - simpl. lra.
Defined.

(** A battery at 0.002 is below zero after one armed tick of 0.1 s: the
    drain is not clamped. *)
Lemma battery_drains_below_zero :
  0 <= battery_rem flatBatteryPhysics <= 100 /\
  battery_rem (tickPhysics flatBatteryPhysics (laterTick 1100)) < 0.
Proof.
  split; [simpl; lra|].
  unfold tickPhysics.
  destruct (tickDrone_battery 1100 None ∅ "DRONE-1" runningDrone
              flatBatteryPhysics) as [Hb _].
  simpl in Hb |- *. rewrite Hb. unfold drained. simpl.
  unfold Rmin. destruct (Rle_dec _ _); lra.
Qed.




(** Where the manual override holds: [handleManualControl] with an active
    control switches the selected drone from AUTO or RTL to GUIDED and
    clears [isReturningHome] at once; and a control held during a tick
    does the same for the armed, selected drone with a route that starts
    the tick in AUTO, or in RTL at 5 m or more from home. *)
Theorem manual_input_preempts_automation :
  (forall action w sel physics,
     selectedDroneId w = Some sel -> JS.truthy (Some sel) = true ->
     dronePhysicsRef w !! sel = Some physics ->
     flightMode physics = AUTO \/ flightMode physics = RTL ->
     exists physics',
       dronePhysicsRef (handleManualControl action true w).1 !! sel
         = Some physics' /\
       flightMode physics' = GUIDED /\ isReturningHome physics' = false) /\
  (forall now w k d p,
     drones w !! k = Some d -> dronePhysicsRef w !! k = Some p ->
     is_Some (Drone.assignedRoute d) ->
     armed p = true -> selectedDroneId w = Some k ->
     anyControl (activeControls w) = true ->
     (flightMode p = AUTO
      \/ flightMode p = RTL
         /\ ~ getDist (lat p) (lng p)
                (Location.lat (homeLocation p))
                (Location.lng (homeLocation p)) < 5) ->
     exists p',
       dronePhysicsRef (tick now w).1 !! k = Some p' /\
       flightMode p' = GUIDED /\ isReturningHome p' = false).
Proof.
  split.
  - intros action w sel physics Hsel Ht Hp Hm.
    exists (manualOverride physics). split; [|done].
    by apply handleManualControl_override.
  - intros now w k d p Hd Hp [route Hr] Ha Hsel Hc Hm.
    destruct (tick_focus now w k d p Hd Hp) as (before & after & F1 & _).
    eexists. split; [exact F1|].
    eapply tickDrone_manual_override; eauto.
Qed.

Lemma manual_input_preempts_automation_witness :
  (exists physics',
     dronePhysicsRef (handleManualControl "forward" true rtlArrivalWorld).1
       !! "DRONE-1"%string = Some physics' /\
     flightMode physics' = GUIDED /\ isReturningHome physics' = false) /\
  (exists p',
     dronePhysicsRef (tick 1016 outboundWorld).1 !! "DRONE-1"%string = Some p' /\
     flightMode p' = GUIDED /\ isReturningHome p' = false).
Proof.
  split.
  - apply (proj1 manual_input_preempts_automation "forward"%string
             rtlArrivalWorld "DRONE-1"%string rtlArrivalPhysics).
    + reflexivity.
    + reflexivity.
    + apply lookup_singleton_eq.
    + right. reflexivity.
  - apply (proj2 manual_input_preempts_automation 1016 outboundWorld
             "DRONE-1"%string runningDrone outboundPhysics).
    + exact runningFleet_lookup.
    + apply lookup_singleton_eq.
    + simpl. eauto.
    + reflexivity.
    + reflexivity.
    + apply anyControl_singleton.
    + left. reflexivity.
Defined.

(** C3: a control is held while the selected, armed drone is in RTL within
    5 m of home.  The tick does not switch it to GUIDED: it ends the tick
    in LAND with [isReturningHome] still set.  On the same state
    [handleManualControl] does switch to GUIDED and clears the flag. *)
Lemma held_control_at_rtl_arrival_is_not_overridden :
  armed rtlArrivalPhysics = true /\ flightMode rtlArrivalPhysics = RTL /\
  selectedDroneId rtlArrivalWorld = Some "DRONE-1"%string /\
  activeControls rtlArrivalWorld !! "up"%string = Some true /\
  (exists p',
     dronePhysicsRef (tick 1016 rtlArrivalWorld).1 !! "DRONE-1"%string = Some p' /\
     flightMode p' = LAND /\ isReturningHome p' = true) /\
  (exists q,
     dronePhysicsRef (handleManualControl "up" true rtlArrivalWorld).1
       !! "DRONE-1"%string = Some q /\
     flightMode q = GUIDED /\ isReturningHome q = false).
Proof.
  split; [reflexivity|]. split; [reflexivity|]. split; [reflexivity|].
  split; [apply lookup_singleton_eq|]. split.
  - destruct (tick_focus 1016 rtlArrivalWorld "DRONE-1" runningDrone
                rtlArrivalPhysics) as (before & after & F1 & _).
    + exact runningFleet_lookup.
    + apply lookup_singleton_eq.
    + eexists. split; [exact F1|].
      apply (tickDrone_rtl_arrival 1016 _ _ "DRONE-1" runningDrone
               rtlArrivalPhysics sampleRoute);
        [reflexivity | reflexivity | reflexivity |].
      change (getDist 18.5204 73.8567 18.5204 73.8567 < 5).
      rewrite getDist_same. lra.
  - exists (manualOverride rtlArrivalPhysics). split; [|split; reflexivity].
    apply (handleManualControl_override "up"%string rtlArrivalWorld
             "DRONE-1"%string rtlArrivalPhysics).
    + reflexivity.
    + reflexivity.
    + apply lookup_singleton_eq.
    + right. reflexivity.
Qed.

(** *** Explicit mode changes *)

Lemma setMode_accepted mode w sel drone physics :
  selectedDroneId w = Some sel -> JS.truthy (Some sel) = true ->
  drones w !! sel = Some drone -> dronePhysicsRef w !! sel = Some physics ->
  ~ (mode = AUTO /\ noMission drone = true) ->
  ~ (mode = AUTO /\ armed physics = false) ->
  dronePhysicsRef (setMode mode w).1 !! sel = Some (setModePhysics mode physics).
Proof.
  intros Hsel Ht Hd Hp H1 H2. unfold setMode, getSelectedDrone, getSelectedPhysics.
  rewrite Hsel, Ht, Hd, Hp.
  rewrite decide_False by done. rewrite decide_False by done.
  unfold putSelectedPhysics. rewrite Hsel. cbn [fst dronePhysicsRef].
  apply lookup_insert_eq.
Qed.

Lemma setModePhysics_resets mode physics :
  mode <> RTL ->
  flightMode (setModePhysics mode physics) = mode /\
  isReturningHome (setModePhysics mode physics) = false /\
  deliveryWaitTime (setModePhysics mode physics) = 0.
Proof.
  intros Hm. unfold setModePhysics. simpl. rewrite decide_True by done. done.
Qed.

Lemma stateMachine_manual_modes dt droneId drone route physics :
  flightMode physics <> AUTO -> flightMode physics <> RTL ->
  isReturningHome physics = false ->
  let p' := (stateMachine dt droneId drone route physics).1.1 in
  flightMode p' <> AUTO /\ flightMode p' <> RTL /\ isReturningHome p' = false.
Proof.
  intros H1 H2 H3. unfold stateMachine.
  destruct (armed physics); [|done]. cbv zeta. simpl.
  rewrite decide_False by tauto.
  rewrite decide_False by done.
  case_decide as Hl; [|done].
  case_decide; [|done].
  simpl. rewrite H3. simpl. done.
Qed.

Lemma tickDrone_manual_modes now sel controls droneId drone physics :
  flightMode physics <> AUTO -> flightMode physics <> RTL ->
  isReturningHome physics = false ->
  let p' := (tickDrone now sel controls droneId drone physics).1 in
  flightMode p' <> AUTO /\ flightMode p' <> RTL /\ isReturningHome p' = false.
Proof.
  intros H1 H2 H3.
  destruct (Drone.assignedRoute drone) as [route|] eqn:Hr.
  - destruct (tickDrone_effects now sel controls droneId drone physics route Hr)
      as (dt & p1 & tgt & effs1 & p2 & effs3 & Hdt & E1 & E3 & Et).
    cbv zeta. rewrite Et. simpl.
    pose proof (stateMachine_manual_modes dt droneId drone route
                  (set_lastTick physics now) H1 H2 H3) as Hs.
    rewrite E1 in Hs. simpl in Hs. destruct Hs as (S1 & S2 & S3).
    pose proof (physicsMove_discrete SIM_SPEED_MULT dt tgt p1) as Hp.
    simpl in Hp. destruct Hp as (_ & Hm3 & _ & _ & Hr3 & _).
    pose proof (manualControl_discrete SIM_SPEED_MULT dt sel controls droneId
                  drone (physicsMove SIM_SPEED_MULT dt tgt p1)) as Hmc.
    rewrite E3 in Hmc. simpl in Hmc.
    destruct Hmc as (_ & _ & _ & _ & _ & _ & [[M1 M2]|[M1 M2]]).
    + rewrite M1, M2, Hm3, Hr3. done.
    + rewrite M1, M2. done.
  - unfold tickDrone. rewrite Hr. done.
Qed.

Lemma runPhysics_manual_modes inputs : forall physics,
  flightMode physics <> AUTO -> flightMode physics <> RTL ->
  isReturningHome physics = false ->
  flightMode (runPhysics inputs physics) <> AUTO /\
  flightMode (runPhysics inputs physics) <> RTL /\
  isReturningHome (runPhysics inputs physics) = false.
Proof.
  induction inputs as [|i rest IH]; intros physics H1 H2 H3; [done|].
  change (runPhysics (i :: rest) physics)
    with (runPhysics rest (tickPhysics physics i)).
  destruct (tickDrone_manual_modes (ti_now i) (ti_selected i) (ti_controls i)
              (ti_droneId i) (ti_drone i) physics H1 H2 H3) as (T1 & T2 & T3).
  by apply IH.
Qed.

(** *** The integrator and the simulation speed multiplier *)

Lemma physicsMove_vertical mult dt tgt physics :
  armed physics = true ->
  let v' := vSpeed physics
            + (Rmax (-3) (Rmin 5 (targetAlt tgt - alt physics)) - vSpeed physics)
              * 2 * dt in
  vSpeed (physicsMove mult dt tgt physics) = v' /\
  alt (physicsMove mult dt tgt physics) = alt physics + v' * dt * mult.
Proof.
  intros Ha. unfold physicsMove. rewrite Ha. cbv zeta. simpl.
  destruct (navigating (flightMode physics)); [|done].
  repeat case_decide; simpl; try (destruct (destination _ _ _ _)); done.
Qed.

Lemma physicsMove_horizontal mult dt tgt physics :
  armed physics = true -> navigating (flightMode physics) = true ->
  heading (physicsMove mult dt tgt physics)
    = turnedHeading (30 * dt * mult) tgt physics /\
  (lat (physicsMove mult dt tgt physics), lng (physicsMove mult dt tgt physics))
    = (if decide (15 * dt * mult > 0)
       then destination (lat physics) (lng physics)
              (turnedHeading (30 * dt * mult) tgt physics) (15 * dt * mult)
       else (lat physics, lng physics)).
Proof.
  intros Ha Hn. unfold physicsMove, turnedHeading. rewrite Ha. cbv zeta. simpl.
  rewrite Hn.
  repeat case_decide; try absurd_branch; split; reflexivity.
Qed.

(** Heading and position depend on the multiplier and the elapsed time
    only through their product. *)
Lemma physicsMove_horizontal_scaling m1 dt1 m2 dt2 tgt physics :
  m1 * dt1 = m2 * dt2 ->
  heading (physicsMove m1 dt1 tgt physics)
    = heading (physicsMove m2 dt2 tgt physics) /\
  lat (physicsMove m1 dt1 tgt physics) = lat (physicsMove m2 dt2 tgt physics) /\
  lng (physicsMove m1 dt1 tgt physics) = lng (physicsMove m2 dt2 tgt physics).
Proof.
  intros Hs.
  destruct (armed physics) eqn:Ha; [|by unfold physicsMove; rewrite Ha].
  destruct (navigating (flightMode physics)) eqn:Hn.
  - destruct (physicsMove_horizontal m1 dt1 tgt physics Ha Hn) as [H1 L1].
    destruct (physicsMove_horizontal m2 dt2 tgt physics Ha Hn) as [H2 L2].
    replace (30 * dt2 * m2) with (30 * dt1 * m1) in * by lra.
    replace (15 * dt2 * m2) with (15 * dt1 * m1) in * by lra.
    rewrite <- L2 in L1. inversion L1. rewrite H1, H2. done.
  - unfold physicsMove. rewrite Ha. cbv zeta. simpl. rewrite Hn. done.
Qed.

(** C8: the vertical speed lag does not scale with the speed multiplier.
    From rest on the ground with a target 100 m up, one step with
    multiplier 4 and dt 0.025 and one step with multiplier 1 and dt 0.1
    cover the same scaled time, yet reach altitudes 0.025 and 0.1. *)
Theorem vertical_lag_ignores_speed_multiplier :
  4 * 0.025 = 1 * 0.1 /\
  alt (physicsMove 4 0.025 climbTarget climbPhysics) = 0.025 /\
  alt (physicsMove 1 0.1 climbTarget climbPhysics) = 0.1.
Proof.
  split; [lra|].
  destruct (physicsMove_vertical 4 0.025 climbTarget climbPhysics eq_refl)
    as [_ H1].
  destruct (physicsMove_vertical 1 0.1 climbTarget climbPhysics eq_refl)
    as [_ H2].
  rewrite H1, H2. simpl.
  replace (Rmin 5 (100 - 0)) with 5
    by (unfold Rmin; destruct (Rle_dec _ _); lra).
  replace (Rmax (-3) 5) with 5
    by (unfold Rmax; destruct (Rle_dec _ _); lra).
  lra.
Qed.

(** *** Delivery landing and the completion callback *)

Lemma index_Some_nonneg {A} (l : list A) i x :
  JS.index l i = Some x -> (0 <= i)%Z /\ (0 < length l)%nat.
Proof.
  unfold JS.index. case_decide; [|done]. intros Hl. split; [done|].
  apply lookup_lt_Some in Hl. lia.
Qed.

Lemma stateMachine_delivery dt droneId drone route physics :
  atDeliveryLanding route physics ->
  exists wp,
    JS.index route (activeWpIndex physics) = Some wp /\
    stateMachine dt droneId drone route physics =
      let p0 := set_battery_v
                  (set_battery_rem physics (drained dt physics))
                  (22.0 + (drained dt physics / 100) * 3.2) in
      let r := deliveryLanding dt drone p0 in
      (r.1, mkTarget (MissionItem.lat wp) (MissionItem.lng wp) 0, r.2).
Proof.
  intros (Ha & Hm & wp & Hi & Hc & Hd & Halt & Hlow).
  exists wp. split; [done|].
  destruct (index_Some_nonneg _ _ _ Hi) as [Hnn Hlen].
  unfold stateMachine, drained. rewrite Ha. cbv zeta. simpl.
  rewrite Hm. simpl.
  rewrite decide_True by done.
  rewrite decide_False by lia.
  unfold autoWaypoint. simpl. rewrite Hi.
  rewrite decide_True by done.
  rewrite decide_True by done.
  rewrite decide_True by done.
  match goal with |- context [deliveryLanding dt drone ?p] =>
    destruct (deliveryLanding dt drone p) end.
  done.
Qed.

Lemma deliveryLanding_first dt drone physics taskId :
  isReturningHome physics = false -> deliveryWaitTime physics = 0 ->
  Drone.assignedTaskId drone = Some taskId -> JS.truthy (Some taskId) = true ->
  deliveryLanding dt drone physics
    = (set_deliveryWaitTime physics dt, [UpdateRequestStatus taskId ms_completed]).
Proof.
  intros Hr Hw Ht Htr. unfold deliveryLanding.
  rewrite decide_True by done. by rewrite Ht, Htr.
Qed.

Lemma passive_no_completion taskId effs :
  Forall passive effs ->
  filter (fun e => isCompletion taskId e = true) effs = [].
Proof.
  induction effs as [|e l IH]; [done|]. intros Hf. inversion Hf; subst.
  rewrite filter_cons. destruct e; simpl in *; try done; by rewrite IH.
Qed.

(** The first tick on the ground at the clinic reports the delivery and
    starts the wait with the elapsed time of the tick. *)
Lemma tickDrone_delivery_first now sel controls droneId drone physics route taskId :
  Drone.assignedRoute drone = Some route ->
  atDeliveryLanding route physics ->
  isReturningHome physics = false -> deliveryWaitTime physics = 0 ->
  Drone.assignedTaskId drone = Some taskId -> JS.truthy (Some taskId) = true ->
  let r := tickDrone now sel controls droneId drone physics in
  completions taskId r.2 = 1%nat /\
  deliveryWaitTime r.1 = Rmin ((now - lastTick physics) / 1000) 0.1 /\
  activeWpIndex r.1 = activeWpIndex physics /\
  armed r.1 = true.
Proof.
  intros Hr Hat Hret Hw Ht Htr.
  destruct (tickDrone_effects now sel controls droneId drone physics route Hr)
    as (dt & p1 & tgt & effs1 & p2 & effs3 & Hdt & E1 & E3 & Et).
  assert (Hat' : atDeliveryLanding route (set_lastTick physics now)) by exact Hat.
  destruct (stateMachine_delivery dt droneId drone route _ Hat')
    as (wp & Hi & Es).
  cbv zeta in Es.
  rewrite (deliveryLanding_first dt drone _ taskId) in Es by done.
  rewrite E1 in Es. inversion Es; subst p1 tgt effs1. clear Es.
  cbv zeta. rewrite Et. cbn [fst snd].
  pose proof (manualControl_discrete SIM_SPEED_MULT dt sel controls droneId
                drone (physicsMove SIM_SPEED_MULT dt
                         (mkTarget (MissionItem.lat wp) (MissionItem.lng wp) 0)
                         (set_deliveryWaitTime
                            (set_battery_v
                               (set_battery_rem (set_lastTick physics now)
                                  (drained dt (set_lastTick physics now)))
                               (22.0 + drained dt (set_lastTick physics now)
                                       / 100 * 3.2)) dt))) as Hmc.
  rewrite E3 in Hmc. simpl in Hmc.
  destruct Hmc as (Ha2 & Hi2 & Hw2 & _).
  pose proof (manualControl_passive SIM_SPEED_MULT dt sel controls droneId
                drone (physicsMove SIM_SPEED_MULT dt
                         (mkTarget (MissionItem.lat wp) (MissionItem.lng wp) 0)
                         (set_deliveryWaitTime
                            (set_battery_v
                               (set_battery_rem (set_lastTick physics now)
                                  (drained dt (set_lastTick physics now)))
                               (22.0 + drained dt (set_lastTick physics now)
                                       / 100 * 3.2)) dt))) as Hpass.
  rewrite E3 in Hpass. simpl in Hpass.
  match type of Ha2 with context [physicsMove ?m ?d ?t ?p] =>
    pose proof (physicsMove_discrete m d t p) as Hp end.
  simpl in Hp. destruct Hp as (Ha3 & _ & Hi3 & Hw3 & _).
  destruct Hat as (Ha & _).
  rewrite Ha2, Ha3, Hi2, Hi3, Hw2, Hw3. simpl.
  split; [|rewrite Hdt; done].
  unfold completions. cbn [app].
  rewrite filter_cons, decide_True by (simpl; apply String.eqb_refl).
  rewrite filter_cons, decide_False by (simpl; discriminate).
  by rewrite passive_no_completion.
Qed.

Lemma completions_app taskId effs1 effs2 :
  completions taskId (effs1 ++ effs2)
    = (completions taskId effs1 + completions taskId effs2)%nat.
Proof. unfold completions. by rewrite filter_app, length_app. Qed.

Lemma manualControl_unselected mult dt sel controls droneId drone physics :
  Some droneId <> sel ->
  manualControl mult dt sel controls droneId drone physics = (physics, []).
Proof.
  intros Hsel. unfold manualControl. by rewrite decide_False by tauto.
Qed.

Lemma physicsMove_zero_elapsed mult tgt physics :
  lat (physicsMove mult 0 tgt physics) = lat physics /\
  lng (physicsMove mult 0 tgt physics) = lng physics /\
  alt (physicsMove mult 0 tgt physics) = alt physics.
Proof.
  destruct (armed physics) eqn:Ha; [|by unfold physicsMove; rewrite Ha].
  destruct (physicsMove_vertical mult 0 tgt physics Ha) as [_ Hv].
  cbv zeta in Hv.
  split; [|split]; [| |rewrite Hv; lra].
  - destruct (navigating (flightMode physics)) eqn:Hn.
    + destruct (physicsMove_horizontal mult 0 tgt physics Ha Hn) as [_ Hh].
      rewrite decide_False in Hh by lra. by inversion Hh.
    + unfold physicsMove. rewrite Ha. cbv zeta. simpl. by rewrite Hn.
  - destruct (navigating (flightMode physics)) eqn:Hn.
    + destruct (physicsMove_horizontal mult 0 tgt physics Ha Hn) as [_ Hh].
      rewrite decide_False in Hh by lra. by inversion Hh.
    + unfold physicsMove. rewrite Ha. cbv zeta. simpl. by rewrite Hn.
Qed.

(** A tick that sees no elapsed time on the ground at the clinic reports the
    delivery and leaves the drone as it found it: waiting time still zero. *)
Lemma tickDrone_zero_elapsed sel controls droneId drone physics route taskId :
  Drone.assignedRoute drone = Some route ->
  atDeliveryLanding route physics ->
  isReturningHome physics = false -> deliveryWaitTime physics = 0 ->
  Drone.assignedTaskId drone = Some taskId -> JS.truthy (Some taskId) = true ->
  Some droneId <> sel ->
  let r := tickDrone (lastTick physics) sel controls droneId drone physics in
  completions taskId r.2 = 1%nat /\
  atDeliveryLanding route r.1 /\
  isReturningHome r.1 = false /\ deliveryWaitTime r.1 = 0.
Proof.
  intros Hr Hat Hret Hw Ht Htr Hsel.
  destruct (tickDrone_delivery_first (lastTick physics) sel controls droneId
              drone physics route taskId Hr Hat Hret Hw Ht Htr)
    as (Hc & Hw' & Hi' & Ha').
  assert (Hdt0 : Rmin ((lastTick physics - lastTick physics) / 1000) 0.1 = 0).
  { replace ((lastTick physics - lastTick physics) / 1000) with 0 by lra.
    unfold Rmin. destruct (Rle_dec _ _); lra. }
  rewrite Hdt0 in Hw'.
  destruct (tickDrone_effects (lastTick physics) sel controls droneId drone
              physics route Hr)
    as (dt & p1 & tgt & effs1 & p2 & effs3 & Hdt & E1 & E3 & Et).
  rewrite Hdt0 in Hdt. subst dt.
  rewrite manualControl_unselected in E3 by done.
  inversion E3; subst p2 effs3. clear E3.
  cbv zeta in *. rewrite Et in *. cbn [fst snd] in *.
  split; [done|]. split; [|split; [|done]].
  - destruct Hat as (Ha & Hm & wp & Hidx & Hcmd & Hd & Halt & Hlow).
    pose proof (stateMachine_frame 0 droneId drone route
                  (set_lastTick physics (lastTick physics))) as Hf.
    rewrite E1 in Hf. simpl in Hf.
    destruct Hf as (F1 & F2 & F3 & _).
    destruct (physicsMove_zero_elapsed SIM_SPEED_MULT tgt p1) as (Z1 & Z2 & Z3).
    pose proof (physicsMove_discrete SIM_SPEED_MULT 0 tgt p1) as Hp.
    simpl in Hp. destruct Hp as (_ & Hm3 & _).
    pose proof (stateMachine_auto_modes 0 droneId drone route
                  (set_lastTick physics (lastTick physics)) Ha Hm) as Hmodes.
    rewrite E1 in Hmodes. simpl in Hmodes.
    assert (Hmode1 : flightMode p1 = AUTO).
    { assert (Hat' : atDeliveryLanding route
                       (set_lastTick physics (lastTick physics))).
      { split; [done|]. split; [done|]. by exists wp. }
      destruct (stateMachine_delivery 0 droneId drone route _ Hat')
        as (wp' & _ & Es).
      cbv zeta in Es.
      rewrite (deliveryLanding_first 0 drone _ taskId) in Es by done.
      rewrite E1 in Es. inversion Es. simpl. done. }
    split; [done|]. split; [by rewrite Hm3|].
    exists wp. rewrite Hi', Z1, Z2, Z3, F1, F2, F3. done.
  - pose proof (physicsMove_discrete SIM_SPEED_MULT 0 tgt p1) as Hp.
    simpl in Hp. destruct Hp as (_ & _ & _ & _ & Hr3 & _).
    rewrite Hr3.
    assert (Hat' : atDeliveryLanding route
                     (set_lastTick physics (lastTick physics))) by exact Hat.
    destruct (stateMachine_delivery 0 droneId drone route _ Hat')
      as (wp' & _ & Es).
    cbv zeta in Es.
    rewrite (deliveryLanding_first 0 drone _ taskId) in Es by done.
    rewrite E1 in Es. inversion Es. simpl. done.
Qed.

Lemma deliveryLandingPhysics_landed :
  atDeliveryLanding sampleRoute deliveryLandingPhysics.
Proof.
  split; [reflexivity|]. split; [reflexivity|].
  eexists. split; [reflexivity|]. split; [reflexivity|].
  cbn [MissionItem.lat MissionItem.lng MissionItem.alt PHC_Village_A
       Location.lat Location.lng deliveryLandingPhysics flightPhysics
       lat lng alt].
  rewrite getDist_same. unfold WP_RADIUS.
  split; [lra|]. split; [|lra].
  replace (0.2 - 0) with 0.2 by lra. rewrite Rabs_pos_eq; lra.
Qed.

(** C2: the completion of a delivery is reported twice when the first
    tick at the delivery landing sees no time elapsed: the waiting time it
    stores is 0, which the next tick reads as "not yet reported". *)
Theorem delivery_reported_twice_when_no_time_elapsed :
  lastTick deliveryLandingPhysics = ti_now (laterTick 1000) /\
  completions "REQ-1"
    (runTicks [laterTick 1000; laterTick 1016] deliveryLandingPhysics).2
  = 2%nat.
Proof.
  split; [reflexivity|].
  cbn [runTicks fst snd].
  rewrite !completions_app.
  destruct (tickDrone_zero_elapsed None ∅ "DRONE-1" runningDrone
              deliveryLandingPhysics sampleRoute "REQ-1")
    as (C1 & L1 & R1 & W1); try reflexivity; try discriminate.
  { exact deliveryLandingPhysics_landed. }
  change (lastTick deliveryLandingPhysics) with 1000 in C1, L1, R1, W1.
  cbv zeta in C1, L1, R1, W1.
  destruct (tickDrone_delivery_first 1016 None ∅ "DRONE-1" runningDrone
              (tickDrone 1000 None ∅ "DRONE-1" runningDrone
                 deliveryLandingPhysics).1 sampleRoute "REQ-1")
    as (C2 & _); try reflexivity; try done.
  cbn [laterTick ti_now ti_selected ti_controls ti_droneId ti_drone].
  rewrite C1, C2. reflexivity.
Qed.

(** *** Polar form of [atan2] *)

Lemma sin_cos_unit x : sin x * sin x + cos x * cos x = 1.
Proof. pose proof (sin2_cos2 x) as H. unfold Rsqr in H. exact H. Qed.

Lemma sqrt_sum_scaled x t :
  0 < x -> sqrt (x * x + (x * t) * (x * t)) = x * sqrt (1 + t * t).
Proof.
  intros Hx. replace (x * x + x * t * (x * t)) with ((x * x) * (1 + t * t)) by ring.
  rewrite sqrt_mult; [|nra|nra]. rewrite sqrt_square by lra. reflexivity.
Qed.

Lemma sqrt_one_plus_sq_pos t : 0 < sqrt (1 + t * t).
Proof. apply sqrt_lt_R0. nra. Qed.

(** [sqrt (x² + y²)] times the cosine and sine of [atan2 y x] gives [x] and
    [y] back. *)
Lemma atan2_polar_form x y :
  sqrt (x * x + y * y) * cos (JS.atan2 y x) = x /\
  sqrt (x * x + y * y) * sin (JS.atan2 y x) = y.
Proof.
  unfold JS.atan2.
  destruct (decide (0 < x)) as [Hx|Hx].
  - set (t := y / x). assert (Hy : y = x * t) by (unfold t; field; lra).
    clearbody t. subst y. rewrite sqrt_sum_scaled by done.
    rewrite cos_atan, sin_atan. unfold Rsqr.
    pose proof (sqrt_one_plus_sq_pos t) as Hs.
    split; field; lra.
  - destruct (decide (x < 0)) as [Hx'|Hx'].
    + set (t := y / x). assert (Hy : y = x * t) by (unfold t; field; lra).
      clearbody t. subst y.
      assert (Hsq : sqrt (x * x + x * t * (x * t)) = (- x) * sqrt (1 + t * t)).
      { replace (x * x + x * t * (x * t))
          with ((- x) * (- x) + (- x) * (- t) * ((- x) * (- t))) by ring.
        rewrite sqrt_sum_scaled by lra. f_equal. f_equal. ring. }
      rewrite Hsq.
      pose proof (sqrt_one_plus_sq_pos t) as Hs.
      destruct (decide (0 <= x * t)).
      * rewrite neg_cos, neg_sin, cos_atan, sin_atan. unfold Rsqr.
        split; field; lra.
      * replace (atan t - PI) with (- (- atan t + PI)) by ring.
        rewrite cos_neg, sin_neg, neg_cos, neg_sin, cos_neg, sin_neg.
        rewrite cos_atan, sin_atan. unfold Rsqr.
        split; field; lra.
    + assert (x = 0) by lra. subst x.
      replace (0 * 0 + y * y) with (y * y) by ring.
      destruct (decide (0 < y)) as [Hy|Hy].
      * rewrite sqrt_square by lra. rewrite cos_PI2, sin_PI2. lra.
      * destruct (decide (y < 0)) as [Hy'|Hy'].
        -- replace (y * y) with ((- y) * (- y)) by ring.
           rewrite sqrt_square by lra.
           rewrite cos_neg, sin_neg, cos_PI2, sin_PI2. lra.
        -- assert (y = 0) by lra. subst y.
           replace (0 * 0) with 0 by ring. rewrite sqrt_0. lra.
Qed.

Lemma tan_shift_PI x : cos x <> 0 -> tan (x - PI) = tan x.
Proof.
  intros Hc. unfold tan.
  replace (x - PI) with (- (- x + PI)) by ring.
  rewrite sin_neg, cos_neg, neg_sin, neg_cos, sin_neg, cos_neg.
  field. lra.
Qed.

Lemma tan_shift_PI' x : cos x <> 0 -> tan (x + PI) = tan x.
Proof.
  intros Hc. unfold tan. rewrite neg_sin, neg_cos. field. lra.
Qed.

(** [atan2] recovers the angle of a point given in polar form. *)
Lemma atan2_polar r a :
  0 < r -> - PI < a <= PI -> JS.atan2 (r * sin a) (r * cos a) = a.
Proof.
  intros Hr Ha. pose proof PI_RGT_0 as Hpi.
  assert (Hq : forall c, c <> 0 -> r * sin a / (r * c) = sin a / c)
    by (intros; field; lra).
  unfold JS.atan2.
  destruct (Rtotal_order a (PI / 2)) as [Hlt|[Heq|Hgt]].
  - destruct (Rtotal_order a (- (PI / 2))) as [Hlt'|[Heq'|Hgt']].
    + (* -PI < a < -PI/2 *)
      assert (Hc : cos a < 0).
      { rewrite <- cos_neg. apply cos_lt_0; lra. }
      assert (Hs : sin a < 0) by (apply sin_lt_0_var; lra).
      rewrite decide_False by nra. rewrite decide_True by nra.
      rewrite decide_False by nra.
      rewrite Hq by lra. fold (tan a).
      rewrite <- tan_shift_PI' by lra. rewrite atan_tan by lra. ring.
    + subst a. rewrite cos_neg, sin_neg, cos_PI2, sin_PI2.
      rewrite decide_False by lra. rewrite decide_False by lra.
      rewrite decide_False by lra. rewrite decide_True by lra. reflexivity.
    + assert (Hc : 0 < cos a) by (apply cos_gt_0; lra).
      rewrite decide_True by nra. rewrite Hq by lra. fold (tan a).
      apply atan_tan. lra.
  - subst a. rewrite cos_PI2, sin_PI2.
    rewrite decide_False by lra. rewrite decide_False by lra.
    rewrite decide_True by lra. reflexivity.
  - assert (Hc : cos a < 0) by (apply cos_lt_0; lra).
    assert (Hs : 0 <= sin a) by (apply sin_ge_0; lra).
    rewrite decide_False by nra. rewrite decide_True by nra.
    rewrite decide_True by nra.
    rewrite Hq by lra. fold (tan a).
    rewrite <- tan_shift_PI by lra. rewrite atan_tan by lra. ring.
Qed.

(** *** The forward projection on the sphere

    [p1] is the latitude of the origin, [th] the bearing and [dl] the
    angular distance, all in radians. *)

Section Sphere.

Variables p1 th dl : R.

(** The sine of the latitude reached. *)
Let s : R := sin p1 * cos dl + cos p1 * sin dl * cos th.
Let X : R := cos dl - sin p1 * s.
Let Y : R := sin th * sin dl * cos p1.

Lemma reached_sine_square :
  1 - s * s =
  (sin dl * sin th) * (sin dl * sin th)
  + (sin p1 * sin dl * cos th - cos p1 * cos dl)
    * (sin p1 * sin dl * cos th - cos p1 * cos dl).
Proof.
  pose proof (sin_cos_unit p1) as A.
  pose proof (sin_cos_unit dl) as C.
  pose proof (sin_cos_unit th) as K.
  unfold s.
  apply Rminus_diag_uniq.
  match goal with |- ?l - ?r = 0 =>
    replace (l - r) with
      (- (sin dl * sin dl + cos dl * cos dl - 1)
       - sin dl * sin dl * (sin th * sin th + cos th * cos th - 1)
       - (sin p1 * sin p1 + cos p1 * cos p1 - 1)
         * (cos dl * cos dl + sin dl * sin dl * cos th * cos th)) by ring
  end.
  rewrite A, C, K. ring.
Qed.

Lemma reached_sine_bound : -1 <= s <= 1.
Proof.
  pose proof reached_sine_square as H.
  pose proof (Rle_0_sqr (sin dl * sin th)) as H1.
  pose proof (Rle_0_sqr (sin p1 * sin dl * cos th - cos p1 * cos dl)) as H2.
  unfold Rsqr in H1, H2.
  assert (H3 : s * s <= 1) by lra.
  clear H H1 H2. split; nra.
Qed.

Lemma projection_norm : X * X + Y * Y = (cos p1 * cos p1) * (1 - s * s).
Proof.
  pose proof (sin_cos_unit p1) as A.
  pose proof (sin_cos_unit dl) as C.
  pose proof (sin_cos_unit th) as K.
  unfold X, Y.
  apply Rminus_diag_uniq.
  match goal with |- ?l - ?r = 0 =>
    replace (l - r) with
      (cos p1 * cos p1 * (sin dl * sin dl + cos dl * cos dl - 1)
       + (sin p1 * sin p1 + cos p1 * cos p1 - 1) * (s * s - cos dl * cos dl)
       + cos p1 * cos p1 * sin dl * sin dl
         * (sin th * sin th + cos th * cos th - 1))
      by (unfold s; ring)
  end.
  rewrite A, C, K. ring.
Qed.

Hypothesis Hlat : 0 <= cos p1.

Lemma reached_cosine : cos (asin s) = sqrt (1 - s * s).
Proof. rewrite cos_asin by apply reached_sine_bound. reflexivity. Qed.

Lemma reached_cosine_nonneg : 0 <= cos (asin s).
Proof. rewrite reached_cosine. apply sqrt_pos. Qed.

Lemma projection_radius : sqrt (X * X + Y * Y) = cos p1 * cos (asin s).
Proof.
  rewrite projection_norm, reached_cosine.
  pose proof reached_sine_bound.
  rewrite sqrt_mult; [|nra|nra]. by rewrite sqrt_square.
Qed.

Lemma projection_cos :
  cos p1 * cos (asin s) * cos (JS.atan2 Y X) = X.
Proof.
  rewrite <- projection_radius. apply (atan2_polar_form X Y).
Qed.

Lemma projection_sin :
  cos p1 * cos (asin s) * sin (JS.atan2 Y X) = Y.
Proof.
  rewrite <- projection_radius. apply (atan2_polar_form X Y).
Qed.

Lemma half_angle_square u : sin (u / 2) ^ 2 = (1 - cos u) / 2.
Proof.
  pose proof (cos_2a_sin (u / 2)) as H.
  replace (2 * (u / 2)) with u in H by field. simpl. lra.
Qed.

(** The haversine term of the distance back to the origin. *)
Lemma haversine_of_projection :
  sin ((asin s - p1) / 2) ^ 2
  + cos p1 * cos (asin s) * sin (JS.atan2 Y X / 2) ^ 2
  = sin (dl / 2) ^ 2.
Proof.
  rewrite !half_angle_square. rewrite cos_minus.
  rewrite sin_asin by apply reached_sine_bound.
  pose proof projection_cos as Hc. unfold X in Hc.
  fold X in Hc |- *.
  replace (cos p1 * cos (asin s) * ((1 - cos (JS.atan2 Y X)) / 2))
    with ((cos p1 * cos (asin s)
           - cos p1 * cos (asin s) * cos (JS.atan2 Y X)) / 2) by field.
  rewrite Hc. unfold X. field.
Qed.

(** The two arguments of [atan2] in the bearing back from the origin. *)
Lemma bearing_of_projection :
  0 < cos p1 ->
  sin (JS.atan2 Y X) * cos (asin s) = sin dl * sin th /\
  cos p1 * sin (asin s) - sin p1 * cos (asin s) * cos (JS.atan2 Y X)
    = sin dl * cos th.
Proof.
  intros Hpos.
  pose proof projection_cos as Hc. pose proof projection_sin as Hs.
  pose proof (sin_cos_unit p1) as A.
  rewrite sin_asin by apply reached_sine_bound.
  split.
  - apply (Rmult_eq_reg_l (cos p1)); [|lra].
    replace (cos p1 * (sin (JS.atan2 Y X) * cos (asin s)))
      with (cos p1 * cos (asin s) * sin (JS.atan2 Y X)) by ring.
    rewrite Hs. unfold Y. ring.
  - apply (Rmult_eq_reg_l (cos p1)); [|lra].
    replace (cos p1 * (cos p1 * s - sin p1 * cos (asin s) * cos (JS.atan2 Y X)))
      with (cos p1 * cos p1 * s
            - sin p1 * (cos p1 * cos (asin s) * cos (JS.atan2 Y X))) by ring.
    rewrite Hc. unfold X, s.
    replace (cos p1 * cos p1) with (1 - sin p1 * sin p1) by lra. ring.
Qed.

End Sphere.

(** *** Round trip of the geodesy helpers *)

Lemma toRad_minus x y : toRad (x - y) = toRad x - toRad y.
Proof. unfold toRad. field. Qed.

Lemma toRad_le x y : x <= y -> toRad x <= toRad y.
Proof. intros H. pose proof PI_RGT_0. unfold toRad. nra. Qed.

Lemma toRad_lt x y : x < y -> toRad x < toRad y.
Proof. intros H. pose proof PI_RGT_0. unfold toRad. nra. Qed.

Lemma toRad_180 : toRad 180 = PI.
Proof. unfold toRad. field. Qed.

Lemma toRad_360 : toRad 360 = 2 * PI.
Proof. unfold toRad. field. Qed.

Lemma PI_gt_3 : 3 < PI.
Proof. pose proof PI2_3_2. lra. Qed.

Lemma cos_toRad_nonneg lat : -90 <= lat <= 90 -> 0 <= cos (toRad lat).
Proof.
  intros H. pose proof PI_RGT_0. apply cos_ge_0; unfold toRad; nra.
Qed.

Lemma cos_toRad_pos lat : -90 < lat < 90 -> 0 < cos (toRad lat).
Proof.
  intros H. pose proof PI_RGT_0. apply cos_gt_0; unfold toRad; nra.
Qed.

(** The point reached, with the latitude and the longitude shift written
    with the sine of the latitude reached. *)
Lemma destination_reached lat lng b d :
  let p1 := toRad lat in
  let th := toRad b in
  let dl := d / 6371e3 in
  let s := sin p1 * cos dl + cos p1 * sin dl * cos th in
  destination lat lng b d =
    (toDeg (asin s),
     toDeg (toRad lng
            + JS.atan2 (sin th * sin dl * cos p1) (cos dl - sin p1 * s))).
Proof.
  cbv zeta. unfold destination. cbv zeta.
  rewrite sin_asin by apply reached_sine_bound. reflexivity.
Qed.

Lemma getDist_destination lat lng b d :
  -90 <= lat <= 90 -> 0 <= d <= PI * 6371e3 ->
  getDist lat lng (destination lat lng b d).1 (destination lat lng b d).2 = d.
Proof.
  intros Hlat Hd. pose proof PI_RGT_0 as Hpi.
  rewrite destination_reached. cbv zeta. cbn [fst snd].
  unfold getDist. cbv zeta.
  rewrite toRad_toDeg, !toRad_minus, !toRad_toDeg.
  match goal with |- context [sin (?u / 2) ^ 2 + _ * _ * sin (?v / 2) ^ 2] =>
    replace v with (JS.atan2 (sin (toRad b) * sin (d / 6371e3) * cos (toRad lat))
                      (cos (d / 6371e3)
                       - sin (toRad lat)
                         * (sin (toRad lat) * cos (d / 6371e3)
                            + cos (toRad lat) * sin (d / 6371e3) * cos (toRad b))))
      by ring
  end.
  rewrite (haversine_of_projection (toRad lat) (toRad b) (d / 6371e3)
             (cos_toRad_nonneg lat Hlat)).
  set (h := d / 6371e3 / 2).
  assert (Hh : 0 <= h <= PI / 2).
  { unfold h. split.
    - apply Rmult_le_pos; [|lra]. apply Rmult_le_pos; [lra|].
      left. apply Rinv_0_lt_compat. lra.
    - apply (Rmult_le_reg_r (2 * 6371e3)); [lra|]. unfold Rdiv. 
      replace (d * / 6371e3 * / 2 * (2 * 6371e3)) with d by (field; lra).
      lra. }
  assert (Hs : 0 <= sin h) by (apply sin_ge_0; lra).
  assert (Hc : 0 <= cos h) by (apply cos_ge_0; lra).
  replace (sin h ^ 2) with (sin h * sin h) by ring.
  rewrite sqrt_square by done.
  replace (1 - sin h * sin h) with (cos h * cos h)
    by (pose proof (sin_cos_unit h); lra).
  rewrite sqrt_square by done.
  replace (sin h) with (1 * sin h) by ring.
  replace (cos h) with (1 * cos h) by ring.
  rewrite atan2_polar by lra.
  unfold h. field.
Qed.

Lemma getBearing_destination lat lng b d :
  -90 < lat < 90 -> 0 <= b < 360 -> 0 < d < PI * 6371e3 ->
  getBearing lat lng (destination lat lng b d).1 (destination lat lng b d).2 = b.
Proof.
  intros Hlat Hb Hd. pose proof PI_RGT_0 as Hpi.
  rewrite destination_reached. cbv zeta. cbn [fst snd].
  unfold getBearing. cbv zeta.
  rewrite toRad_toDeg, !toRad_minus, !toRad_toDeg.
  match goal with |- context [sin ?v * cos (asin _)] =>
    replace v with (JS.atan2 (sin (toRad b) * sin (d / 6371e3) * cos (toRad lat))
                      (cos (d / 6371e3)
                       - sin (toRad lat)
                         * (sin (toRad lat) * cos (d / 6371e3)
                            + cos (toRad lat) * sin (d / 6371e3) * cos (toRad b))))
      by ring
  end.
  assert (Hlat' : -90 <= lat <= 90) by lra.
  destruct (bearing_of_projection (toRad lat) (toRad b) (d / 6371e3)
              (cos_toRad_nonneg lat Hlat') (cos_toRad_pos lat Hlat)) as [Hy Hx].
  rewrite Hy, Hx.
  assert (Hdl : 0 < d / 6371e3 < PI).
  { split.
    - apply Rmult_lt_0_compat; [lra|]. apply Rinv_0_lt_compat. lra.
    - apply (Rmult_lt_reg_r 6371e3); [lra|]. unfold Rdiv.
      rewrite Rmult_assoc, Rinv_l by lra. lra. }
  assert (Hsin : 0 < sin (d / 6371e3)) by (apply sin_gt_0; lra).
  pose proof (toRad_le 0 b (proj1 Hb)) as Hb0. rewrite toRad_0 in Hb0.
  pose proof (toRad_lt b 360 (proj2 Hb)) as Hb1. rewrite toRad_360 in Hb1.
  destruct (Rle_dec b 180) as [Hle|Hgt].
  - pose proof (toRad_le b 180 Hle) as Hb2. rewrite toRad_180 in Hb2.
    rewrite atan2_polar by lra.
    rewrite toDeg_toRad. rewrite rem_wrap by lra. lra.
  - assert (Hgt' : 180 < b) by lra.
    pose proof (toRad_lt 180 b Hgt') as Hb2. rewrite toRad_180 in Hb2.
    assert (Hshift : sin (toRad b) = sin (toRad b - 2 * PI)
                     /\ cos (toRad b) = cos (toRad b - 2 * PI)).
    { rewrite sin_minus, cos_minus, sin_2PI, cos_2PI. split; ring. }
    destruct Hshift as [Hs1 Hc1]. rewrite Hs1, Hc1.
    rewrite atan2_polar by lra.
    replace (toDeg (toRad b - 2 * PI)) with (b - 360)
      by (unfold toDeg, toRad; field; lra).
    rewrite rem_small by lra. lra.
Qed.

(** Over the real numbers the forward projection is inverted exactly by the
    two helpers: for an origin with latitude strictly between -90 and 90,
    a bearing b in [0, 360) and a distance d with 0 < d <= 50 km, the
    bearing from the origin to the projected point is b and the distance
    is d.  Rounding is not part of this statement. *)
Theorem geodesy_round_trip lat lng b d :
  -90 < lat < 90 -> 0 <= b < 360 -> 0 < d <= 50000 ->
  getBearing lat lng (destination lat lng b d).1 (destination lat lng b d).2 = b
  /\ getDist lat lng (destination lat lng b d).1 (destination lat lng b d).2 = d.
Proof.
  intros Hlat Hb Hd. pose proof PI_gt_3 as Hpi.
  split.
  - apply getBearing_destination; try done. nra.
  - apply getDist_destination; [lra|nra].
Qed.

Lemma geodesy_round_trip_witness :
  getBearing 18.5204 73.8567 (destination 18.5204 73.8567 45 6).1
    (destination 18.5204 73.8567 45 6).2 = 45
  /\ getDist 18.5204 73.8567 (destination 18.5204 73.8567 45 6).1
       (destination 18.5204 73.8567 45 6).2 = 6.
Proof.
  apply (geodesy_round_trip 18.5204 73.8567 45 6); lra.
Defined.

Lemma destination_zero_distance : destination 0 0 90 0 = (0, 0).
Proof.
  rewrite destination_reached. cbv zeta.
  replace (0 / 6371e3) with 0 by (field; lra).
  rewrite toRad_0, sin_0, cos_0.
  replace (0 * 1 + 1 * 0 * cos (toRad 90)) with 0 by ring.
  rewrite asin_0, toDeg_0.
  replace (sin (toRad 90) * 0 * 1) with 0 by ring.
  replace (1 - 0 * 0) with 1 by ring.
  rewrite atan2_0_pos by lra.
  replace (0 + 0) with 0 by ring. by rewrite toDeg_0.
Qed.

(** At distance 0 the projected point is the origin and the bearing read
    back is 0, whatever bearing was asked for. *)
Lemma bearing_lost_at_zero_distance :
  getBearing 0 0 (destination 0 0 90 0).1 (destination 0 0 90 0).2 <> 90.
Proof.
  rewrite destination_zero_distance. cbn [fst snd].
  rewrite getBearing_same. lra.
Qed.

(** *** Ticks by the pole *)

Lemma halfStep_small : 0 < halfStep < 1.
Proof.
  unfold halfStep. split.
  - apply Rmult_lt_0_compat; [lra|]. apply Rinv_0_lt_compat. lra.
  - apply (Rmult_lt_reg_r 6371e3); [lra|]. unfold Rdiv.
    rewrite Rmult_assoc, Rinv_l by lra. lra.
Qed.

Lemma toRad_90 : toRad 90 = PI / 2.
Proof. unfold toRad. field. Qed.

Lemma toRad_poleLat : toRad poleLat = PI / 2 - halfStep.
Proof. unfold poleLat. by rewrite toRad_minus, toRad_90, toRad_toDeg. Qed.

Lemma sin_halfStep_pos : 0 < sin halfStep.
Proof.
  pose proof halfStep_small. pose proof PI_gt_3. apply sin_gt_0; lra.
Qed.

Lemma getDist_pole lng : getDist poleLat lng 90 0 = 3.
Proof.
  pose proof halfStep_small as Hh. pose proof PI_gt_3 as Hpi.
  unfold getDist. cbv zeta.
  rewrite toRad_poleLat, toRad_90, cos_PI2.
  replace (toRad (90 - poleLat)) with halfStep
    by (rewrite toRad_minus, toRad_90, toRad_poleLat; ring).
  match goal with |- context [sqrt ?a] =>
    replace a with (sin (halfStep / 2) * sin (halfStep / 2)) by ring end.
  assert (Hs : 0 <= sin (halfStep / 2)) by (apply sin_ge_0; lra).
  assert (Hc : 0 <= cos (halfStep / 2)) by (apply cos_ge_0; lra).
  rewrite sqrt_square by done.
  replace (1 - sin (halfStep / 2) * sin (halfStep / 2))
    with (cos (halfStep / 2) * cos (halfStep / 2))
    by (pose proof (sin_cos_unit (halfStep / 2)); lra).
  rewrite sqrt_square by done.
  replace (sin (halfStep / 2)) with (1 * sin (halfStep / 2)) by ring.
  replace (cos (halfStep / 2)) with (1 * cos (halfStep / 2)) by ring.
  rewrite atan2_polar by lra.
  unfold halfStep. field.
Qed.

Lemma getBearing_pole lng : getBearing poleLat lng 90 0 = 0.
Proof.
  unfold getBearing. cbv zeta.
  rewrite toRad_poleLat, toRad_90, cos_PI2, sin_PI2, cos_shift.
  match goal with |- context [JS.atan2 ?y ?x] =>
    replace y with 0 by ring; replace x with (sin halfStep) by ring end.
  rewrite atan2_0_pos by apply sin_halfStep_pos.
  rewrite toDeg_0, rem_wrap by lra. lra.
Qed.

Lemma destination_pole lng :
  destination poleLat lng 0 6 = (poleLat, lng + 180).
Proof.
  pose proof halfStep_small as Hh. pose proof PI_gt_3 as Hpi.
  rewrite destination_reached. cbv zeta.
  rewrite toRad_poleLat, toRad_0, sin_0, cos_0, sin_shift, cos_shift.
  replace (6 / 6371e3) with (2 * halfStep) by (unfold halfStep; field).
  assert (Hs : cos halfStep * cos (2 * halfStep)
               + sin halfStep * sin (2 * halfStep) * 1 = cos halfStep).
  { replace (cos halfStep * cos (2 * halfStep)
             + sin halfStep * sin (2 * halfStep) * 1)
      with (cos (2 * halfStep - halfStep)) by (rewrite cos_minus; ring).
    f_equal. ring. }
  rewrite Hs.
  rewrite <- (sin_shift halfStep) at 1. rewrite asin_sin by lra.
  f_equal.
  - unfold poleLat. rewrite <- toRad_90 at 1.
    unfold toDeg, toRad. field. lra.
  - match goal with |- context [JS.atan2 ?y ?x] =>
      replace y with 0 by ring;
      replace x with (- (sin halfStep * sin halfStep)) end.
    + pose proof sin_halfStep_pos.
      rewrite atan2_0_neg by nra.
      unfold toDeg, toRad. field. lra.
    + rewrite cos_2a_sin. pose proof (sin_cos_unit halfStep). nra.
Qed.

Lemma anyControl_empty : anyControl ∅ = false.
Proof.
  unfold anyControl. apply bool_decide_eq_false.
  apply map_not_Exists, map_Forall_empty.
Qed.

Lemma ctl_empty k : ctl ∅ k = false.
Proof. unfold ctl. by rewrite lookup_empty. Qed.

(** With no control held the manual block only eases pitch and roll. *)
Lemma manualControl_no_controls mult dt sel droneId drone physics :
  manualControl mult dt sel ∅ droneId drone physics
    = (if decide (armed physics = true /\ Some droneId = sel)
       then set_roll (set_pitch physics (pitch physics * 0.6))
              (roll physics * 0.6)
       else physics, []).
Proof.
  unfold manualControl. case_decide; [|done]. cbv zeta.
  unfold modeOverride, throttleYaw, pitchRoll.
  rewrite anyControl_empty, !ctl_empty. simpl. done.
Qed.

Lemma poleOrbit_landed physics :
  poleOrbit physics -> atDeliveryLanding poleRoute physics.
Proof.
  intros (Hlat & Halt & Hv & Hh & Ha & Hm & Hi & Hr).
  split; [done|]. split; [done|].
  exists (MissionItem.mk 1 NAV_LAND None None None None 90 0 0).
  rewrite Hi, Hlat, Halt. cbn [MissionItem.lat MissionItem.lng MissionItem.alt
                               MissionItem.command].
  split; [reflexivity|]. split; [reflexivity|].
  rewrite getDist_pole. unfold WP_RADIUS.
  replace (0 - 0) with 0 by ring. rewrite Rabs_R0. lra.
Qed.

Lemma Rmin_tenth t0 : Rmin ((t0 + 100 - t0) / 1000) 0.1 = 0.1.
Proof. unfold Rmin. destruct (Rle_dec _ _); lra. Qed.

(** The integrator step by the pole: over the pole and 180 degrees of
    longitude further, everything else as before. *)
Lemma physicsMove_pole physics :
  lat physics = poleLat -> alt physics = 0 -> vSpeed physics = 0 ->
  heading physics = 0 -> armed physics = true -> flightMode physics = AUTO ->
  let p' := physicsMove SIM_SPEED_MULT 0.1 (mkTarget 90 0 0) physics in
  lat p' = poleLat /\ lng p' = lng physics + 180 /\ alt p' = 0 /\
  vSpeed p' = 0 /\ heading p' = 0.
Proof.
  intros Hlat Halt Hv Hh Ha Hm.
  assert (Hn : navigating (flightMode physics) = true) by by rewrite Hm.
  destruct (physicsMove_vertical SIM_SPEED_MULT 0.1 (mkTarget 90 0 0) physics Ha)
    as [V1 V2].
  destruct (physicsMove_horizontal SIM_SPEED_MULT 0.1 (mkTarget 90 0 0) physics
              Ha Hn) as [H1 H2].
  cbv zeta in V1, V2. cbn [targetAlt targetLat targetLng] in *.
  rewrite Halt, Hv in V1, V2.
  assert (Hclamp : Rmax (-3) (Rmin 5 (0 - 0)) = 0).
  { unfold Rmin, Rmax. repeat destruct (Rle_dec _ _); lra. }
  rewrite Hclamp in V1, V2.
  assert (Hturn : turnedHeading (30 * 0.1 * SIM_SPEED_MULT) (mkTarget 90 0 0)
                    physics = 0).
  { unfold turnedHeading. cbv zeta. cbn [targetAlt targetLat targetLng].
    rewrite Hlat, Hh, getBearing_pole.
    rewrite wrapAngle_in_range by lra.
    rewrite decide_False; [done|].
    replace (0 - 0) with 0 by ring. rewrite Rabs_R0. lra. }
  rewrite Hturn in H1, H2.
  rewrite decide_True in H2 by (unfold SIM_SPEED_MULT; lra).
  replace (15 * 0.1 * SIM_SPEED_MULT) with 6 in H2 by (unfold SIM_SPEED_MULT; lra).
  rewrite Hlat, destination_pole in H2. inversion H2 as [[L1 L2]].
  cbv zeta. rewrite L1, L2, V1, V2, H1.
  repeat split; try done; lra.
Qed.

Lemma poleTicks_cons t0 n :
  poleTicks t0 (S n) = poleInput (t0 + 100) :: poleTicks (t0 + 100) n.
Proof. reflexivity. Qed.

(** One tick by the pole, 100 ms after the last one. *)
Lemma pole_tick physics :
  poleOrbit physics ->
  let p' := tickPhysics physics (poleInput (lastTick physics + 100)) in
  lastTick p' = lastTick physics + 100 /\
  (deliveryWaitTime physics = 0 ->
   poleOrbit p' /\ deliveryWaitTime p' = 0.1) /\
  (deliveryWaitTime physics <> 0 -> deliveryWaitTime physics < 3 ->
   poleOrbit p' /\ deliveryWaitTime p' = deliveryWaitTime physics + 0.1) /\
  (deliveryWaitTime physics >= 3 ->
   flightMode p' = RTL /\ isReturningHome p' = true).
Proof.
  intros Horb.
  pose proof (poleOrbit_landed physics Horb) as Hat.
  destruct Horb as (Hlat & Halt & Hv & Hh & Ha & Hm & Hi & Hr).
  unfold tickPhysics, poleInput.
  cbn [ti_now ti_selected ti_controls ti_droneId ti_drone].
  set (now := lastTick physics + 100).
  destruct (tickDrone_effects now (Some "DRONE-1"%string) ∅ "DRONE-1" poleDrone
              physics poleRoute eq_refl)
    as (dt & p1 & tgt & effs1 & p2 & effs3 & Hdt & E1 & E3 & Et).
  unfold now in Hdt. rewrite Rmin_tenth in Hdt. subst dt.
  assert (Hat' : atDeliveryLanding poleRoute (set_lastTick physics now))
    by exact Hat.
  destruct (stateMachine_delivery 0.1 "DRONE-1" poleDrone poleRoute _ Hat')
    as (wp & Hwp & Es).
  assert (wp = MissionItem.mk 1 NAV_LAND None None None None 90 0 0).
  { simpl in Hwp. rewrite Hi in Hwp. by inversion Hwp. }
  subst wp. cbn [MissionItem.lat MissionItem.lng] in Es. cbv zeta in Es.
  rewrite E1 in Es. clear E1.
  rewrite manualControl_no_controls in E3.
  cbv zeta. rewrite Et. cbn [fst].
  set (p0 := set_battery_v
               (set_battery_rem (set_lastTick physics now)
                  (drained 0.1 (set_lastTick physics now)))
               (22.0 + drained 0.1 (set_lastTick physics now) / 100 * 3.2))
    in Es.
  assert (Hp2 : p2 = set_roll (set_pitch (physicsMove SIM_SPEED_MULT 0.1 tgt p1)
                                 (pitch (physicsMove SIM_SPEED_MULT 0.1 tgt p1)
                                  * 0.6))
                       (roll (physicsMove SIM_SPEED_MULT 0.1 tgt p1) * 0.6)
                \/ p2 = physicsMove SIM_SPEED_MULT 0.1 tgt p1).
  { revert E3. case_decide; intros E3; inversion E3; tauto. }
  pose proof (physicsMove_discrete SIM_SPEED_MULT 0.1 tgt p1) as Hd.
  cbv zeta in Hd. destruct Hd as (D1 & D2 & D3 & D4 & D5 & _ & D6 & _).
  assert (Hfields : forall (P : DronePhysics.t -> Prop),
            (forall q x, P q -> P (set_pitch q x)) ->
            (forall q x, P q -> P (set_roll q x)) ->
            P (physicsMove SIM_SPEED_MULT 0.1 tgt p1) -> P p2).
  { intros P Hpitch Hroll HP. destruct Hp2 as [-> | ->]; auto. }
  assert (Hlast : lastTick p1 = now).
  { inversion Es as [[E1 E2 E3']]. 
    pose proof (deliveryLanding_frame 0.1 poleDrone p0) as Hf.
    cbv zeta in Hf. destruct Hf as (_ & _ & _ & _ & _ & Hl & _). 
    rewrite Hl. reflexivity. }
  split.
  { apply (Hfields (fun q => lastTick q = now)); try done.
    by rewrite D6. }
  unfold deliveryLanding in Es.
  cbn [isReturningHome deliveryWaitTime p0 set_battery_v set_battery_rem
       set_lastTick] in Es.
  rewrite Hr in Es.
  assert (Horbit : forall w,
            p1 = set_deliveryWaitTime p0 w -> tgt = mkTarget 90 0 0 ->
            poleOrbit p2 /\ deliveryWaitTime p2 = w).
  { intros w -> ->.
    destruct (physicsMove_pole (set_deliveryWaitTime p0 w))
      as (M1 & M2 & M3 & M4 & M5); try done.
    simpl in D1, D2, D3, D4, D5.
    apply (Hfields (fun q => poleOrbit q /\ deliveryWaitTime q = w));
      try (intros q x [Hq1 Hq2]; split; [exact Hq1|exact Hq2]).
    unfold poleOrbit. rewrite M1, M3, M4, M5, D1, D2, D3, D4, D5.
    rewrite Ha, Hm, Hi, Hr. done. }
  split; [|split].
  - intros Hw. rewrite decide_True in Es by done.
    inversion Es. by apply Horbit.
  - intros Hw0 Hw3. rewrite decide_False in Es by tauto.
    rewrite decide_True in Es by done.
    inversion Es. by apply Horbit.
  - intros Hw. rewrite decide_False in Es by (intros [_ ?]; lra).
    rewrite decide_False in Es by (intros [_ ?]; lra).
    rewrite decide_True in Es by done.
    inversion Es as [[E1 E2 E3']].
    apply (Hfields (fun q => flightMode q = RTL /\ isReturningHome q = true));
      try (intros q x [Hq1 Hq2]; split; [exact Hq1|exact Hq2]).
    rewrite D2, D5, E1. done.
Qed.

(** From a wait of [k] tenths of a second, the remaining ticks up to the
    31st end in [RTL]. *)
Lemma pole_run n : forall physics (k : nat),
  poleOrbit physics -> deliveryWaitTime physics = 0.1 * INR k ->
  (k + S n = 31)%nat ->
  flightMode (runPhysics (poleTicks (lastTick physics) (S n)) physics) = RTL /\
  isReturningHome (runPhysics (poleTicks (lastTick physics) (S n)) physics)
    = true.
Proof.
  induction n as [|n IH]; intros physics k Horb Hw Hk.
  - assert (k = 30%nat) by lia. subst k.
    destruct (pole_tick physics Horb) as (_ & _ & _ & HC).
    apply HC. rewrite Hw. simpl. lra.
  - rewrite poleTicks_cons.
    change (runPhysics (?i :: ?rest) physics)
      with (runPhysics rest (tickPhysics physics i)).
    destruct (pole_tick physics Horb) as (Hl & HA & HB & _).
    cbv zeta in Hl, HA, HB.
    assert (Hk' : (k <= 29)%nat) by lia.
    assert (Hlt : 0.1 * INR k < 3).
    { apply le_INR in Hk'. 
      replace (INR 29) with 29 in Hk' by (simpl; lra). lra. }
    assert (Hnext : poleOrbit (tickPhysics physics
                                 (poleInput (lastTick physics + 100))) /\
                    deliveryWaitTime (tickPhysics physics
                                        (poleInput (lastTick physics + 100)))
                      = 0.1 * INR (S k)).
    { rewrite S_INR. destruct k as [|k'].
      - simpl in Hw. destruct (HA ltac:(lra)) as [H1 H2].
        split; [done|]. rewrite H2. simpl. lra.
      - assert (Hpos : 0 < INR (S k')) by (apply lt_0_INR; lia).
        destruct (HB ltac:(lra) ltac:(lra)) as [H1 H2].
        split; [done|]. rewrite H2, Hw. lra. }
    destruct Hnext as [Horb' Hw'].
    assert (Hk2 : (S k + S n = 31)%nat) by lia.
    pose proof (IH _ (S k) Horb' Hw' Hk2) as Hres.
    rewrite Hl in Hres. exact Hres.
Qed.

Lemma setMode_pole :
  dronePhysicsRef (setMode AUTO poleWaitingWorld).1 !! "DRONE-1"%string
    = Some (setModePhysics AUTO poleWaitingPhysics).
Proof.
  apply (setMode_accepted AUTO poleWaitingWorld "DRONE-1" poleDrone
           poleWaitingPhysics).
  - reflexivity.
  - reflexivity.
  - apply lookup_singleton_eq.
  - apply lookup_singleton_eq.
  - intros [_ H]. discriminate H.
  - intros [_ H]. discriminate H.
Qed.

(** A whole wait followed tick by tick, on a route of one landing
    waypoint: AUTO is selected during the wait at the delivery point, and
    31 ticks later the drone is in RTL with [isReturningHome] set. *)
Lemma auto_selected_during_wait_still_returns :
  atDeliveryLanding poleRoute poleWaitingPhysics /\
  0 < deliveryWaitTime poleWaitingPhysics < 3 /\
  isReturningHome poleWaitingPhysics = false /\
  exists physics,
    dronePhysicsRef (setMode AUTO poleWaitingWorld).1 !! "DRONE-1"%string
      = Some physics /\
    flightMode (runPhysics (poleTicks (lastTick physics) 31) physics) = RTL /\
    isReturningHome (runPhysics (poleTicks (lastTick physics) 31) physics)
      = true.
Proof.
  assert (Horb : poleOrbit poleWaitingPhysics) by (repeat split).
  split; [by apply poleOrbit_landed|].
  split; [simpl; lra|]. split; [reflexivity|].
  exists (setModePhysics AUTO poleWaitingPhysics).
  split; [exact setMode_pole|].
  apply (pole_run 30 _ 0%nat).
  - repeat split.
  - simpl. lra.
  - reflexivity.
Qed.

Lemma setModePhysics_landed route physics :
  atDeliveryLanding route physics ->
  atDeliveryLanding route (setModePhysics AUTO physics).
Proof.
  intros (Ha & Hm & wp & H).
  split; [done|]. split; [done|]. by exists wp.
Qed.

Lemma setModePhysics_lastTick mode physics :
  lastTick (setModePhysics mode physics) = lastTick physics.
Proof. unfold setModePhysics. by case_decide. Qed.

(** What [setMode] does to the return flags.  An accepted [setMode] to a
    mode other than RTL sets that mode and resets [isReturningHome] to
    false and [deliveryWaitTime] to 0.  For a mode other than RTL and
    AUTO, no run of ticks brings the drone to RTL or AUTO or sets
    [isReturningHome] again.  For AUTO at the delivery landing, the next
    tick finds the waiting time at 0 and runs the first-landing branch. *)
Theorem explicit_mode_change_resets_return_flags :
  (forall mode w sel drone physics,
     selectedDroneId w = Some sel -> JS.truthy (Some sel) = true ->
     drones w !! sel = Some drone -> dronePhysicsRef w !! sel = Some physics ->
     mode <> RTL ->
     ~ (mode = AUTO /\ noMission drone = true) ->
     ~ (mode = AUTO /\ armed physics = false) ->
     exists physics',
       dronePhysicsRef (setMode mode w).1 !! sel = Some physics' /\
       flightMode physics' = mode /\ isReturningHome physics' = false /\
       deliveryWaitTime physics' = 0) /\
  (forall mode physics inputs,
     mode <> RTL -> mode <> AUTO ->
     flightMode (runPhysics inputs (setModePhysics mode physics)) <> RTL /\
     flightMode (runPhysics inputs (setModePhysics mode physics)) <> AUTO /\
     isReturningHome (runPhysics inputs (setModePhysics mode physics)) = false) /\
  (forall physics now sel controls droneId drone route taskId,
     Drone.assignedRoute drone = Some route ->
     atDeliveryLanding route physics ->
     Drone.assignedTaskId drone = Some taskId ->
     JS.truthy (Some taskId) = true ->
     completions taskId
       (tickDrone now sel controls droneId drone
          (setModePhysics AUTO physics)).2 = 1%nat /\
     deliveryWaitTime
       (tickDrone now sel controls droneId drone
          (setModePhysics AUTO physics)).1
     = Rmin ((now - lastTick physics) / 1000) 0.1).
Proof.
  split; [|split].
  - intros mode w sel drone physics Hsel Ht Hd Hp Hm H1 H2.
    exists (setModePhysics mode physics).
    split; [by apply (setMode_accepted mode w sel drone physics)|].
    by apply setModePhysics_resets.
  - intros mode physics inputs Hr Ha.
    destruct (setModePhysics_resets mode physics Hr) as (M1 & M2 & M3).
    destruct (runPhysics_manual_modes inputs (setModePhysics mode physics))
      as (R1 & R2 & R3); [by rewrite M1|by rewrite M1|done|].
    done.
  - intros physics now sel controls droneId drone route taskId Hr Hat Ht Htr.
    destruct (setModePhysics_resets AUTO physics) as (M1 & M2 & M3);
      [discriminate|].
    destruct (tickDrone_delivery_first now sel controls droneId drone
                (setModePhysics AUTO physics) route taskId Hr
                (setModePhysics_landed route physics Hat) M2 M3 Ht Htr)
      as (C1 & C2 & _).
    split; [exact C1|]. by rewrite C2, setModePhysics_lastTick.
Qed.

Lemma explicit_mode_change_resets_return_flags_witness :
  (exists physics',
     dronePhysicsRef (setMode LOITER poleWaitingWorld).1 !! "DRONE-1"%string
       = Some physics' /\
     flightMode physics' = LOITER /\ isReturningHome physics' = false /\
     deliveryWaitTime physics' = 0) /\
  (flightMode (runPhysics (poleTicks 1000 31)
                 (setModePhysics LOITER poleWaitingPhysics)) <> RTL /\
   flightMode (runPhysics (poleTicks 1000 31)
                 (setModePhysics LOITER poleWaitingPhysics)) <> AUTO /\
   isReturningHome (runPhysics (poleTicks 1000 31)
                      (setModePhysics LOITER poleWaitingPhysics)) = false) /\
  (completions "REQ-1"
     (tickDrone 1100 (Some "DRONE-1"%string) ∅ "DRONE-1" poleDrone
        (setModePhysics AUTO poleWaitingPhysics)).2 = 1%nat /\
   deliveryWaitTime
     (tickDrone 1100 (Some "DRONE-1"%string) ∅ "DRONE-1" poleDrone
        (setModePhysics AUTO poleWaitingPhysics)).1
   = Rmin ((1100 - lastTick poleWaitingPhysics) / 1000) 0.1).
Proof.
  split; [|split].
  - apply (proj1 explicit_mode_change_resets_return_flags LOITER
             poleWaitingWorld "DRONE-1"%string poleDrone poleWaitingPhysics).
    + reflexivity.
    + reflexivity.
    + apply lookup_singleton_eq.
    + apply lookup_singleton_eq.
    + discriminate.
    + intros [H _]. discriminate H.
    + intros [H _]. discriminate H.
  - apply (proj1 (proj2 explicit_mode_change_resets_return_flags) LOITER
             poleWaitingPhysics (poleTicks 1000 31)); discriminate.
  - apply (proj2 (proj2 explicit_mode_change_resets_return_flags)
             poleWaitingPhysics 1100 (Some "DRONE-1"%string) ∅
             "DRONE-1"%string poleDrone poleRoute "REQ-1"%string).
    + reflexivity.
    + apply poleOrbit_landed. repeat split.
    + reflexivity.
    + reflexivity.
Defined.

(** *** One report per delivery while the clock advances *)

Lemma passive_no_closure effs :
  Forall passive effs -> filter (fun e => isClosure e = true) effs = [].
Proof.
  induction effs as [|e l IH]; [done|]. intros Hf. inversion Hf; subst.
  rewrite filter_cons. destruct e; simpl in *; try done; by rewrite IH.
Qed.

Lemma closures_app effs1 effs2 :
  closures (effs1 ++ effs2) = (closures effs1 + closures effs2)%nat.
Proof. unfold closures. by rewrite filter_app, length_app. Qed.

Lemma completions_passive taskId effs :
  Forall passive effs -> completions taskId effs = 0%nat.
Proof. intros H. unfold completions. by rewrite passive_no_completion. Qed.

Lemma closures_passive effs : Forall passive effs -> closures effs = 0%nat.
Proof. intros H. unfold closures. by rewrite passive_no_closure. Qed.

Lemma deliveryLanding_ledger dt drone physics taskId :
  0 < dt -> waitSound physics ->
  Drone.assignedTaskId drone = Some taskId -> JS.truthy (Some taskId) = true ->
  let r := deliveryLanding dt drone physics in
  (completions taskId r.2 + waitStarted physics)%nat = waitStarted r.1 /\
  closures r.2 = 0%nat /\ waitSound r.1.
Proof.
  intros Hdt [Hw0 Hwr] Ht Htr. unfold deliveryLanding, waitStarted, waitSound.
  rewrite Ht, Htr.
  destruct (decide (isReturningHome physics = false
                    /\ deliveryWaitTime physics = 0)) as [[Hr Hw]|H1].
  - cbn [fst snd deliveryWaitTime isReturningHome set_deliveryWaitTime].
    rewrite Hw, Hr. rewrite decide_True by done.
    rewrite decide_False by lra.
    unfold completions, closures. 
    rewrite filter_cons, decide_True by (simpl; apply String.eqb_refl).
    rewrite filter_cons, decide_False by (simpl; discriminate).
    simpl. repeat split; try done; lra.
  - destruct (decide (isReturningHome physics = false
                      /\ deliveryWaitTime physics < 3)) as [[Hr Hw]|H2].
    + cbn [fst snd deliveryWaitTime isReturningHome set_deliveryWaitTime].
      assert (deliveryWaitTime physics <> 0) by tauto.
      rewrite decide_False by done. rewrite decide_False by lra.
      rewrite Hr. repeat split; try done; lra.
    + destruct (decide (isReturningHome physics = false
                        /\ deliveryWaitTime physics >= 3)) as [[Hr Hw]|H3].
      * cbn [fst snd deliveryWaitTime isReturningHome set_flightMode set_armed
             set_isReturningHome].
        rewrite decide_False by lra.
        unfold completions, closures.
        rewrite !filter_cons, !decide_False by (simpl; discriminate).
        simpl. repeat split; try done; lra.
      * simpl. repeat split; done.
Qed.

Lemma autoWaypoint_ledger dt drone route tgt0 physics taskId :
  0 < dt -> waitSound physics ->
  Drone.assignedTaskId drone = Some taskId -> JS.truthy (Some taskId) = true ->
  let r := autoWaypoint dt drone route tgt0 physics in
  (completions taskId r.2 + waitStarted physics)%nat = waitStarted r.1.1 /\
  closures r.2 = 0%nat /\ waitSound r.1.1.
Proof.
  intros Hdt Hs Ht Htr. unfold autoWaypoint.
  destruct (JS.index route _); [|done].
  pose proof (deliveryLanding_ledger dt drone physics taskId Hdt Hs Ht Htr) as Hd.
  repeat case_decide; try done.
  destruct (deliveryLanding dt drone physics). exact Hd.
Qed.

Lemma stateMachine_ledger dt droneId drone route physics taskId :
  0 < dt -> waitSound physics ->
  Drone.assignedTaskId drone = Some taskId -> JS.truthy (Some taskId) = true ->
  let r := stateMachine dt droneId drone route physics in
  (completions taskId r.2 + waitStarted physics)%nat
    = (closures r.2 + waitStarted r.1.1)%nat /\
  waitSound r.1.1.
Proof.
  intros Hdt Hs Ht Htr. unfold stateMachine.
  destruct (armed physics); [|simpl; done].
  cbv zeta.
  case_decide as Hauto.
  - assert (Haw : forall p0 effs0,
              waitSound p0 -> waitStarted p0 = waitStarted physics ->
              completions taskId effs0 = 0%nat -> closures effs0 = 0%nat ->
              let r := autoWaypoint dt drone route
                         (mkTarget (lat physics) (lng physics) (alt physics))
                         p0 in
              (completions taskId (effs0 ++ r.2) + waitStarted physics)%nat
                = (closures (effs0 ++ r.2) + waitStarted r.1.1)%nat /\
              waitSound r.1.1).
    { intros p0 effs0 Hs0 Hw0 Hc0 Hm0.
      pose proof (autoWaypoint_ledger dt drone route
                    (mkTarget (lat physics) (lng physics) (alt physics))
                    p0 taskId Hdt Hs0 Ht Htr) as (L1 & L2 & L3).
      cbv zeta. rewrite completions_app, closures_app, Hc0, Hm0, L2.
      rewrite <- Hw0. split; [exact L1|exact L3]. }
    match goal with
    | |- context [decide (activeWpIndex ?p = (-1)%Z)] =>
        destruct (decide (activeWpIndex p = (-1)%Z))
    end.
    + match goal with
      | |- context [autoWaypoint dt drone route ?t ?p0] =>
          specialize (Haw p0 [UpdateDroneStatus droneId running;
                              AddLog (MISSION_STARTED (Drone.name drone)) INFO]);
          destruct (autoWaypoint dt drone route t p0) as [[? ?] ?]
      end.
      apply Haw; done.
    + match goal with
      | |- context [autoWaypoint dt drone route ?t ?p0] =>
          specialize (Haw p0 []);
          destruct (autoWaypoint dt drone route t p0) as [[? ?] ?]
      end.
      apply Haw; done.
  - destruct Hs as [Hw0 Hwr].
    repeat case_decide; try (simpl; done).
    all: simpl; destruct (isReturningHome physics) eqn:Hr;
      [ specialize (Hwr eq_refl);
        unfold waitStarted, waitSound; simpl;
        rewrite (decide_True (P := 0 = 0)) by done;
        rewrite (decide_False (P := deliveryWaitTime physics = 0)) by lra;
        change (completions taskId [CompleteDroneTask droneId]) with 0%nat;
        change (closures [CompleteDroneTask droneId]) with 1%nat;
        simpl; split; [done|]; split; [lra|done]
      | simpl; unfold waitSound; simpl; rewrite Hr; done ].
Qed.

Lemma tickDrone_ledger now sel controls droneId drone physics taskId :
  waitSound physics -> lastTick physics < now ->
  Drone.assignedTaskId drone = Some taskId -> JS.truthy (Some taskId) = true ->
  let r := tickDrone now sel controls droneId drone physics in
  (completions taskId r.2 + waitStarted physics)%nat
    = (closures r.2 + waitStarted r.1)%nat /\
  waitSound r.1 /\ lastTick r.1 <= now.
Proof.
  intros Hs Hclk Ht Htr.
  destruct (Drone.assignedRoute drone) as [route|] eqn:Hr.
  - destruct (tickDrone_effects now sel controls droneId drone physics route Hr)
      as (dt & p1 & tgt & effs1 & p2 & effs3 & Hdt & E1 & E3 & Et).
    assert (Hpos : 0 < dt).
    { subst dt. unfold Rmin. destruct (Rle_dec _ _); lra. }
    assert (Hs' : waitSound (set_lastTick physics now)) by exact Hs.
    pose proof (stateMachine_ledger dt droneId drone route _ taskId Hpos Hs'
                  Ht Htr) as HL.
    rewrite E1 in HL. cbn [fst snd] in HL. destruct HL as [L1 L2].
    change (waitStarted (set_lastTick physics now))
      with (waitStarted physics) in L1.
    pose proof (physicsMove_discrete SIM_SPEED_MULT dt tgt p1) as Hp.
    cbv zeta in Hp. destruct Hp as (_ & _ & _ & W3 & R3 & _ & T3 & _).
    pose proof (manualControl_discrete SIM_SPEED_MULT dt sel controls droneId
                  drone (physicsMove SIM_SPEED_MULT dt tgt p1)) as Hmc.
    rewrite E3 in Hmc. cbv zeta in Hmc. cbn [fst] in Hmc.
    destruct Hmc as (_ & _ & W2 & _ & T2 & _ & Hmode).
    pose proof (manualControl_passive SIM_SPEED_MULT dt sel controls droneId
                  drone (physicsMove SIM_SPEED_MULT dt tgt p1)) as Hpass.
    rewrite E3 in Hpass. cbn [snd] in Hpass.
    pose proof (stateMachine_frame dt droneId drone route
                  (set_lastTick physics now)) as Hf.
    rewrite E1 in Hf. cbv zeta in Hf. cbn [fst] in Hf.
    destruct Hf as (_ & _ & _ & _ & _ & T1 & _).
    cbv zeta. rewrite Et. cbn [fst snd].
    assert (Hw : waitStarted p2 = waitStarted p1).
    { unfold waitStarted. by rewrite W2, W3. }
    rewrite !completions_app, !closures_app.
    rewrite (completions_passive taskId effs3 Hpass).
    rewrite (closures_passive effs3 Hpass).
    change (completions taskId [UpdateDroneTelemetry droneId ?x]) with 0%nat.
    change (closures [UpdateDroneTelemetry droneId ?x]) with 0%nat.
    rewrite Hw. split; [lia|]. split.
    + destruct L2 as [S1 S2]. unfold waitSound. rewrite W2, W3.
      split; [done|]. intros Hret.
      destruct Hmode as [[_ M]|[_ M]]; rewrite M in Hret; [|discriminate].
      rewrite R3 in Hret. by apply S2.
    + rewrite T2, T3, T1. simpl. lra.
  - unfold tickDrone. rewrite Hr. cbn [fst snd].
    split; [done|]. split; [done|lra].
Qed.

(** While the clock advances, the deliveries a run reports are the
    missions it closes, plus one if a delivery is waiting to be closed. *)
Theorem one_report_per_delivery_while_clock_advances taskId inputs :
  forall physics t0,
  JS.truthy (Some taskId) = true ->
  waitSound physics -> lastTick physics <= t0 ->
  clockAdvances t0 inputs -> Forall (carriesTask taskId) inputs ->
  (completions taskId (runTicks inputs physics).2 + waitStarted physics)%nat
    = (closures (runTicks inputs physics).2
       + waitStarted (runTicks inputs physics).1)%nat.
Proof.
  induction inputs as [|i rest IH]; intros physics t0 Htr Hs Ht0 Hclk Hall.
  - simpl. done.
  - destruct Hclk as [Hi Hrest]. inversion Hall as [|? ? Hc Hall']; subst.
    assert (Hnow : lastTick physics < ti_now i) by lra.
    destruct (tickDrone_ledger (ti_now i) (ti_selected i) (ti_controls i)
                (ti_droneId i) (ti_drone i) physics taskId Hs Hnow Hc Htr)
      as (L1 & L2 & L3).
    cbv zeta in L1, L2, L3.
    specialize (IH _ (ti_now i) Htr L2 L3 Hrest Hall').
    cbn [runTicks fst snd].
    rewrite completions_app, closures_app. lia.
Qed.

Lemma one_report_per_delivery_while_clock_advances_witness :
  (completions "REQ-1"
     (runTicks [laterTick 1016; laterTick 1032] deliveryLandingPhysics).2
   + waitStarted deliveryLandingPhysics)%nat
  = (closures (runTicks [laterTick 1016; laterTick 1032]
                 deliveryLandingPhysics).2
     + waitStarted (runTicks [laterTick 1016; laterTick 1032]
                      deliveryLandingPhysics).1)%nat.
Proof.
  apply (one_report_per_delivery_while_clock_advances "REQ-1"
           [laterTick 1016; laterTick 1032] deliveryLandingPhysics 1000).
  - reflexivity.
  - split; [simpl; lra|]. intros H. discriminate H.
  - simpl. lra.
  - simpl. lra.
  - repeat constructor.
Defined.

(** * Further properties of the code *)

(** ** Geodesy helpers *)

Lemma atan2_range y x : - PI < JS.atan2 y x <= PI.
Proof.
  pose proof PI_RGT_0 as Hpi.
  pose proof (atan_bound (y / x)) as Hb.
  unfold JS.atan2. repeat case_decide; try lra.
  - assert (y / x <= 0).
    { unfold Rdiv. replace (y * / x) with (- (y * / - x)).
      - assert (0 <= y * / - x); [|lra].
        apply Rmult_le_pos; [lra|]. left. apply Rinv_0_lt_compat. lra.
      - rewrite Rinv_opp. ring. }
    assert (atan (y / x) <= 0).
    { rewrite <- atan_0. destruct (Req_dec (y / x) 0) as [->|Hne]; [lra|].
      left. apply atan_increasing. lra. }
    lra.
  - assert (0 < y / x).
    { unfold Rdiv. replace (y * / x) with ((- y) * / (- x)).
      - apply Rmult_lt_0_compat; [lra|]. apply Rinv_0_lt_compat. lra.
      - rewrite Rinv_opp. ring. }
    assert (0 < atan (y / x)).
    { rewrite <- atan_0. apply atan_increasing. lra. }
    lra.
Qed.

Lemma atan2_quadrant y x : 0 <= y -> 0 <= x -> 0 <= JS.atan2 y x <= PI / 2.
Proof.
  intros Hy Hx. pose proof PI_RGT_0 as Hpi.
  unfold JS.atan2. repeat case_decide; try lra.
  pose proof (atan_bound (y / x)) as Hb.
  assert (0 <= y / x).
  { apply Rmult_le_pos; [lra|]. left. apply Rinv_0_lt_compat. lra. }
  assert (0 <= atan (y / x)).
  { rewrite <- atan_0. destruct (Req_dec (y / x) 0) as [->|Hne]; [lra|].
    left. apply atan_increasing. lra. }
  lra.
Qed.

Lemma toDeg_bounds r : - PI < r <= PI -> -180 < toDeg r <= 180.
Proof.
  intros H. pose proof PI_RGT_0 as Hpi. unfold toDeg, Rdiv. split.
  - apply (Rmult_lt_reg_r PI); [lra|].
    rewrite Rmult_assoc, Rinv_l by lra. lra.
  - apply (Rmult_le_reg_r PI); [lra|].
    rewrite Rmult_assoc, Rinv_l by lra. lra.
Qed.

(** The haversine term of [getDist]. *)
Lemma haversine_range lat1 lon1 lat2 lon2 :
  -90 <= lat1 <= 90 -> -90 <= lat2 <= 90 ->
  let a := sin (toRad (lat2 - lat1) / 2) ^ 2
           + cos (toRad lat1) * cos (toRad lat2)
             * sin (toRad (lon2 - lon1) / 2) ^ 2 in
  0 <= a <= 1.
Proof.
  intros H1 H2 a.
  pose proof (cos_toRad_nonneg lat1 H1) as C1.
  pose proof (cos_toRad_nonneg lat2 H2) as C2.
  set (u := toRad (lat2 - lat1) / 2) in *.
  set (v := toRad (lon2 - lon1) / 2) in *.
  pose proof (sin_cos_unit u) as Hu. pose proof (sin_cos_unit v) as Hv.
  assert (Hcc : 0 <= cos (toRad lat1) * cos (toRad lat2))
    by (apply Rmult_le_pos; done).
  assert (Hsv : 0 <= sin v * sin v <= 1).
  { pose proof (Rle_0_sqr (sin v)) as A. pose proof (Rle_0_sqr (cos v)) as B.
    unfold Rsqr in A, B. lra. }
  assert (Hsu : 0 <= sin u * sin u).
  { pose proof (Rle_0_sqr (sin u)) as A. unfold Rsqr in A. lra. }
  assert (Hcu : cos (toRad lat1) * cos (toRad lat2) <= cos u * cos u).
  { assert (E : toRad lat2 = toRad lat1 + 2 * u).
    { unfold u, toRad. field. }
    assert (D : cos (2 * u) = 2 * (cos u * cos u) - 1).
    { rewrite cos_2a. pose proof (sin_cos_unit u). lra. }
    (* cos u ^2 - cos p1 cos p2 = (1 - cos (p1 + p2)) / 2 *)
    assert (F : cos (toRad lat1 + toRad lat2)
                = 2 * (cos (toRad lat1) * cos (toRad lat2)) - cos (2 * u)).
    { replace (2 * u) with (toRad lat2 - toRad lat1) by lra.
      rewrite cos_plus, cos_minus. ring. }
    pose proof (COS_bound (toRad lat1 + toRad lat2)) as [_ B]. lra. }
  unfold a. simpl. rewrite !Rmult_1_r. split; [nra|].
  assert (cos (toRad lat1) * cos (toRad lat2) * (sin v * sin v)
          <= cos (toRad lat1) * cos (toRad lat2)) by nra.
  lra.
Qed.

Lemma getDist_range lat1 lon1 lat2 lon2 :
  -90 <= lat1 <= 90 -> -90 <= lat2 <= 90 ->
  0 <= getDist lat1 lon1 lat2 lon2 <= PI * 6371e3.
Proof.
  intros H1 H2. pose proof (haversine_range lat1 lon1 lat2 lon2 H1 H2) as Ha.
  cbv zeta in Ha. unfold getDist. cbv zeta.
  set (a := _ + _) in *.
  pose proof (atan2_quadrant (sqrt a) (sqrt (1 - a))
                (sqrt_pos _) (sqrt_pos _)) as Hq.
  pose proof PI_RGT_0. split; nra.
Qed.

Lemma getDist_swap lat1 lon1 lat2 lon2 :
  getDist lat1 lon1 lat2 lon2 = getDist lat2 lon2 lat1 lon1.
Proof.
  unfold getDist. cbv zeta.
  replace (toRad (lat1 - lat2) / 2) with (- (toRad (lat2 - lat1) / 2))
    by (unfold toRad; field).
  replace (toRad (lon1 - lon2) / 2) with (- (toRad (lon2 - lon1) / 2))
    by (unfold toRad; field).
  rewrite !sin_neg.
  replace ((- sin (toRad (lat2 - lat1) / 2)) ^ 2
           + cos (toRad lat2) * cos (toRad lat1)
             * (- sin (toRad (lon2 - lon1) / 2)) ^ 2)
    with (sin (toRad (lat2 - lat1) / 2) ^ 2
          + cos (toRad lat1) * cos (toRad lat2)
            * sin (toRad (lon2 - lon1) / 2) ^ 2) by ring.
  reflexivity.
Qed.

(** X1: [getDist] is symmetric in its two points; between points with
    latitudes in [-90, 90] it lies between 0 and half the circumference of
    the sphere, and it is 0 from a point to itself. *)
Theorem getDist_symmetric_and_bounded lat1 lon1 lat2 lon2 :
  -90 <= lat1 <= 90 -> -90 <= lat2 <= 90 ->
  getDist lat1 lon1 lat2 lon2 = getDist lat2 lon2 lat1 lon1 /\
  0 <= getDist lat1 lon1 lat2 lon2 <= PI * 6371e3 /\
  getDist lat1 lon1 lat1 lon1 = 0.
Proof.
  intros H1 H2. split; [apply getDist_swap|].
  split; [by apply getDist_range|apply getDist_same].
Qed.

Lemma getDist_symmetric_and_bounded_witness :
  getDist 18.5204 73.8567 18.5304 73.8767
    = getDist 18.5304 73.8767 18.5204 73.8567 /\
  0 <= getDist 18.5204 73.8567 18.5304 73.8767 <= PI * 6371e3 /\
  getDist 18.5204 73.8567 18.5204 73.8567 = 0.
Proof.
  apply (getDist_symmetric_and_bounded 18.5204 73.8567 18.5304 73.8767); lra.
Defined.

(** X2: [getBearing] returns a compass bearing in [0, 360) for every pair of
    points. *)
Theorem getBearing_in_compass_range lat1 lon1 lat2 lon2 :
  0 <= getBearing lat1 lon1 lat2 lon2 < 360.
Proof.
  unfold getBearing. cbv zeta.
  set (y := sin _ * cos _). set (x := _ - _).
  pose proof (toDeg_bounds _ (atan2_range y x)) as Hb.
  destruct (Rlt_le_dec (toDeg (JS.atan2 y x) + 360) 360) as [Hs|Hs].
  - rewrite rem_small by lra. lra.
  - rewrite rem_wrap by lra. lra.
Qed.

(** ** The heading error *)

Lemma while_gt_180_spec fuel : forall a,
  a <= 180 + 360 * INR fuel ->
  JS.while_gt_180 fuel a <= 180 /\
  (180 < a -> -180 < JS.while_gt_180 fuel a) /\
  exists k : Z, JS.while_gt_180 fuel a = a + 360 * IZR k.
Proof.
  induction fuel as [|fuel IH]; intros a Ha.
  - simpl in *. split; [lra|]. split; [lra|]. exists 0%Z. simpl. lra.
  - rewrite S_INR in Ha. simpl. case_decide.
    + destruct (IH (a - 360)) as (I1 & I2 & k & I3); [lra|].
      split; [done|]. split.
      * intros _. destruct (Rlt_le_dec 180 (a - 360)) as [Hl|Hl]; [by apply I2|].
        rewrite while_gt_180_done by done. lra.
      * exists (k - 1)%Z. rewrite I3, minus_IZR. lra.
    + split; [lra|]. split; [lra|]. exists 0%Z. simpl. lra.
Qed.

Lemma while_lt_m180_spec fuel : forall a,
  -180 - 360 * INR fuel <= a ->
  -180 <= JS.while_lt_m180 fuel a /\
  (a < -180 -> JS.while_lt_m180 fuel a < 180) /\
  exists k : Z, JS.while_lt_m180 fuel a = a + 360 * IZR k.
Proof.
  induction fuel as [|fuel IH]; intros a Ha.
  - simpl in *. split; [lra|]. split; [lra|]. exists 0%Z. simpl. lra.
  - rewrite S_INR in Ha. simpl. case_decide.
    + destruct (IH (a + 360)) as (I1 & I2 & k & I3); [lra|].
      split; [done|]. split.
      * intros _. destruct (Rlt_le_dec (a + 360) (-180)) as [Hl|Hl];
          [by apply I2|].
        rewrite while_lt_m180_done by done. lra.
      * exists (k + 1)%Z. rewrite I3, plus_IZR. lra.
    + split; [lra|]. split; [lra|]. exists 0%Z. simpl. lra.
Qed.

Lemma loop_fuel_enough a : Rabs a < 360 * INR (JS.loop_fuel a).
Proof.
  unfold JS.loop_fuel.
  pose proof (archimed (Rabs a / 360)) as [Hup _].
  pose proof (Rabs_pos a) as Habs.
  assert (Hq : 0 <= Rabs a / 360) by (unfold Rdiv; lra).
  assert (Hz : (0 <= up (Rabs a / 360))%Z).
  { apply le_IZR. lra. }
  rewrite INR_IZR_INZ, Z2Nat.id by done.
  unfold Rdiv in Hup. lra.
Qed.

Lemma wrapAngle_range a :
  -180 <= wrapAngle a <= 180 /\ exists k : Z, wrapAngle a = a + 360 * IZR k.
Proof.
  unfold wrapAngle. cbv zeta.
  pose proof (loop_fuel_enough a) as Hf.
  assert (Ha : a <= 180 + 360 * INR (JS.loop_fuel a)).
  { pose proof (Rle_abs a). lra. }
  destruct (while_gt_180_spec _ a Ha) as (G1 & G2 & k1 & G3).
  set (a1 := JS.while_gt_180 (JS.loop_fuel a) a) in *.
  pose proof (loop_fuel_enough a1) as Hf1.
  assert (Ha1 : -180 - 360 * INR (JS.loop_fuel a1) <= a1).
  { pose proof (Rle_abs (- a1)) as Hn. rewrite Rabs_Ropp in Hn. lra. }
  destruct (while_lt_m180_spec _ a1 Ha1) as (L1 & L2 & k2 & L3).
  split.
  - split; [done|].
    destruct (Rlt_le_dec a1 (-180)) as [Hl|Hl]; [left; by apply L2|].
    rewrite while_lt_m180_done by done. done.
  - exists (k1 + k2)%Z. rewrite L3, G3, plus_IZR. lra.
Qed.


(** ** Bounds kept by the integrator *)

Lemma rem_range x m : 0 <= x -> 0 < m -> 0 <= JS.rem x m < m.
Proof.
  intros Hx Hm. unfold JS.rem. rewrite decide_True by done.
  rewrite Rabs_pos_eq by lra.
  pose proof (base_Int_part (x / m)) as [B1 B2].
  assert (E : x = m * (x / m)) by (field; lra).
  set (q := IZR (Int_part (x / m))) in *.
  split; nra.
Qed.

Lemma turnedHeading_range step tgt physics :
  0 <= step -> 0 <= heading physics < 360 ->
  0 <= turnedHeading step tgt physics < 360.
Proof.
  intros Hs Hh. unfold turnedHeading. cbv zeta.
  set (d := wrapAngle _).
  destruct (wrapAngle_range
              (getBearing (lat physics) (lng physics) (targetLat tgt)
                 (targetLng tgt) - heading physics)) as [Hd _].
  fold d in Hd.
  case_decide; [|done].
  apply rem_range; [|lra].
  assert (Hm : 0 <= Rmin (Rabs d) step <= 180).
  { pose proof (Rabs_pos d). pose proof (Rmin_l (Rabs d) step).
    assert (Rabs d <= 180) by (apply Rabs_le; lra).
    split; [|lra]. unfold Rmin. destruct (Rle_dec _ _); lra. }
  unfold JS.sign. repeat case_decide; nra.
Qed.

Lemma modeOverride_kinematics controls physics :
  let p' := (modeOverride controls physics).1 in
  lat p' = lat physics /\ lng p' = lng physics /\ alt p' = alt physics /\
  heading p' = heading physics /\ vSpeed p' = vSpeed physics.
Proof.
  unfold modeOverride. destruct (anyControl controls); [case_decide|];
    simpl; tauto.
Qed.

Lemma throttleYaw_kinematics a y controls physics :
  0 <= y <= 360 ->
  let p' := (throttleYaw a y controls physics).1 in
  lat p' = lat physics /\ lng p' = lng physics /\
  vSpeed p' = vSpeed physics /\
  (0 <= heading physics < 360 -> 0 <= heading p' < 360).
Proof.
  intros Hy. unfold throttleYaw.
  destruct (ctl controls "up"); destruct (ctl controls "down");
  destruct (ctl controls "turnLeft"); destruct (ctl controls "turnRight");
  simpl; (split; [done|]); (split; [done|]); (split; [done|]); intros Hh;
  try done;
  repeat match goal with
  | |- context [JS.rem ?x 360] =>
      let H := fresh "Hr" in
      assert (H : 0 <= JS.rem x 360 < 360)
        by (apply rem_range; lra);
      try exact H; generalize dependent (JS.rem x 360); intros
  end.
Qed.

Lemma pitchRoll_kinematics m controls physics moved :
  let p' := (pitchRoll m controls physics moved).1 in
  alt p' = alt physics /\ heading p' = heading physics /\
  vSpeed p' = vSpeed physics.
Proof.
  unfold pitchRoll.
  destruct (ctl controls "forward"); destruct (ctl controls "backward");
  destruct (ctl controls "left"); destruct (ctl controls "right");
  simpl; tauto.
Qed.

Lemma manualControl_kinematics mult dt sel controls droneId drone physics :
  0 <= 75 * dt * mult <= 360 ->
  let p' := (manualControl mult dt sel controls droneId drone physics).1 in
  vSpeed p' = vSpeed physics /\
  (0 <= heading physics < 360 -> 0 <= heading p' < 360).
Proof.
  intros Hy. unfold manualControl.
  case_decide; [|simpl; tauto].
  cbv zeta.
  pose proof (modeOverride_kinematics controls physics) as H0.
  destruct (modeOverride controls physics) as [p0 effs0].
  match goal with |- context [throttleYaw ?a ?y controls p0] =>
    pose proof (throttleYaw_kinematics a y controls p0 Hy) as H1;
    destruct (throttleYaw a y controls p0) as [p1 moved1] end.
  match goal with |- context [pitchRoll ?m controls p1 moved1] =>
    pose proof (pitchRoll_kinematics m controls p1 moved1) as H2;
    destruct (pitchRoll m controls p1 moved1) as [p2 moved2] end.
  simpl in *.
  destruct H0 as (_ & _ & _ & A0 & B0).
  destruct H1 as (_ & _ & B1 & A1).
  destruct H2 as (_ & A2 & B2).
  assert (Hgoal : vSpeed p2 = vSpeed physics /\
                  (0 <= heading physics < 360 -> 0 <= heading p2 < 360)).
  { rewrite B2, B1, B0, A2. split; [done|]. intros Hh. apply A1.
    by rewrite A0. }
  destruct moved2; simpl; exact Hgoal.
Qed.

Lemma physicsMove_kinematics mult dt tgt physics :
  0 <= dt -> 2 * dt <= 1 -> 0 <= mult ->
  let p' := physicsMove mult dt tgt physics in
  (0 <= heading physics < 360 -> 0 <= heading p' < 360) /\
  (-3 <= vSpeed physics <= 5 -> -3 <= vSpeed p' <= 5).
Proof.
  intros Hdt Hdt2 Hm. cbv zeta.
  destruct (armed physics) eqn:Ea;
    [|unfold physicsMove; rewrite Ea; tauto].
  split.
  - intros Hh. destruct (navigating (flightMode physics)) eqn:En.
    + destruct (physicsMove_horizontal mult dt tgt physics Ea En) as [-> _].
      apply turnedHeading_range; [nra|done].
    + unfold physicsMove. rewrite Ea. cbv zeta. simpl. rewrite En. done.
  - intros Hv.
    destruct (physicsMove_vertical mult dt tgt physics Ea) as [-> _].
    set (c := Rmax (-3) (Rmin 5 (targetAlt tgt - alt physics))).
    assert (Hc : -3 <= c <= 5).
    { unfold c. split; [apply Rmax_l|].
      apply Rmax_lub; [lra|apply Rmin_l]. }
    nra.
Qed.

Lemma tickDrone_kinematics now sel controls droneId drone physics :
  lastTick physics <= now ->
  let p' := (tickDrone now sel controls droneId drone physics).1 in
  (0 <= heading physics < 360 -> 0 <= heading p' < 360) /\
  (-3 <= vSpeed physics <= 5 -> -3 <= vSpeed p' <= 5).
Proof.
  intros Hclk.
  destruct (Drone.assignedRoute drone) as [route|] eqn:Hr.
  - destruct (tickDrone_effects now sel controls droneId drone physics route Hr)
      as (dt & p1 & tgt & effs1 & p2 & effs3 & Hdt & E1 & E3 & Et).
    assert (Hd : 0 <= dt <= 0.1).
    { subst dt. unfold Rmin. destruct (Rle_dec _ _); lra. }
    cbv zeta. rewrite Et. cbn [fst].
    pose proof (stateMachine_frame dt droneId drone route
                  (set_lastTick physics now)) as Hs.
    rewrite E1 in Hs. cbv zeta in Hs. cbn [fst] in Hs.
    destruct Hs as (_ & _ & _ & S1 & S2 & _).
    change (heading (set_lastTick physics now)) with (heading physics) in S1.
    change (vSpeed (set_lastTick physics now)) with (vSpeed physics) in S2.
    destruct (physicsMove_kinematics SIM_SPEED_MULT dt tgt p1) as [P1 P2];
      [lra|lra|unfold SIM_SPEED_MULT; lra|].
    pose proof (manualControl_kinematics SIM_SPEED_MULT dt sel controls droneId
                  drone (physicsMove SIM_SPEED_MULT dt tgt p1)) as Hm.
    rewrite E3 in Hm. cbv zeta in Hm. cbn [fst] in Hm.
    destruct Hm as [M1 M2]; [unfold SIM_SPEED_MULT; lra|].
    rewrite S1 in P1. rewrite S2 in P2. rewrite M1. split.
    + intros Hh. by apply M2, P1.
    + done.
  - unfold tickDrone. rewrite Hr. cbn [fst]. tauto.
Qed.

(** A property of the physics record that every tick with a clock that
    does not go back keeps is kept by every run of such ticks. *)
Lemma runPhysics_invariant (P : DronePhysics.t -> Prop) :
  (forall physics i, lastTick physics <= ti_now i -> P physics ->
     P (tickPhysics physics i)) ->
  forall inputs physics t0,
    lastTick physics <= t0 -> clockFrom t0 inputs -> P physics ->
    P (runPhysics inputs physics).
Proof.
  intros Hstep. induction inputs as [|i rest IH]; intros physics t0 Ht Hclk HP.
  - exact HP.
  - destruct Hclk as [Hi Hrest].
    destruct (tickPhysics_battery physics i) as [_ Hl]; [lra|].
    change (runPhysics (i :: rest) physics)
      with (runPhysics rest (tickPhysics physics i)).
    apply (IH _ (ti_now i) Hl Hrest). apply Hstep; [lra|done].
Qed.

(** X4: over any run of ticks whose clock does not go back, a heading that
    starts in [0, 360) stays in [0, 360), with or without manual yaw. *)
Theorem heading_stays_in_compass_range inputs physics :
  0 <= heading physics < 360 -> clockFrom (lastTick physics) inputs ->
  0 <= heading (runPhysics inputs physics) < 360.
Proof.
  intros Hh Hclk.
  apply (runPhysics_invariant (fun p => 0 <= heading p < 360))
    with (t0 := lastTick physics); [|lra|done|done].
  intros p i Hi Hp. unfold tickPhysics.
  by apply (tickDrone_kinematics (ti_now i) (ti_selected i) (ti_controls i)
              (ti_droneId i) (ti_drone i) p Hi).
Qed.

(** X5: over any run of ticks whose clock does not go back, a vertical speed
    that starts within the climb and descent limits [-3, 5] stays within
    them. *)
Theorem vertical_speed_stays_within_limits inputs physics :
  -3 <= vSpeed physics <= 5 -> clockFrom (lastTick physics) inputs ->
  -3 <= vSpeed (runPhysics inputs physics) <= 5.
Proof.
  intros Hv Hclk.
  apply (runPhysics_invariant (fun p => -3 <= vSpeed p <= 5))
    with (t0 := lastTick physics); [|lra|done|done].
  intros p i Hi Hp. unfold tickPhysics.
  by apply (tickDrone_kinematics (ti_now i) (ti_selected i) (ti_controls i)
              (ti_droneId i) (ti_drone i) p Hi).
Qed.

Lemma heading_stays_in_compass_range_witness :
  0 <= heading (runPhysics [laterTick 1016; laterTick 1032] homeLandingPhysics)
    < 360.
Proof.
  apply (heading_stays_in_compass_range [laterTick 1016; laterTick 1032]
           homeLandingPhysics).
  - simpl. lra.
  - simpl. lra.
Defined.

Lemma vertical_speed_stays_within_limits_witness :
  -3 <= vSpeed (runPhysics [laterTick 1016; laterTick 1032] homeLandingPhysics)
    <= 5.
Proof.
  apply (vertical_speed_stays_within_limits [laterTick 1016; laterTick 1032]
           homeLandingPhysics).
  - simpl. lra.
  - simpl. lra.
Defined.

(** ** The length of a step *)

Lemma destination_latitude lat lng b d :
  -90 <= (destination lat lng b d).1 <= 90.
Proof.
  rewrite destination_reached. cbv zeta. cbn [fst].
  set (s := _ + _).
  pose proof (asin_bound s) as Hb. pose proof PI_RGT_0 as Hpi.
  unfold toDeg, Rdiv. split.
  - apply (Rmult_le_reg_r PI); [lra|].
    rewrite Rmult_assoc, Rinv_l by lra. lra.
  - apply (Rmult_le_reg_r PI); [lra|].
    rewrite Rmult_assoc, Rinv_l by lra. lra.
Qed.

Lemma physicsMove_step mult dt tgt physics :
  -90 <= lat physics <= 90 -> 15 * dt * mult <= 6 ->
  let p' := physicsMove mult dt tgt physics in
  0 <= getDist (lat physics) (lng physics) (lat p') (lng p') <= 6 /\
  -90 <= lat p' <= 90.
Proof.
  intros Hlat Hd. cbv zeta.
  assert (Hstay : forall p', lat p' = lat physics -> lng p' = lng physics ->
            0 <= getDist (lat physics) (lng physics) (lat p') (lng p') <= 6 /\
            -90 <= lat p' <= 90).
  { intros p' -> ->. rewrite getDist_same. lra. }
  destruct (armed physics) eqn:Ea;
    [|unfold physicsMove; rewrite Ea; by apply Hstay].
  destruct (navigating (flightMode physics)) eqn:En;
    [|unfold physicsMove; rewrite Ea; cbv zeta; simpl; rewrite En;
      by apply Hstay].
  destruct (physicsMove_horizontal mult dt tgt physics Ea En) as [_ Hpos].
  case_decide as Hmv.
  - set (h := turnedHeading _ _ _) in Hpos.
    assert (E1 : lat (physicsMove mult dt tgt physics)
                 = (destination (lat physics) (lng physics) h
                      (15 * dt * mult)).1) by (by rewrite <- Hpos).
    assert (E2 : lng (physicsMove mult dt tgt physics)
                 = (destination (lat physics) (lng physics) h
                      (15 * dt * mult)).2) by (by rewrite <- Hpos).
    rewrite E1, E2. split; [|apply destination_latitude].
    rewrite getDist_destination; [lra|done|].
    pose proof PI_gt_3. split; [lra|nra].
  - inversion Hpos as [[E1 E2]]. rewrite E1, E2. by apply Hstay.
Qed.

(** X6: however long ago the last tick was, one tick moves a drone that is not
    under manual control by at most 6 metres over the ground, and a
    latitude within [-90, 90] stays within it. *)
Theorem tick_moves_at_most_six_metres now sel controls droneId drone physics :
  -90 <= lat physics <= 90 -> Some droneId <> sel ->
  let p' := (tickDrone now sel controls droneId drone physics).1 in
  0 <= getDist (lat physics) (lng physics) (lat p') (lng p') <= 6 /\
  -90 <= lat p' <= 90.
Proof.
  intros Hlat Hsel. cbv zeta.
  destruct (Drone.assignedRoute drone) as [route|] eqn:Hr.
  - destruct (tickDrone_effects now sel controls droneId drone physics route Hr)
      as (dt & p1 & tgt & effs1 & p2 & effs3 & Hdt & E1 & E3 & Et).
    rewrite Et. cbn [fst].
    rewrite manualControl_unselected in E3 by done.
    injection E3 as <- _.
    pose proof (stateMachine_frame dt droneId drone route
                  (set_lastTick physics now)) as Hs.
    rewrite E1 in Hs. cbv zeta in Hs. cbn [fst] in Hs.
    destruct Hs as (S1 & S2 & _).
    change (lat (set_lastTick physics now)) with (lat physics) in S1.
    change (lng (set_lastTick physics now)) with (lng physics) in S2.
    rewrite <- S1, <- S2. apply physicsMove_step; [by rewrite S1|].
    assert (dt <= 0.1) by (subst dt; apply Rmin_r).
    unfold SIM_SPEED_MULT. lra.
  - unfold tickDrone. rewrite Hr. cbn [fst]. rewrite getDist_same. lra.
Qed.

Lemma tick_moves_at_most_six_metres_witness :
  0 <= getDist (lat outboundPhysics) (lng outboundPhysics)
         (lat (tickDrone 99000 None ∅ "DRONE-1" runningDrone outboundPhysics).1)
         (lng (tickDrone 99000 None ∅ "DRONE-1" runningDrone outboundPhysics).1)
    <= 6 /\
  -90 <= lat (tickDrone 99000 None ∅ "DRONE-1" runningDrone outboundPhysics).1
    <= 90.
Proof.
  apply (tick_moves_at_most_six_metres 99000 None ∅ "DRONE-1"%string
           runningDrone outboundPhysics).
  - simpl. lra.
  - discriminate.
Defined.

(** ** The fleet under the effects of a tick *)

Lemma applyEffect_sameFleet e m : sameFleet m (applyEffect m e).
Proof.
  intros k. destruct e as [j st|j|j patch|? ?|? ?]; simpl; try done.
  - unfold updateDroneStatus. destruct (m !! j) as [dj|] eqn:E; [|done].
    destruct (decide (j = k)) as [->|Hne];
      [by rewrite lookup_insert_eq, E | by rewrite lookup_insert_ne].
  - unfold completeDroneTask. destruct (m !! j) as [dj|] eqn:E; [|done].
    destruct (decide (j = k)) as [->|Hne];
      [by rewrite lookup_insert_eq, E | by rewrite lookup_insert_ne].
  - unfold updateDroneTelemetry. destruct (m !! j) as [dj|] eqn:E; [|done].
    destruct (decide (j = k)) as [->|Hne];
      [by rewrite lookup_insert_eq, E | by rewrite lookup_insert_ne].
Qed.

Lemma sameFleet_trans m1 m2 m3 :
  sameFleet m1 m2 -> sameFleet m2 m3 -> sameFleet m1 m3.
Proof. intros H1 H2 k. by rewrite H2, H1. Qed.

Lemma applyEffects_sameFleet effs m : sameFleet m (applyEffects effs m).
Proof.
  unfold applyEffects. revert m.
  induction effs as [|e effs IH]; intros m; simpl; [done|].
  eapply sameFleet_trans; [apply applyEffect_sameFleet|apply IH].
Qed.

Lemma sameFleet_dom m m' : sameFleet m m' -> dom m' = dom m.
Proof.
  intros H. apply set_eq. intros k. rewrite !elem_of_dom.
  specialize (H k). rewrite <- !fmap_is_Some with (f := identity).
  by rewrite H.
Qed.

Lemma sameFleet_keyed m m' : sameFleet m m' -> keyed m -> keyed m'.
Proof.
  intros H Hk k d' Hd'. specialize (H k). rewrite Hd' in H.
  destruct (m !! k) as [d|] eqn:Ed; [|discriminate].
  simpl in H. specialize (Hk k d Ed). simpl in Hk.
  unfold identity in H. congruence.
Qed.

(** Effects addressed to other drones leave the record of a drone alone,
    and the record a drone ends with depends on its own record only. *)
Lemma applyEffect_foreign k e m :
  addressee e <> Some k -> applyEffect m e !! k = m !! k.
Proof.
  intros Ha. destruct e as [j st|j|j patch|? ?|? ?]; simpl in *; try done.
  - unfold updateDroneStatus. destruct (m !! j); [|done].
    rewrite lookup_insert_ne; [done|congruence].
  - unfold completeDroneTask. destruct (m !! j); [|done].
    rewrite lookup_insert_ne; [done|congruence].
  - unfold updateDroneTelemetry. destruct (m !! j); [|done].
    rewrite lookup_insert_ne; [done|congruence].
Qed.

Lemma applyEffects_foreign k effs m :
  Forall (fun e => addressee e <> Some k) effs ->
  applyEffects effs m !! k = m !! k.
Proof.
  unfold applyEffects. revert m.
  induction effs as [|e effs IH]; intros m H; simpl; [done|].
  inversion H; subst. rewrite IH by done. by apply applyEffect_foreign.
Qed.

Lemma applyEffect_local k e m1 m2 :
  m1 !! k = m2 !! k -> applyEffect m1 e !! k = applyEffect m2 e !! k.
Proof.
  intros H. destruct (decide (addressee e = Some k)) as [Ha|Ha].
  - destruct e as [j st|j|j patch|? ?|? ?]; simpl in *; try done;
      injection Ha as ->.
    + unfold updateDroneStatus. rewrite <- H.
      destruct (m1 !! k) eqn:E; [by rewrite !lookup_insert_eq|congruence].
    + unfold completeDroneTask. rewrite <- H.
      destruct (m1 !! k) eqn:E; [by rewrite !lookup_insert_eq|congruence].
    + unfold updateDroneTelemetry. rewrite <- H.
      destruct (m1 !! k) eqn:E; [by rewrite !lookup_insert_eq|congruence].
  - by rewrite !applyEffect_foreign.
Qed.

Lemma applyEffects_local k effs : forall m1 m2,
  m1 !! k = m2 !! k -> applyEffects effs m1 !! k = applyEffects effs m2 !! k.
Proof.
  unfold applyEffects.
  induction effs as [|e effs IH]; intros m1 m2 H; simpl; [done|].
  apply IH. by apply applyEffect_local.
Qed.

(** The effects of a drone's tick are addressed to the drone itself, when
    its record carries its key as id. *)
Lemma deliveryLanding_addressee dt drone physics :
  Forall (fun e => addressee e = None) (deliveryLanding dt drone physics).2.
Proof.
  unfold deliveryLanding. repeat case_decide; simpl;
    try (destruct (Drone.assignedTaskId drone); [case_match|]);
    repeat constructor.
Qed.

Lemma autoWaypoint_addressee dt drone route tgt0 physics :
  Forall (fun e => addressee e = None)
    (autoWaypoint dt drone route tgt0 physics).2.
Proof.
  unfold autoWaypoint.
  destruct (JS.index route _); [|constructor].
  repeat case_decide; simpl; try constructor.
  pose proof (deliveryLanding_addressee dt drone physics) as Hd.
  destruct (deliveryLanding dt drone physics). exact Hd.
Qed.

Lemma stateMachine_addressee dt droneId drone route physics :
  Forall (fun e => forall k, addressee e = Some k -> k = droneId)
    (stateMachine dt droneId drone route physics).2.
Proof.
  unfold stateMachine.
  destruct (armed physics); [|constructor].
  cbv zeta.
  repeat case_decide; simpl.
  all: try constructor.
  all: try match goal with
       | |- context [autoWaypoint ?a ?b ?c ?d ?e] =>
           pose proof (autoWaypoint_addressee a b c d e) as Ha;
           destruct (autoWaypoint a b c d e) as [[? ?] ?]; simpl in *
       end.
  all: try (destruct (isReturningHome _); simpl).
  all: repeat constructor; simpl; try congruence.
  all: try (eapply Forall_impl; [eassumption|]; simpl; intros; congruence).
Qed.

Lemma manualControl_addressee mult dt sel controls droneId drone physics :
  Forall (fun e => forall k, addressee e = Some k -> k = Drone.id drone)
    (manualControl mult dt sel controls droneId drone physics).2.
Proof.
  unfold manualControl.
  case_decide; [|constructor].
  cbv zeta.
  assert (He : Forall (fun e => forall k, addressee e = Some k ->
                                 k = Drone.id drone)
                 (modeOverride controls physics).2).
  { unfold modeOverride. destruct (anyControl controls); [case_decide|];
      simpl; repeat constructor; simpl; congruence. }
  destruct (modeOverride controls physics) as [p0 effs0].
  destruct (throttleYaw _ _ controls p0) as [p1 moved1].
  destruct (pitchRoll _ controls p1 moved1) as [p2 moved2].
  simpl in He. destruct moved2; simpl; [|done].
  apply Forall_app; split; [done|]. repeat constructor. simpl. congruence.
Qed.

Lemma tickDrone_addressee now sel controls droneId drone physics :
  Drone.id drone = droneId ->
  Forall (fun e => forall k, addressee e = Some k -> k = droneId)
    (tickDrone now sel controls droneId drone physics).2.
Proof.
  intros Hid.
  destruct (Drone.assignedRoute drone) as [route|] eqn:Hr.
  - destruct (tickDrone_effects now sel controls droneId drone physics route Hr)
      as (dt & p1 & tgt & effs1 & p2 & effs3 & _ & E1 & E3 & ->).
    simpl. apply Forall_app; split.
    + pose proof (stateMachine_addressee dt droneId drone route
                    (set_lastTick physics now)) as H. by rewrite E1 in H.
    + constructor; [simpl; congruence|].
      pose proof (manualControl_addressee SIM_SPEED_MULT dt sel controls droneId
                    drone (physicsMove SIM_SPEED_MULT dt tgt p1)) as H.
      rewrite E3, Hid in H. exact H.
  - unfold tickDrone. rewrite Hr. constructor.
Qed.

Lemma foldl_tickStep_foreign now sel controls k l : forall acc,
  k ∉ l.*1 -> Forall (fun kv => Drone.id kv.2 = kv.1) l ->
  exists more,
    (foldl (tickStep now sel controls) acc l).1 !! k = acc.1 !! k /\
    (foldl (tickStep now sel controls) acc l).2 = acc.2 ++ more /\
    Forall (fun e => addressee e <> Some k) more.
Proof.
  induction l as [|[j d] l IH]; intros acc Hk Hid; simpl.
  - exists []. by rewrite app_nil_r.
  - rewrite fmap_cons in Hk. apply not_elem_of_cons in Hk as [Hj Hl]. simpl in Hj.
    inversion Hid as [|? ? Hjd Hid']; subst. simpl in Hjd.
    destruct (IH (tickStep now sel controls acc (j, d)) Hl Hid')
      as (more & H1 & H2 & H3).
    unfold tickStep in *. simpl in *.
    destruct (acc.1 !! j) as [p|] eqn:Ej.
    + pose proof (tickDrone_addressee now sel controls j d p Hjd) as Ho.
      destruct (tickDrone now sel controls j d p) as [p' effs]. simpl in *.
      exists (effs ++ more). split; [|split].
      * rewrite H1. by rewrite lookup_insert_ne.
      * rewrite H2. by rewrite <- app_assoc.
      * apply Forall_app; split; [|done].
        eapply Forall_impl; [exact Ho|]. intros e He Ha.
        apply He in Ha. done.
    + by exists more.
Qed.

Lemma tick_at now w k d :
  keyed (drones w) -> drones w !! k = Some d ->
  dronePhysicsRef (tick now w).1 !! k = (stepAt now w k d).1 /\
  drones (tick now w).1 !! k
    = applyEffects (stepAt now w k d).2 (drones w) !! k.
Proof.
  intros Hkeyed Hd.
  rewrite tick_unfold. cbv zeta. cbn [fst snd drones dronePhysicsRef].
  pose proof (NoDup_fst_map_to_list (drones w)) as Hnd.
  assert (Hall : Forall (fun kv => Drone.id kv.2 = kv.1) (map_to_list (drones w))).
  { apply Forall_forall. intros [j dj] Hin. apply elem_of_map_to_list in Hin.
    by apply (Hkeyed j dj). }
  assert (Hin : (k, d) ∈ map_to_list (drones w)) by by apply elem_of_map_to_list.
  apply list_elem_of_split in Hin as (l1 & l2 & Hl).
  rewrite Hl in *. rewrite fmap_app, fmap_cons in Hnd. simpl in Hnd.
  apply NoDup_app in Hnd as (_ & Hd1 & Hnd2).
  apply NoDup_cons in Hnd2 as [Hk2 _].
  assert (Hk1 : k ∉ l1.*1).
  { intros Hin. apply (Hd1 k Hin). left. }
  apply Forall_app in Hall as [Hall1 Hall2].
  inversion Hall2 as [|? ? _ Hall2']; subst.
  rewrite foldl_app. simpl.
  destruct (foldl_tickStep_foreign now (selectedDroneId w) (activeControls w) k l1
              (dronePhysicsRef w, []) Hk1 Hall1) as (before & B1 & B2 & B3).
  simpl in B1, B2.
  set (acc1 := foldl (tickStep now (selectedDroneId w) (activeControls w))
                 (dronePhysicsRef w, []) l1) in *.
  destruct (foldl_tickStep_foreign now (selectedDroneId w) (activeControls w) k l2
              (tickStep now (selectedDroneId w) (activeControls w) acc1 (k, d))
              Hk2 Hall2')
    as (after & A1 & A2 & A3).
  rewrite A1, A2. unfold tickStep, stepAt. cbn [fst snd]. rewrite B1.
  destruct (dronePhysicsRef w !! k) as [p|] eqn:Ep.
  - destruct (tickDrone now (selectedDroneId w) (activeControls w) k d p)
      as [p' effs] eqn:Er. cbn [fst snd].
    rewrite lookup_insert_eq. split; [done|].
    rewrite B2. cbn [app]. rewrite !applyEffects_app.
    rewrite applyEffects_foreign by done.
    apply applyEffects_local. by apply applyEffects_foreign.
  - split; [done|]. rewrite B2. cbn [app]. rewrite applyEffects_app.
    rewrite applyEffects_foreign by done.
    change (applyEffects [] (drones w)) with (drones w).
    by apply applyEffects_foreign.
Qed.

Lemma tickStep_dom now sel controls acc kv :
  dom (tickStep now sel controls acc kv).1 = dom acc.1.
Proof.
  unfold tickStep. destruct (acc.1 !! kv.1) as [p|] eqn:E; [|done].
  destruct (tickDrone now sel controls kv.1 kv.2 p) as [p' effs]. cbn [fst].
  apply dom_insert_lookup_L. by exists p.
Qed.

Lemma foldl_tickStep_dom now sel controls l : forall acc,
  dom (foldl (tickStep now sel controls) acc l).1 = dom acc.1.
Proof.
  induction l as [|kv l IH]; intros acc; simpl; [done|].
  by rewrite IH, tickStep_dom.
Qed.

(** X7: A tick never adds or removes a drone or a physics record, and never
    changes the id, name, home or colour of a drone. *)
Theorem tick_keeps_the_fleet now w :
  sameFleet (drones w) (drones (tick now w).1) /\
  dom (drones (tick now w).1) = dom (drones w) /\
  dom (dronePhysicsRef (tick now w).1) = dom (dronePhysicsRef w).
Proof.
  rewrite tick_unfold. cbv zeta. cbn [fst drones dronePhysicsRef].
  split; [apply applyEffects_sameFleet|].
  split; [apply sameFleet_dom, applyEffects_sameFleet|].
  apply foldl_tickStep_dom.
Qed.

(** X8: A tick leaves a drone that has no route, or no physics record, as it
    is: neither its record nor its physics record changes. *)
Theorem tick_skips_drones_without_route now w k d :
  keyed (drones w) -> drones w !! k = Some d ->
  Drone.assignedRoute d = None \/ dronePhysicsRef w !! k = None ->
  drones (tick now w).1 !! k = Some d /\
  dronePhysicsRef (tick now w).1 !! k = dronePhysicsRef w !! k.
Proof.
  intros Hkeyed Hd Hskip.
  destruct (tick_at now w k d Hkeyed Hd) as [H1 H2].
  rewrite H1, H2. unfold stepAt.
  destruct (dronePhysicsRef w !! k) as [p|] eqn:Ep.
  - destruct Hskip as [Hr|?]; [|done].
    unfold tickDrone. rewrite Hr. cbn [fst snd]. done.
  - cbn [fst snd]. done.
Qed.

Lemma keyed_createInitialDrones : keyed createInitialDrones.
Proof.
  unfold keyed, createInitialDrones.
  repeat (apply map_Forall_insert_2; [reflexivity|]).
  apply map_Forall_empty.
Qed.

Lemma tick_skips_drones_without_route_witness :
  drones (tick 16 (initialWorld 0)).1 !! "DRONE-1"%string
    = Some (initialDrone "DRONE-1" "Drone 1" "#10b981") /\
  dronePhysicsRef (tick 16 (initialWorld 0)).1 !! "DRONE-1"%string
    = dronePhysicsRef (initialWorld 0) !! "DRONE-1"%string.
Proof.
  apply (tick_skips_drones_without_route 16 (initialWorld 0) "DRONE-1"%string
           (initialDrone "DRONE-1" "Drone 1" "#10b981")).
  - exact keyed_createInitialDrones.
  - unfold initialWorld, createInitialDrones. cbn [drones].
    apply lookup_insert_eq.
  - left. reflexivity.
Defined.

(** ** Telemetry *)

Lemma throttleYaw_still a y controls physics :
  (throttleYaw a y controls physics).2 = false ->
  throttleYaw a y controls physics = (physics, false).
Proof.
  unfold throttleYaw.
  destruct (ctl controls "up"); destruct (ctl controls "down");
  destruct (ctl controls "turnLeft"); destruct (ctl controls "turnRight");
  simpl; intros H; done.
Qed.

Lemma pitchRoll_still m controls physics moved :
  (pitchRoll m controls physics moved).2 = false ->
  moved = false /\
  let p' := (pitchRoll m controls physics moved).1 in
  lat p' = lat physics /\ lng p' = lng physics /\ alt p' = alt physics /\
  heading p' = heading physics /\ speed p' = speed physics.
Proof.
  unfold pitchRoll.
  destruct (ctl controls "forward"); destruct (ctl controls "backward");
  destruct (ctl controls "left"); destruct (ctl controls "right");
  simpl; intros H; done.
Qed.

Lemma modeOverride_logs controls physics :
  Forall (fun e => addressee e = None) (modeOverride controls physics).2 /\
  speed (modeOverride controls physics).1 = speed physics.
Proof.
  unfold modeOverride. destruct (anyControl controls); [case_decide|];
    simpl; split; repeat constructor.
Qed.

Lemma throttleYaw_gauges a y controls physics :
  let p' := (throttleYaw a y controls physics).1 in
  vSpeed p' = vSpeed physics /\ battery_rem p' = battery_rem physics /\
  armed p' = armed physics.
Proof.
  unfold throttleYaw.
  destruct (ctl controls "up"); destruct (ctl controls "down");
  destruct (ctl controls "turnLeft"); destruct (ctl controls "turnRight");
  simpl; tauto.
Qed.

(** What the manual control block publishes: nothing when no key moved the
    drone, its final position otherwise. *)
Lemma manualControl_report mult dt sel controls droneId drone pm :
  let r := manualControl mult dt sel controls droneId drone pm in
  vSpeed r.1 = vSpeed pm /\ battery_rem r.1 = battery_rem pm /\
  armed r.1 = armed pm /\
  exists logs,
    Forall (fun e => addressee e = None) logs /\
    (r.2 = logs /\ lat r.1 = lat pm /\ lng r.1 = lng pm /\ alt r.1 = alt pm /\
     heading r.1 = heading pm /\ speed r.1 = speed pm
     \/ r.2 = logs ++ [UpdateDroneTelemetry (Drone.id drone)
                         (manualTelemetry r.1)]
        /\ armed pm = true).
Proof.
  cbv zeta. unfold manualControl.
  case_decide as Hsel;
    [|cbn [fst snd]; split; [done|]; split; [done|]; split; [done|];
      exists []; split; [constructor|]; left; done].
  cbv zeta.
  pose proof (modeOverride_kinematics controls pm) as K0.
  pose proof (modeOverride_discrete controls pm) as D0.
  pose proof (modeOverride_logs controls pm) as [L0 S0].
  destruct (modeOverride controls pm) as [p0 effs0].
  match goal with |- context [throttleYaw ?a ?y controls p0] =>
    pose proof (throttleYaw_gauges a y controls p0) as G1;
    pose proof (throttleYaw_still a y controls p0) as T1;
    destruct (throttleYaw a y controls p0) as [p1 moved1] end.
  match goal with |- context [pitchRoll ?m controls p1 moved1] =>
    pose proof (pitchRoll_kinematics m controls p1 moved1) as K2;
    pose proof (pitchRoll_discrete m controls p1 moved1) as D2;
    pose proof (pitchRoll_still m controls p1 moved1) as T2;
    destruct (pitchRoll m controls p1 moved1) as [p2 moved2] end.
  cbv zeta in *. cbn [fst snd] in *.
  destruct K0 as (K01 & K02 & K03 & K04 & K05).
  destruct D0 as (D01 & _ & _ & D04 & _).
  destruct G1 as (G11 & G12 & G13).
  destruct K2 as (_ & _ & K23).
  destruct D2 as (D21 & _ & _ & D24 & _).
  destruct moved2; cbn [fst snd].
  - change (vSpeed (set_speed p2 45)) with (vSpeed p2).
    change (battery_rem (set_speed p2 45)) with (battery_rem p2).
    change (armed (set_speed p2 45)) with (armed p2).
    split; [by rewrite K23, G11, K05|].
    split; [by rewrite D24, G12, D04|].
    split; [by rewrite D21, G13, D01|].
    exists effs0. split; [done|]. right. split; [done|tauto].
  - destruct (T2 eq_refl) as (-> & T21 & T22 & T23 & T24 & T25).
    specialize (T1 eq_refl). injection T1 as ->.
    split; [by rewrite K23, K05|].
    split; [by rewrite D24, D04|].
    split; [by rewrite D21, D01|].
    exists effs0. split; [done|]. left.
    rewrite T21, T22, T23, T24, T25, K01, K02, K03, K04, S0. done.
Qed.

Lemma applyEffects_logs effs m :
  Forall (fun e => addressee e = None) effs -> applyEffects effs m = m.
Proof.
  unfold applyEffects. revert m.
  induction effs as [|e effs IH]; intros m H; simpl; [done|].
  inversion H as [|? ? He Hrest]; subst. rewrite <- (IH m Hrest) at 2.
  f_equal. destruct e; simpl in *; done.
Qed.

Lemma updateDroneTelemetry_lookup k patch m d :
  m !! k = Some d ->
  updateDroneTelemetry k patch m !! k =
    Some {| Drone.id := Drone.id d;
            Drone.name := Drone.name d;
            Drone.status := Drone.status d;
            Drone.currentLocation := Drone.currentLocation d;
            Drone.assignedTaskId := Drone.assignedTaskId d;
            Drone.assignedRoute := Drone.assignedRoute d;
            Drone.telemetry := DroneTelemetry.merge (Drone.telemetry d) patch;
            Drone.homeLocation := Drone.homeLocation d;
            Drone.color := Drone.color d |}.
Proof.
  intros H. unfold updateDroneTelemetry. rewrite H. apply lookup_insert_eq.
Qed.

(** X9: after a tick the telemetry of every drone that flew it mirrors its
    physics record: position, altitude, bearing, vertical speed and
    battery are the ones of the record, and the state is ENROUTE exactly
    when the motors are armed. *)
Theorem telemetry_mirrors_physics now w k d p :
  keyed (drones w) ->
  drones w !! k = Some d -> dronePhysicsRef w !! k = Some p ->
  is_Some (Drone.assignedRoute d) ->
  exists p' d',
    dronePhysicsRef (tick now w).1 !! k = Some p' /\
    drones (tick now w).1 !! k = Some d' /\
    DroneTelemetry.latitude (Drone.telemetry d') = lat p' /\
    DroneTelemetry.longitude (Drone.telemetry d') = lng p' /\
    DroneTelemetry.altitude (Drone.telemetry d') = alt p' /\
    DroneTelemetry.bearing (Drone.telemetry d') = heading p' /\
    DroneTelemetry.verticalSpeed (Drone.telemetry d') = vSpeed p' /\
    DroneTelemetry.battery (Drone.telemetry d') = battery_rem p' /\
    DroneTelemetry.status (Drone.telemetry d')
      = (if armed p' then ENROUTE else IDLE).
Proof.
  intros Hkeyed Hd Hp [route Hr].
  destruct (tick_at now w k d Hkeyed Hd) as [H1 H2].
  unfold stepAt in H1, H2. rewrite Hp in H1, H2. cbn [fst snd] in H1, H2.
  destruct (tickDrone_effects now (selectedDroneId w) (activeControls w) k d p
              route Hr)
    as (dt & p1 & tgt & effs1 & p2 & effs3 & _ & _ & E3 & Et).
  rewrite Et in H1, H2. cbn [fst snd] in H1, H2.
  set (pm := physicsMove SIM_SPEED_MULT dt tgt p1) in *.
  rewrite !applyEffects_app in H2.
  destruct (applyEffects_is_Some k effs1 (drones w)) as [d1 Hd1]; [by exists d|].
  set (m1 := applyEffects effs1 (drones w)) in *.
  change (applyEffects [UpdateDroneTelemetry k (basicTelemetry pm)] m1)
    with (updateDroneTelemetry k (basicTelemetry pm) m1) in H2.
  pose proof (updateDroneTelemetry_lookup k (basicTelemetry pm) m1 d1 Hd1) as Hd2.
  set (m2 := updateDroneTelemetry k (basicTelemetry pm) m1) in *.
  pose proof (manualControl_report SIM_SPEED_MULT dt (selectedDroneId w)
                (activeControls w) k d pm) as Hm.
  rewrite E3 in Hm. cbv zeta in Hm. cbn [fst snd] in Hm.
  destruct Hm as (V & B & A & logs & Hlogs & [Hcase|Hcase]).
  - destruct Hcase as (-> & C1 & C2 & C3 & C4 & _).
    rewrite (applyEffects_logs logs) in H2 by done. rewrite Hd2 in H2.
    eexists p2, _. split; [exact H1|]. split; [exact H2|].
    cbn. rewrite C1, C2, C3, C4, V, B, A. repeat split; reflexivity.
  - destruct Hcase as [-> Harmed].
    rewrite applyEffects_app, (applyEffects_logs logs) in H2 by done.
    assert (Hid : Drone.id d = k) by (by apply (Hkeyed k d)).
    rewrite Hid in H2.
    change (applyEffects [UpdateDroneTelemetry k (manualTelemetry p2)] m2)
      with (updateDroneTelemetry k (manualTelemetry p2) m2) in H2.
    rewrite (updateDroneTelemetry_lookup k (manualTelemetry p2) m2 _ Hd2) in H2.
    eexists p2, _. split; [exact H1|]. split; [exact H2|].
    cbn. rewrite V, B, A, Harmed. repeat split; reflexivity.
Qed.

Lemma assignTaskToDrone_sameFleet droneId task route prev :
  sameFleet prev (assignTaskToDrone droneId task route prev).
Proof.
  intros k. unfold assignTaskToDrone.
  destruct (prev !! droneId) as [dj|] eqn:E; [|done].
  destruct (decide (droneId = k)) as [->|Hne];
    [by rewrite lookup_insert_eq, E | by rewrite lookup_insert_ne].
Qed.

Lemma updateDroneLocation_sameFleet droneId location prev :
  sameFleet prev (updateDroneLocation droneId location prev).
Proof.
  intros k. unfold updateDroneLocation.
  destruct (prev !! droneId) as [dj|] eqn:E; [|done].
  destruct (decide (droneId = k)) as [->|Hne];
    [by rewrite lookup_insert_eq, E | by rewrite lookup_insert_ne].
Qed.

Lemma updateDroneRoute_sameFleet droneId route prev :
  sameFleet prev (updateDroneRoute droneId route prev).
Proof.
  intros k. unfold updateDroneRoute.
  destruct (prev !! droneId) as [dj|] eqn:E; [|done].
  destruct (decide (droneId = k)) as [->|Hne];
    [by rewrite lookup_insert_eq, E | by rewrite lookup_insert_ne].
Qed.

Lemma keyed_runningFleet : keyed runningFleet.
Proof.
  apply (sameFleet_keyed createInitialDrones);
    [|exact keyed_createInitialDrones].
  eapply sameFleet_trans; [apply assignTaskToDrone_sameFleet|].
  apply (applyEffect_sameFleet (UpdateDroneStatus "DRONE-1" running)).
Qed.

Lemma telemetry_mirrors_physics_witness :
  exists p' d',
    dronePhysicsRef (tick 1016 outboundWorld).1 !! "DRONE-1"%string = Some p' /\
    drones (tick 1016 outboundWorld).1 !! "DRONE-1"%string = Some d' /\
    DroneTelemetry.latitude (Drone.telemetry d') = lat p' /\
    DroneTelemetry.longitude (Drone.telemetry d') = lng p' /\
    DroneTelemetry.altitude (Drone.telemetry d') = alt p' /\
    DroneTelemetry.bearing (Drone.telemetry d') = heading p' /\
    DroneTelemetry.verticalSpeed (Drone.telemetry d') = vSpeed p' /\
    DroneTelemetry.battery (Drone.telemetry d') = battery_rem p' /\
    DroneTelemetry.status (Drone.telemetry d')
      = (if armed p' then ENROUTE else IDLE).
Proof.
  apply (telemetry_mirrors_physics 1016 outboundWorld "DRONE-1"%string
           runningDrone outboundPhysics).
  - exact keyed_runningFleet.
  - exact runningFleet_lookup.
  - apply lookup_singleton_eq.
  - cbn. eauto.
Defined.

(** X10: no operation of the drone context adds or removes a drone, or changes
    the id, name, home or colour of one: the map keeps its keys, and under
    each key a record with the same identity. *)
Theorem context_operations_keep_the_fleet prev :
  (forall droneId task route,
     sameFleet prev (assignTaskToDrone droneId task route prev)) /\
  (forall droneId status,
     sameFleet prev (updateDroneStatus droneId status prev)) /\
  (forall droneId location,
     sameFleet prev (updateDroneLocation droneId location prev)) /\
  (forall droneId telemetry,
     sameFleet prev (updateDroneTelemetry droneId telemetry prev)) /\
  (forall droneId route,
     sameFleet prev (updateDroneRoute droneId route prev)) /\
  (forall droneId,
     sameFleet prev (completeDroneTask droneId prev)
     /\ dom (completeDroneTask droneId prev) = dom prev).
Proof.
  split; [intros; apply assignTaskToDrone_sameFleet|].
  split; [intros droneId status;
          apply (applyEffect_sameFleet (UpdateDroneStatus droneId status))|].
  split; [intros; apply updateDroneLocation_sameFleet|].
  split; [intros droneId telemetry;
          apply (applyEffect_sameFleet (UpdateDroneTelemetry droneId telemetry))|].
  split; [intros; apply updateDroneRoute_sameFleet|].
  intros droneId.
  pose proof (applyEffect_sameFleet (CompleteDroneTask droneId) prev) as H.
  split; [exact H|by apply sameFleet_dom].
Qed.

(** ** The flight-mode state machine *)

(** *** A disarmed drone *)

Lemma tickDrone_disarmed now sel controls droneId drone physics route :
  Drone.assignedRoute drone = Some route -> armed physics = false ->
  tickDrone now sel controls droneId drone physics
    = (set_lastTick physics now,
       [UpdateDroneTelemetry droneId (basicTelemetry (set_lastTick physics now))]).
Proof.
  intros Hr Ha. unfold tickDrone. rewrite Hr. cbv zeta.
  unfold stateMachine. cbn [armed set_lastTick]. rewrite Ha.
  unfold physicsMove. cbn [armed set_lastTick]. rewrite Ha.
  unfold manualControl. cbn [armed set_lastTick]. rewrite Ha.
  rewrite decide_False by (intros [H _]; discriminate H).
  reflexivity.
Qed.

Lemma runTicks_disarmed inputs : forall physics,
  armed physics = false ->
  (exists t, (runTicks inputs physics).1 = set_lastTick physics t) /\
  Forall passive (runTicks inputs physics).2.
Proof.
  induction inputs as [|i rest IH]; intros physics Ha.
  - simpl. split; [|constructor]. exists (lastTick physics). by destruct physics.
  - cbn [runTicks fst snd].
    destruct (Drone.assignedRoute (ti_drone i)) as [route|] eqn:Hr.
    + rewrite (tickDrone_disarmed _ _ _ _ _ _ route Hr Ha). cbn [fst snd].
      destruct (IH (set_lastTick physics (ti_now i)) Ha) as [[t Ht] Hp].
      split.
      * exists t. rewrite Ht. reflexivity.
      * apply Forall_app; split; [|done]. repeat constructor.
    + assert (E : tickDrone (ti_now i) (ti_selected i) (ti_controls i)
                    (ti_droneId i) (ti_drone i) physics = (physics, []))
        by (unfold tickDrone; by rewrite Hr).
      rewrite E. cbn [fst snd app].
      destruct (IH physics Ha) as [[t Ht] Hp]. split; [by exists t|done].
Qed.

(** X11: A disarmed drone stays put: whatever its mode, its mission and the
    controls held, no run of ticks changes anything of its physics record
    but the time of the last tick, and nothing but telemetry is published
    for it. *)
Theorem disarmed_drone_stays_put inputs physics :
  armed physics = false ->
  (exists t, (runTicks inputs physics).1 = set_lastTick physics t) /\
  Forall passive (runTicks inputs physics).2.
Proof. apply runTicks_disarmed. Qed.

Lemma disarmed_drone_stays_put_witness :
  (exists t,
     (runTicks [laterTick 1016; laterTick 1032]
        (initialPhysics runningDrone 1000)).1
     = set_lastTick (initialPhysics runningDrone 1000) t) /\
  Forall passive
    (runTicks [laterTick 1016; laterTick 1032]
       (initialPhysics runningDrone 1000)).2.
Proof.
  apply (disarmed_drone_stays_put [laterTick 1016; laterTick 1032]
           (initialPhysics runningDrone 1000)).
  reflexivity.
Defined.

(** *** Landing that was not part of a return *)

Lemma tickDrone_plain_landing now sel controls droneId drone physics route :
  Drone.assignedRoute drone = Some route ->
  armed physics = true -> flightMode physics = LAND ->
  alt physics < 0.5 -> isReturningHome physics = false ->
  exists physics' patch,
    tickDrone now sel controls droneId drone physics
      = (physics', [UpdateDroneTelemetry droneId patch]) /\
    armed physics' = false /\ flightMode physics' = STABILIZE /\
    isReturningHome physics' = false /\
    deliveryWaitTime physics' = deliveryWaitTime physics /\
    activeWpIndex physics' = activeWpIndex physics.
Proof.
  intros Hr Ha Hm Halt Hret.
  unfold tickDrone. rewrite Hr. cbv zeta.
  unfold stateMachine. destruct physics; simpl in *; subst.
  cbv zeta. simpl.
  decide_all. simpl. unfold manualControl. simpl. decide_all.
  eexists _, _. split; [reflexivity|]. simpl. done.
Qed.

(** X12: A landing in LAND mode that is not the end of a return (the pilot
    chose LAND, or RTL was selected by hand) stops the motors and sets
    STABILIZE, but does not release the drone: its status, task and route
    stay as they were, and so does the waypoint index. *)
Theorem plain_landing_keeps_the_mission now w k d p :
  drones w !! k = Some d -> dronePhysicsRef w !! k = Some p ->
  is_Some (Drone.assignedRoute d) ->
  armed p = true -> flightMode p = LAND -> alt p < 0.5 ->
  isReturningHome p = false ->
  exists p' d',
    dronePhysicsRef (tick now w).1 !! k = Some p' /\
    drones (tick now w).1 !! k = Some d' /\
    armed p' = false /\ flightMode p' = STABILIZE /\
    activeWpIndex p' = activeWpIndex p /\
    missionFields d' = missionFields d.
Proof.
  intros Hd Hp [route Hr] Ha Hm Halt Hret.
  destruct (tick_focus now w k d p Hd Hp) as (before & after & F1 & F2 & F3 & F4).
  destruct (tickDrone_plain_landing now (selectedDroneId w) (activeControls w)
              k d p route Hr Ha Hm Halt Hret)
    as (p' & patch & Et & G1 & G2 & G3 & G4 & G5).
  rewrite Et in F1, F2. cbn [fst snd] in F1, F2.
  assert (Hfields : missionFields <$> (drones (tick now w).1 !! k)
                    = Some (missionFields d)).
  { pose proof F2 as F2'. rewrite tick_unfold in F2' |- *.
    cbn [fst snd drones] in F2' |- *. rewrite F2'.
    rewrite applyEffects_untouched; [by rewrite Hd|].
    repeat (apply Forall_app; split); try done.
    repeat constructor. simpl. tauto. }
  destruct (drones (tick now w).1 !! k) as [d'|] eqn:Ed'; [|discriminate].
  exists p', d'. split; [exact F1|]. split; [done|].
  split; [exact G1|]. split; [exact G2|]. split; [exact G5|].
  simpl in Hfields. congruence.
Qed.

(** *** The start of a mission *)

Lemma autoWaypoint_index dt drone route tgt0 physics :
  let p' := (autoWaypoint dt drone route tgt0 physics).1.1 in
  activeWpIndex p' = activeWpIndex physics
  \/ (0 <= activeWpIndex physics < Z.of_nat (length route) - 1)%Z
     /\ activeWpIndex p' = (activeWpIndex physics + 1)%Z.
Proof.
  unfold autoWaypoint.
  destruct (JS.index route (activeWpIndex physics)) eqn:Ei; [|simpl; tauto].
  apply index_Some_nonneg in Ei as [Hi _].
  pose proof (deliveryLanding_frame dt drone physics) as Hd.
  repeat case_decide; simpl; try tauto;
    destruct (deliveryLanding dt drone physics); simpl in *; tauto.
Qed.

Lemma stateMachine_index dt droneId drone route physics :
  let p' := (stateMachine dt droneId drone route physics).1.1 in
  activeWpIndex p' = (-1)%Z
  \/ activeWpIndex p' = activeWpIndex physics
  \/ (0 <= activeWpIndex physics < Z.of_nat (length route) - 1)%Z
     /\ activeWpIndex p' = (activeWpIndex physics + 1)%Z
  \/ activeWpIndex physics = (-1)%Z /\ (0 < length route)%nat
     /\ (activeWpIndex p' = 0%Z
         \/ (1 < length route)%nat /\ activeWpIndex p' = 1%Z).
Proof.
  unfold stateMachine.
  destruct (armed physics); [|simpl; tauto].
  cbv zeta.
  case_decide as Hauto.
  - destruct Hauto as [_ Hlen].
    case_decide as Hstart;
      match goal with
      | |- context [autoWaypoint ?a ?b ?c ?d ?e] =>
          pose proof (autoWaypoint_index a b c d e) as Ha;
          destruct (autoWaypoint a b c d e) as [[? ?] ?]
      end;
      cbv zeta in Ha; cbn [fst snd activeWpIndex set_activeWpIndex
                           set_battery_v set_battery_rem] in *.
    + right. right. right. split; [done|]. split; [done|].
      destruct Ha as [Ha|[Hr Ha]]; [tauto|]. right. split; [lia|]. lia.
    + destruct Ha as [Ha|[Hr Ha]]; tauto.
  - repeat case_decide; simpl; try tauto;
      destruct (isReturningHome physics); simpl; tauto.
Qed.

Lemma tickDrone_index now sel controls droneId drone physics route :
  Drone.assignedRoute drone = Some route ->
  let p' := (tickDrone now sel controls droneId drone physics).1 in
  activeWpIndex p' = (-1)%Z
  \/ activeWpIndex p' = activeWpIndex physics
  \/ (0 <= activeWpIndex physics < Z.of_nat (length route) - 1)%Z
     /\ activeWpIndex p' = (activeWpIndex physics + 1)%Z
  \/ activeWpIndex physics = (-1)%Z /\ (0 < length route)%nat
     /\ (activeWpIndex p' = 0%Z
         \/ (1 < length route)%nat /\ activeWpIndex p' = 1%Z).
Proof.
  intros Hr.
  destruct (tickDrone_effects now sel controls droneId drone physics route Hr)
    as (dt & p1 & tgt & effs1 & p2 & effs3 & Hdt & E1 & E3 & Et).
  cbv zeta. rewrite Et. cbn [fst].
  pose proof (stateMachine_index dt droneId drone route
                (set_lastTick physics now)) as Hs.
  rewrite E1 in Hs. cbv zeta in Hs. cbn [fst] in Hs.
  change (activeWpIndex (set_lastTick physics now))
    with (activeWpIndex physics) in Hs.
  pose proof (physicsMove_discrete SIM_SPEED_MULT dt tgt p1) as Hp.
  cbv zeta in Hp. destruct Hp as (_ & _ & I3 & _).
  pose proof (manualControl_discrete SIM_SPEED_MULT dt sel controls droneId
                drone (physicsMove SIM_SPEED_MULT dt tgt p1)) as Hmc.
  rewrite E3 in Hmc. cbv zeta in Hmc. cbn [fst] in Hmc.
  destruct Hmc as (_ & I2 & _).
  rewrite I2, I3. exact Hs.
Qed.

(** X13: the waypoint index never leaves the route: starting at [-1] or at an
    element of the route, a tick leaves it at [-1] or at an element of the
    route, and it never goes back except to [-1], nor forward by more
    than one waypoint beyond the start of the route. *)
Theorem waypoint_index_stays_in_route now sel controls droneId drone physics
    route :
  Drone.assignedRoute drone = Some route ->
  indexValid route (activeWpIndex physics) ->
  let i' := activeWpIndex (tickDrone now sel controls droneId drone physics).1 in
  indexValid route i' /\
  (i' = (-1)%Z
   \/ (activeWpIndex physics <= i' <= Z.max (activeWpIndex physics) 0 + 1)%Z).
Proof.
  intros Hr Hv. cbv zeta.
  pose proof (tickDrone_index now sel controls droneId drone physics route Hr)
    as Hi. cbv zeta in Hi. unfold indexValid in *.
  destruct Hi as [Hi|[Hi|[[Hr' Hi]|(Hs & Hl & [Hi|[Hl' Hi]])]]];
    rewrite Hi; lia.
Qed.

Lemma waypoint_index_stays_in_route_witness :
  indexValid sampleRoute
    (activeWpIndex (tickDrone 1016 None ∅ "DRONE-1" runningDrone
                      outboundPhysics).1) /\
  (activeWpIndex (tickDrone 1016 None ∅ "DRONE-1" runningDrone
                    outboundPhysics).1 = (-1)%Z
   \/ (activeWpIndex outboundPhysics
       <= activeWpIndex (tickDrone 1016 None ∅ "DRONE-1" runningDrone
                           outboundPhysics).1
       <= Z.max (activeWpIndex outboundPhysics) 0 + 1)%Z).
Proof.
  apply (waypoint_index_stays_in_route 1016 None ∅ "DRONE-1"%string
           runningDrone outboundPhysics sampleRoute).
  - reflexivity.
  - unfold indexValid. simpl. lia.
Defined.

Lemma plain_landing_keeps_the_mission_witness :
  exists p' d',
    dronePhysicsRef
      (tick 1016
         (mkWorld runningFleet
            {["DRONE-1"%string :=
                flightPhysics 18.5304 73.8767 0.2 LAND 4 0 false 90]}
            None ∅)).1 !! "DRONE-1"%string = Some p' /\
    drones
      (tick 1016
         (mkWorld runningFleet
            {["DRONE-1"%string :=
                flightPhysics 18.5304 73.8767 0.2 LAND 4 0 false 90]}
            None ∅)).1 !! "DRONE-1"%string = Some d' /\
    armed p' = false /\ flightMode p' = STABILIZE /\
    activeWpIndex p'
      = activeWpIndex (flightPhysics 18.5304 73.8767 0.2 LAND 4 0 false 90) /\
    missionFields d' = missionFields runningDrone.
Proof.
  apply (plain_landing_keeps_the_mission 1016
           (mkWorld runningFleet
              {["DRONE-1"%string :=
                  flightPhysics 18.5304 73.8767 0.2 LAND 4 0 false 90]}
              None ∅)
           "DRONE-1"%string runningDrone
           (flightPhysics 18.5304 73.8767 0.2 LAND 4 0 false 90)).
  - exact runningFleet_lookup.
  - apply lookup_singleton_eq.
  - cbn. eauto.
  - reflexivity.
  - reflexivity.
  - cbn. lra.
  - reflexivity.
Defined.

Lemma autoWaypoint_untouched dt drone route tgt0 physics k :
  Forall (fun e => ~ touches k e) (autoWaypoint dt drone route tgt0 physics).2.
Proof.
  eapply Forall_impl; [apply autoWaypoint_addressee|].
  intros e He Ht. destruct e; simpl in *; done.
Qed.

Lemma stateMachine_start dt droneId drone route physics :
  armed physics = true -> flightMode physics = AUTO ->
  activeWpIndex physics = (-1)%Z -> (0 < length route)%nat ->
  let r := stateMachine dt droneId drone route physics in
  exists rest,
    r.2 = UpdateDroneStatus droneId running :: rest /\
    Forall (fun e => ~ touches droneId e) rest /\
    (activeWpIndex r.1.1 = 0%Z \/ activeWpIndex r.1.1 = 1%Z).
Proof.
  intros Ha Hm Hi Hl. cbv zeta. unfold stateMachine. rewrite Ha. cbv zeta.
  rewrite decide_True by (cbn; done).
  rewrite decide_True by (cbn; done).
  match goal with
  | |- context [autoWaypoint ?a ?b ?c ?d ?e] =>
      pose proof (autoWaypoint_index a b c d e) as Hidx;
      pose proof (autoWaypoint_untouched a b c d e droneId) as Hun;
      destruct (autoWaypoint a b c d e) as [[? ?] ?]
  end.
  cbv zeta in Hidx. cbn [fst snd activeWpIndex set_activeWpIndex] in *.
  eexists. split; [reflexivity|]. split.
  - constructor; [simpl; tauto|done].
  - destruct Hidx as [->|[_ ->]]; [by left|by right].
Qed.

(** X14: the first tick of an armed drone in AUTO whose mission has not started
    starts it: the waypoint index leaves [-1] and the drone is marked
    running, its task and route being kept. *)
Theorem mission_start_marks_drone_running now w k d p route :
  drones w !! k = Some d -> dronePhysicsRef w !! k = Some p ->
  Drone.assignedRoute d = Some route -> (0 < length route)%nat ->
  armed p = true -> flightMode p = AUTO -> activeWpIndex p = (-1)%Z ->
  exists p' d',
    dronePhysicsRef (tick now w).1 !! k = Some p' /\
    drones (tick now w).1 !! k = Some d' /\
    (activeWpIndex p' = 0%Z \/ activeWpIndex p' = 1%Z) /\
    Drone.status d' = running /\
    Drone.assignedTaskId d' = Drone.assignedTaskId d /\
    Drone.assignedRoute d' = Some route.
Proof.
  intros Hd Hp Hr Hl Ha Hm Hi.
  destruct (tick_focus now w k d p Hd Hp) as (before & after & F1 & F2 & F3 & F4).
  destruct (tickDrone_effects now (selectedDroneId w) (activeControls w) k d p
              route Hr)
    as (dt & p1 & tgt & effs1 & p2 & effs3 & _ & E1 & E3 & Et).
  pose proof (stateMachine_start dt k d route (set_lastTick p now) Ha Hm Hi Hl)
    as Hs.
  rewrite E1 in Hs. cbv zeta in Hs. cbn [fst snd] in Hs.
  destruct Hs as (rest & -> & Hrest & Hidx).
  rewrite Et in F1, F2. cbn [fst snd] in F1, F2.
  pose proof (physicsMove_discrete SIM_SPEED_MULT dt tgt p1) as Hpm.
  cbv zeta in Hpm. destruct Hpm as (_ & _ & I3 & _).
  pose proof (manualControl_discrete SIM_SPEED_MULT dt (selectedDroneId w)
                (activeControls w) k d (physicsMove SIM_SPEED_MULT dt tgt p1))
    as Hmc.
  pose proof (manualControl_passive SIM_SPEED_MULT dt (selectedDroneId w)
                (activeControls w) k d (physicsMove SIM_SPEED_MULT dt tgt p1))
    as Hpass.
  rewrite E3 in Hmc, Hpass. cbv zeta in Hmc. cbn [fst snd] in Hmc, Hpass.
  destruct Hmc as (_ & I2 & _).
  assert (Hfields : missionFields <$> (drones (tick now w).1 !! k)
                    = Some (running, Drone.assignedTaskId d, Some route)).
  { pose proof F2 as F2'. rewrite tick_unfold in F2' |- *.
    cbn [fst snd drones] in F2' |- *. rewrite F2'.
    rewrite !applyEffects_app.
    rewrite (applyEffects_untouched k after) by done.
    set (m0 := applyEffects before (drones w)).
    rewrite (applyEffects_untouched k effs3)
      by (eapply Forall_impl; [exact Hpass|]; intros e; apply passive_untouched).
    rewrite (applyEffects_untouched k [_]) by (repeat constructor; simpl; tauto).
    change (applyEffects (UpdateDroneStatus k running :: rest) m0)
      with (applyEffects rest (updateDroneStatus k running m0)).
    rewrite (applyEffects_untouched k rest) by done.
    destruct (applyEffects_is_Some k before (drones w)) as [d0 Hd0];
      [by exists d|].
    pose proof (applyEffects_untouched k before (drones w) F3) as Hsame.
    rewrite Hd0, Hd in Hsame. simpl in Hsame. fold m0 in Hd0.
    rewrite (updateDroneStatus_lookup k running m0 d0 Hd0).
    unfold missionFields in Hsame |- *. cbn in Hsame |- *.
    injection Hsame as _ Ht Hrt. rewrite Ht, Hrt, Hr. reflexivity. }
  destruct (drones (tick now w).1 !! k) as [d'|] eqn:Ed'; [|discriminate].
  exists p2, d'. split; [exact F1|]. split; [done|].
  split; [by rewrite I2, I3|].
  simpl in Hfields. unfold missionFields in Hfields.
  split; [congruence|]. split; congruence.
Qed.

Lemma mission_start_marks_drone_running_witness :
  exists p' d',
    dronePhysicsRef
      (tick 1016
         (mkWorld dispatchedFleet
            {["DRONE-1"%string :=
                flightPhysics 18.5204 73.8567 0 AUTO (-1) 0 false 100]}
            None ∅)).1 !! "DRONE-1"%string = Some p' /\
    drones
      (tick 1016
         (mkWorld dispatchedFleet
            {["DRONE-1"%string :=
                flightPhysics 18.5204 73.8567 0 AUTO (-1) 0 false 100]}
            None ∅)).1 !! "DRONE-1"%string = Some d' /\
    (activeWpIndex p' = 0%Z \/ activeWpIndex p' = 1%Z) /\
    Drone.status d' = running /\
    Drone.assignedTaskId d' = Drone.assignedTaskId dispatchedDrone /\
    Drone.assignedRoute d' = Some sampleRoute.
Proof.
  apply (mission_start_marks_drone_running 1016
           (mkWorld dispatchedFleet
              {["DRONE-1"%string :=
                  flightPhysics 18.5204 73.8567 0 AUTO (-1) 0 false 100]}
              None ∅)
           "DRONE-1"%string dispatchedDrone
           (flightPhysics 18.5204 73.8567 0 AUTO (-1) 0 false 100) sampleRoute).
  - exact dispatchedFleet_lookup.
  - apply lookup_singleton_eq.
  - reflexivity.
  - cbn. lia.
  - reflexivity.
  - reflexivity.
  - reflexivity.
Defined.

(** *** The start of the return *)

Lemma deliveryLanding_to_rtl dt drone physics :
  flightMode physics = AUTO ->
  flightMode (deliveryLanding dt drone physics).1 = RTL ->
  isReturningHome physics = false /\ deliveryWaitTime physics >= 3 /\
  isReturningHome (deliveryLanding dt drone physics).1 = true /\
  armed (deliveryLanding dt drone physics).1 = true.
Proof.
  intros Hm. unfold deliveryLanding.
  repeat case_decide; cbn; intros Hrtl; try congruence; tauto.
Qed.

Lemma autoWaypoint_to_rtl dt drone route tgt0 physics :
  flightMode physics = AUTO ->
  let p' := (autoWaypoint dt drone route tgt0 physics).1.1 in
  flightMode p' = RTL ->
  alt physics < 0.5 /\
  isReturningHome physics = false /\ deliveryWaitTime physics >= 3 /\
  isReturningHome p' = true /\ armed p' = true.
Proof.
  intros Hm. cbv zeta. unfold autoWaypoint.
  destruct (JS.index route (activeWpIndex physics)); [|cbn; congruence].
  pose proof (deliveryLanding_to_rtl dt drone physics Hm) as Hd.
  repeat case_decide; cbn; try congruence.
  destruct (deliveryLanding dt drone physics). cbn in *. tauto.
Qed.

Lemma stateMachine_to_rtl dt droneId drone route physics :
  flightMode physics = AUTO ->
  let p' := (stateMachine dt droneId drone route physics).1.1 in
  flightMode p' = RTL ->
  armed physics = true /\ alt physics < 0.5 /\
  isReturningHome physics = false /\ deliveryWaitTime physics >= 3 /\
  isReturningHome p' = true /\ armed p' = true.
Proof.
  intros Hm. cbv zeta. unfold stateMachine.
  destruct (armed physics) eqn:Ea; [|cbn; congruence].
  cbv zeta.
  repeat case_decide.
  all: try match goal with
       | |- context [autoWaypoint ?a ?b ?c ?d ?e] =>
           pose proof (autoWaypoint_to_rtl a b c d e) as Ha;
           destruct (autoWaypoint a b c d e) as [[? ?] ?];
           cbv zeta in Ha; cbn in Ha |- *; intros Hrtl;
           specialize (Ha Hm Hrtl); tauto
       end.
  all: cbn in *; try congruence.
  all: destruct (isReturningHome physics); cbn; congruence.
Qed.

(** X15: only a completed wait starts the return: when a tick takes a drone
    from AUTO to RTL, the drone was armed and on the ground, had not been
    returning, and had waited 3 seconds or more; it ends the tick armed
    and returning home. *)
Theorem return_starts_only_after_the_wait now sel controls droneId drone
    physics :
  flightMode physics = AUTO ->
  let p' := (tickDrone now sel controls droneId drone physics).1 in
  flightMode p' = RTL ->
  armed physics = true /\ alt physics < 0.5 /\
  isReturningHome physics = false /\ deliveryWaitTime physics >= 3 /\
  isReturningHome p' = true /\ armed p' = true.
Proof.
  intros Hm. cbv zeta.
  destruct (Drone.assignedRoute drone) as [route|] eqn:Hr;
    [|unfold tickDrone; rewrite Hr; cbn; congruence].
  destruct (tickDrone_effects now sel controls droneId drone physics route Hr)
    as (dt & p1 & tgt & effs1 & p2 & effs3 & Hdt & E1 & E3 & Et).
  rewrite Et. cbn [fst].
  pose proof (stateMachine_to_rtl dt droneId drone route
                (set_lastTick physics now) Hm) as Hs.
  rewrite E1 in Hs. cbv zeta in Hs. cbn [fst] in Hs.
  pose proof (physicsMove_discrete SIM_SPEED_MULT dt tgt p1) as Hp.
  cbv zeta in Hp. destruct Hp as (A3 & M3 & _ & _ & R3 & _).
  pose proof (manualControl_discrete SIM_SPEED_MULT dt sel controls droneId
                drone (physicsMove SIM_SPEED_MULT dt tgt p1)) as Hmc.
  rewrite E3 in Hmc. cbv zeta in Hmc. cbn [fst] in Hmc.
  destruct Hmc as (A2 & _ & _ & _ & _ & _ & [[M2 R2]|[M2 R2]]);
    intros Hrtl; [|congruence].
  rewrite M2, M3 in Hrtl. specialize (Hs Hrtl).
  rewrite A2, A3, R2, R3. exact Hs.
Qed.

Lemma return_starts_only_after_the_wait_witness :
  armed (set_deliveryWaitTime poleWaitingPhysics 3) = true /\
  alt (set_deliveryWaitTime poleWaitingPhysics 3) < 0.5 /\
  isReturningHome (set_deliveryWaitTime poleWaitingPhysics 3) = false /\
  deliveryWaitTime (set_deliveryWaitTime poleWaitingPhysics 3) >= 3 /\
  isReturningHome
    (tickDrone 1100 (Some "DRONE-1"%string) ∅ "DRONE-1" poleDrone
       (set_deliveryWaitTime poleWaitingPhysics 3)).1 = true /\
  armed
    (tickDrone 1100 (Some "DRONE-1"%string) ∅ "DRONE-1" poleDrone
       (set_deliveryWaitTime poleWaitingPhysics 3)).1 = true.
Proof.
  apply (return_starts_only_after_the_wait 1100 (Some "DRONE-1"%string) ∅
           "DRONE-1"%string poleDrone
           (set_deliveryWaitTime poleWaitingPhysics 3)).
  - reflexivity.
  - assert (Horb : poleOrbit (set_deliveryWaitTime poleWaitingPhysics 3))
      by (repeat split).
    destruct (pole_tick _ Horb) as (_ & _ & _ & HC).
    cbv zeta in HC. unfold tickPhysics, poleInput in HC.
    cbn [ti_now ti_selected ti_controls ti_droneId ti_drone] in HC.
    replace (lastTick (set_deliveryWaitTime poleWaitingPhysics 3) + 100)
      with 1100 in HC by (cbn; lra).
    apply HC. cbn. lra.
Defined.

(** *** Manual override *)

(** X16: the manual override is not undone: once [handleManualControl] has
    taken the selected drone out of AUTO or RTL, releasing the control
    leaves it in GUIDED, and no run of ticks brings it back to AUTO or RTL
    or sets [isReturningHome] again. *)
Theorem manual_override_is_not_resumed action w sel physics :
  selectedDroneId w = Some sel -> JS.truthy (Some sel) = true ->
  dronePhysicsRef w !! sel = Some physics ->
  flightMode physics = AUTO \/ flightMode physics = RTL ->
  exists physics',
    dronePhysicsRef
      (handleManualControl action false
         (handleManualControl action true w).1).1 !! sel = Some physics' /\
    flightMode physics' = GUIDED /\
    forall inputs,
      flightMode (runPhysics inputs physics') <> AUTO /\
      flightMode (runPhysics inputs physics') <> RTL /\
      isReturningHome (runPhysics inputs physics') = false.
Proof.
  intros Hsel Ht Hp Hm.
  exists (manualOverride physics).
  split; [|split; [reflexivity|]].
  - unfold handleManualControl at 1. cbn [dronePhysicsRef fst].
    by apply handleManualControl_override.
  - intros inputs. apply runPhysics_manual_modes; cbn; congruence.
Qed.

Lemma manual_override_is_not_resumed_witness :
  exists physics',
    dronePhysicsRef
      (handleManualControl "forward" false
         (handleManualControl "forward" true rtlArrivalWorld).1).1
      !! "DRONE-1"%string = Some physics' /\
    flightMode physics' = GUIDED /\
    forall inputs,
      flightMode (runPhysics inputs physics') <> AUTO /\
      flightMode (runPhysics inputs physics') <> RTL /\
      isReturningHome (runPhysics inputs physics') = false.
Proof.
  apply (manual_override_is_not_resumed "forward"%string rtlArrivalWorld
           "DRONE-1"%string rtlArrivalPhysics).
  - reflexivity.
  - reflexivity.
  - apply lookup_singleton_eq.
  - right. reflexivity.
Defined.

(** ** Fleet queries *)

Lemma droneValues_cons k order drones :
  droneValues (k :: order) drones
  = match drones !! k with
    | Some d => d :: droneValues order drones
    | None => droneValues order drones
    end.
Proof. reflexivity. Qed.

(** The first record, in the order of the map, that satisfies a test. *)
Lemma find_droneValues (P : Drone.t -> bool) order drones :
  match List.find P (droneValues order drones) with
  | Some d =>
      P d = true /\
      exists before k after,
        order = before ++ k :: after /\ drones !! k = Some d /\
        forall k' d', k' ∈ before -> drones !! k' = Some d' -> P d' = false
  | None =>
      forall k d, k ∈ order -> drones !! k = Some d -> P d = false
  end.
Proof.
  induction order as [|k order IH].
  - simpl. intros k d Hk. by apply elem_of_nil in Hk.
  - rewrite droneValues_cons.
    destruct (drones !! k) as [dk|] eqn:Ek.
    + simpl. destruct (P dk) eqn:EP.
      * split; [done|]. exists [], k, order. split; [done|]. split; [done|].
        intros k' d' Hk'. by apply elem_of_nil in Hk'.
      * destruct (List.find P (droneValues order drones)) as [d|].
        -- destruct IH as (HP & before & j & after & -> & Hj & Hbefore).
           split; [done|]. exists (k :: before), j, after.
           split; [done|]. split; [done|].
           intros k' d' Hk' Hd'. apply elem_of_cons in Hk' as [->|Hk'].
           ++ congruence.
           ++ by apply (Hbefore k' d').
        -- intros k' d' Hk' Hd'. apply elem_of_cons in Hk' as [->|Hk'].
           ++ congruence.
           ++ by apply (IH k' d').
    + destruct (List.find P (droneValues order drones)) as [d|].
      * destruct IH as (HP & before & j & after & -> & Hj & Hbefore).
        split; [done|]. exists (k :: before), j, after.
        split; [done|]. split; [done|].
        intros k' d' Hk' Hd'. apply elem_of_cons in Hk' as [->|Hk'].
        -- congruence.
        -- by apply (Hbefore k' d').
      * intros k' d' Hk' Hd'. apply elem_of_cons in Hk' as [->|Hk'].
        -- congruence.
        -- by apply (IH k' d').
Qed.

Lemma getAvailableDrone_Some order drones d :
  getAvailableDrone order drones = Some d ->
  Drone.status d = idle /\
  exists before k after,
    order = before ++ k :: after /\ drones !! k = Some d /\
    forall k' d', k' ∈ before -> drones !! k' = Some d' ->
                  Drone.status d' <> idle.
Proof.
  intros H. unfold getAvailableDrone in H.
  pose proof (find_droneValues
                (fun drone => bool_decide (Drone.status drone = idle))
                order drones) as Hf.
  rewrite H in Hf. destruct Hf as (HP & before & k & after & Ho & Hk & Hb).
  apply bool_decide_eq_true in HP. split; [done|].
  exists before, k, after. split; [done|]. split; [done|].
  intros k' d' Hk' Hd'. specialize (Hb k' d' Hk' Hd').
  by apply bool_decide_eq_false in Hb.
Qed.

Lemma getAvailableDrone_None order drones :
  getAvailableDrone order drones = None <->
  forall k d, k ∈ order -> drones !! k = Some d -> Drone.status d <> idle.
Proof.
  unfold getAvailableDrone.
  pose proof (find_droneValues
                (fun drone => bool_decide (Drone.status drone = idle))
                order drones) as Hf.
  destruct (List.find _ (droneValues order drones)) as [d|].
  - destruct Hf as (HP & before & k & after & -> & Hk & _).
    apply bool_decide_eq_true in HP. split; [done|].
    intros H. exfalso. apply (H k d); [|done|done].
    apply elem_of_app. right. left.
  - split; [|done]. intros _ k d Hk Hd. specialize (Hf k d Hk Hd).
    by apply bool_decide_eq_false in Hf.
Qed.

(** X17: [getAvailableDrone] returns the first idle drone in the order of the
    map: the drone it returns is idle and every drone before it is not,
    and it returns [null] exactly when no drone is idle. *)
Theorem getAvailableDrone_first_idle order drones :
  (getAvailableDrone order drones = None <->
   forall k d, k ∈ order -> drones !! k = Some d -> Drone.status d <> idle) /\
  (forall d, getAvailableDrone order drones = Some d ->
     Drone.status d = idle /\
     exists before k after,
       order = before ++ k :: after /\ drones !! k = Some d /\
       forall k' d', k' ∈ before -> drones !! k' = Some d' ->
                     Drone.status d' <> idle).
Proof.
  split; [apply getAvailableDrone_None|apply getAvailableDrone_Some].
Qed.

Lemma listsKeys_createInitialDrones : listsKeys droneOrder createInitialDrones.
Proof.
  split.
  - unfold droneOrder. repeat (apply NoDup_cons; split;
      [rewrite ?elem_of_cons, elem_of_nil; intros H;
       repeat (destruct H as [H|H]; [discriminate H|]); exact H|]).
    apply NoDup_nil_2.
  - intros k. unfold createInitialDrones, droneOrder.
    rewrite !elem_of_cons, elem_of_nil.
    rewrite !lookup_insert_is_Some, lookup_empty, is_Some_alt.
    split.
    + intros H. repeat (destruct H as [H|H]; [subst k; tauto|]). done.
    + intros H. repeat (destruct H as [H|[_ H]]; [subst k; tauto|]). done.
Qed.

Lemma listsKeys_sameFleet order m m' :
  sameFleet m m' -> listsKeys order m -> listsKeys order m'.
Proof.
  intros Hs [Hnd Hk]. split; [done|]. intros k. rewrite Hk.
  specialize (Hs k). rewrite <- !fmap_is_Some with (f := identity).
  by rewrite Hs.
Qed.

(** *** Looking a drone up by its task *)

Lemma getDroneByTaskId_Some order drones taskId d :
  getDroneByTaskId order drones taskId = Some d ->
  Drone.assignedTaskId d = Some taskId /\
  exists k, k ∈ order /\ drones !! k = Some d.
Proof.
  intros H. unfold getDroneByTaskId in H.
  pose proof (find_droneValues
                (fun drone => bool_decide (Drone.assignedTaskId drone = Some taskId))
                order drones) as Hf.
  rewrite H in Hf. destruct Hf as (HP & before & k & after & -> & Hk & _).
  apply bool_decide_eq_true in HP. split; [done|].
  exists k. split; [|done]. apply elem_of_app. right. left.
Qed.

Lemma getDroneByTaskId_None order drones taskId :
  getDroneByTaskId order drones taskId = None ->
  forall k d, k ∈ order -> drones !! k = Some d ->
              Drone.assignedTaskId d <> Some taskId.
Proof.
  unfold getDroneByTaskId.
  pose proof (find_droneValues
                (fun drone => bool_decide (Drone.assignedTaskId drone = Some taskId))
                order drones) as Hf.
  intros H. rewrite H in Hf. intros k d Hk Hd. specialize (Hf k d Hk Hd).
  by apply bool_decide_eq_false in Hf.
Qed.

(** X18: assigning a task that no other drone carries makes
    [getDroneByTaskId] find the drone it was assigned to; once that drone
    completed its task the query finds nothing. *)
Theorem getDroneByTaskId_follows_the_assignment order drones k d task route :
  listsKeys order drones -> drones !! k = Some d ->
  (forall k' d', k' <> k -> drones !! k' = Some d' ->
     Drone.assignedTaskId d' <> Some (MedicineRequest.id task)) ->
  getDroneByTaskId order (assignTaskToDrone k task route drones)
    (MedicineRequest.id task) = Some (assigned d task route) /\
  getDroneByTaskId order
    (completeDroneTask k (assignTaskToDrone k task route drones))
    (MedicineRequest.id task) = None.
Proof.
  intros [Hnd Hkeys] Hd Hothers.
  assert (Hk : k ∈ order) by (apply Hkeys; by exists d).
  pose proof (assignTaskToDrone_lookup k task route drones d Hd) as Ha.
  fold (assigned d task route) in Ha.
  set (m1 := assignTaskToDrone k task route drones) in *.
  split.
  - destruct (getDroneByTaskId order m1 (MedicineRequest.id task)) as [d1|] eqn:E.
    + apply getDroneByTaskId_Some in E as (Ht & j & Hj & Hdj).
      destruct (decide (j = k)) as [->|Hne]; [congruence|].
      exfalso. unfold m1 in Hdj. rewrite assignTaskToDrone_other in Hdj by done.
      by apply (Hothers j d1).
    + exfalso. by apply (getDroneByTaskId_None _ _ _ E k (assigned d task route)).
  - destruct (getDroneByTaskId order (completeDroneTask k m1)
                (MedicineRequest.id task)) as [d2|] eqn:E; [|done].
    exfalso. apply getDroneByTaskId_Some in E as (Ht & j & Hj & Hdj).
    unfold completeDroneTask in Hdj. rewrite Ha in Hdj.
    destruct (decide (j = k)) as [->|Hne].
    + rewrite lookup_insert_eq in Hdj. injection Hdj as <-. discriminate Ht.
    + rewrite lookup_insert_ne in Hdj by done.
      unfold m1 in Hdj. rewrite assignTaskToDrone_other in Hdj by done.
      by apply (Hothers j d2).
Qed.

Lemma getDroneByTaskId_follows_the_assignment_witness :
  getDroneByTaskId droneOrder
    (assignTaskToDrone "DRONE-1" (sampleRequest "REQ-1") sampleRoute
       createInitialDrones)
    (MedicineRequest.id (sampleRequest "REQ-1"))
  = Some (assigned (initialDrone "DRONE-1" "Drone 1" "#10b981")
            (sampleRequest "REQ-1") sampleRoute) /\
  getDroneByTaskId droneOrder
    (completeDroneTask "DRONE-1"
       (assignTaskToDrone "DRONE-1" (sampleRequest "REQ-1") sampleRoute
          createInitialDrones))
    (MedicineRequest.id (sampleRequest "REQ-1")) = None.
Proof.
  apply (getDroneByTaskId_follows_the_assignment droneOrder createInitialDrones
           "DRONE-1"%string (initialDrone "DRONE-1" "Drone 1" "#10b981")
           (sampleRequest "REQ-1") sampleRoute).
  - exact listsKeys_createInitialDrones.
  - unfold createInitialDrones. apply lookup_insert_eq.
  - intros k' d' _ Hd'.
    pose proof (fleetInvariant_initial k' d' Hd') as Hinv.
    assert (Hidle : Drone.status d' = idle).
    { revert Hd'. unfold createInitialDrones.
      rewrite !lookup_insert_Some, lookup_empty.
      intros H. repeat (destruct H as [[_ <-]|[_ H]]; [reflexivity|]).
      discriminate H. }
    destruct (Hinv Hidle) as [_ Ht]. rewrite Ht. discriminate.
Defined.

(** ** Dispatch *)

Lemma handleDispatch_Dispatched order drones requests hub id k request route
    update :
  keyed drones ->
  handleDispatch order drones requests hub id = Dispatched k request route update ->
  exists d,
    getAvailableDrone order drones = Some d /\ drones !! k = Some d /\
    Drone.status d = idle /\ k ∈ order /\
    List.find (fun r => String.eqb (MedicineRequest.id r) id) requests
      = Some request /\
    route = generateRouteForTask hub (MedicineRequest.location request) /\
    update = mkRequestUpdate id ms_dispatched hub k.
Proof.
  intros Hkeyed H. unfold handleDispatch in H.
  destruct (getAvailableDrone order drones) as [d|] eqn:Ea; [|discriminate].
  destruct (List.find _ requests) as [r|] eqn:Er; [|discriminate].
  cbv zeta in H. injection H as <- <- <- <-.
  apply getAvailableDrone_Some in Ea as Ha.
  destruct Ha as (Hidle & before & j & after & -> & Hj & _).
  assert (Hid : Drone.id d = j) by (by apply (Hkeyed j d)).
  exists d. rewrite Hid. split; [done|]. split; [done|]. split; [done|].
  split; [apply elem_of_app; right; left|]. done.
Qed.

(** X19: A dispatch that goes through takes the first idle drone: the drone was
    idle, the request is the one with the id asked for, the route leads
    from the hub to the request's location, and afterwards that drone, and
    no other, is dispatched with the task and the route. *)
Theorem dispatch_takes_an_idle_drone order drones requests hub id k request
    route update :
  keyed drones ->
  handleDispatch order drones requests hub id = Dispatched k request route update ->
  exists d,
    drones !! k = Some d /\ Drone.status d = idle /\
    In request requests /\ MedicineRequest.id request = id /\
    route = generateRouteForTask hub (MedicineRequest.location request) /\
    update = mkRequestUpdate id ms_dispatched hub k /\
    afterDispatch (Dispatched k request route update) drones !! k
      = Some (assigned d request route) /\
    forall k', k' <> k ->
      afterDispatch (Dispatched k request route update) drones !! k'
        = drones !! k'.
Proof.
  intros Hkeyed H.
  destruct (handleDispatch_Dispatched _ _ _ _ _ _ _ _ _ Hkeyed H)
    as (d & _ & Hd & Hidle & _ & Hfind & Hroute & Hupd).
  apply List.find_some in Hfind as [Hin Heq].
  apply String.eqb_eq in Heq.
  exists d. split; [done|]. split; [done|]. split; [done|]. split; [done|].
  split; [done|]. split; [done|]. cbn [afterDispatch]. split.
  - by apply assignTaskToDrone_lookup.
  - intros k' Hne. by apply assignTaskToDrone_other.
Qed.

Lemma handleDispatch_first :
  handleDispatch droneOrder createInitialDrones [sampleRequest "REQ-1"]
    CENTRAL_HOSPITAL_LOCATION "REQ-1"
  = Dispatched "DRONE-1" (sampleRequest "REQ-1") sampleRoute
      (mkRequestUpdate "REQ-1" ms_dispatched CENTRAL_HOSPITAL_LOCATION
         "DRONE-1").
Proof.
  unfold handleDispatch.
  assert (Ea : getAvailableDrone droneOrder createInitialDrones
               = Some (initialDrone "DRONE-1" "Drone 1" "#10b981")).
  { unfold getAvailableDrone, droneOrder. rewrite droneValues_cons.
    unfold createInitialDrones at 1. rewrite lookup_insert_eq. reflexivity. }
  rewrite Ea. reflexivity.
Qed.

Lemma dispatch_takes_an_idle_drone_witness :
  exists d,
    createInitialDrones !! "DRONE-1"%string = Some d /\ Drone.status d = idle /\
    In (sampleRequest "REQ-1") [sampleRequest "REQ-1"] /\
    MedicineRequest.id (sampleRequest "REQ-1") = "REQ-1"%string /\
    sampleRoute
      = generateRouteForTask CENTRAL_HOSPITAL_LOCATION
          (MedicineRequest.location (sampleRequest "REQ-1")) /\
    mkRequestUpdate "REQ-1" ms_dispatched CENTRAL_HOSPITAL_LOCATION "DRONE-1"
      = mkRequestUpdate "REQ-1" ms_dispatched CENTRAL_HOSPITAL_LOCATION
          "DRONE-1" /\
    afterDispatch
      (Dispatched "DRONE-1" (sampleRequest "REQ-1") sampleRoute
         (mkRequestUpdate "REQ-1" ms_dispatched CENTRAL_HOSPITAL_LOCATION
            "DRONE-1")) createInitialDrones !! "DRONE-1"%string
      = Some (assigned d (sampleRequest "REQ-1") sampleRoute) /\
    forall k', k' <> "DRONE-1"%string ->
      afterDispatch
        (Dispatched "DRONE-1" (sampleRequest "REQ-1") sampleRoute
           (mkRequestUpdate "REQ-1" ms_dispatched CENTRAL_HOSPITAL_LOCATION
              "DRONE-1")) createInitialDrones !! k'
        = createInitialDrones !! k'.
Proof.
  apply (dispatch_takes_an_idle_drone droneOrder createInitialDrones
           [sampleRequest "REQ-1"] CENTRAL_HOSPITAL_LOCATION "REQ-1"%string).
  - exact keyed_createInitialDrones.
  - exact handleDispatch_first.
Defined.

(** X20: A dispatch that does not go through changes nothing: without an idle
    drone the operator is alerted, whether or not the request exists; with
    one, an unknown request id is dropped silently. *)
Theorem dispatch_failures_change_nothing order drones requests hub id :
  (handleDispatch order drones requests hub id = NoDronesAvailable <->
   forall k d, k ∈ order -> drones !! k = Some d -> Drone.status d <> idle) /\
  (handleDispatch order drones requests hub id = RequestNotFound <->
   is_Some (getAvailableDrone order drones)
   /\ forall r, In r requests -> MedicineRequest.id r <> id) /\
  afterDispatch NoDronesAvailable drones = drones /\
  afterDispatch RequestNotFound drones = drones.
Proof.
  split; [|split; [|done]].
  - rewrite <- getAvailableDrone_None. unfold handleDispatch.
    destruct (getAvailableDrone order drones); [|done].
    destruct (List.find _ requests); cbv zeta; split; discriminate.
  - unfold handleDispatch.
    destruct (getAvailableDrone order drones) as [d|].
    + destruct (List.find _ requests) as [r|] eqn:Ef; cbv zeta.
      * split; [discriminate|]. intros [_ H]. exfalso.
        apply List.find_some in Ef as [Hin Heq]. apply String.eqb_eq in Heq.
        by apply (H r).
      * split; [|done]. intros _. split; [by exists d|].
        intros r Hin Heq.
        pose proof (List.find_none _ _ Ef r Hin) as Hn. cbn in Hn.
        apply String.eqb_neq in Hn. done.
    + split; [discriminate|]. intros [[d Hd] _]. discriminate Hd.
Qed.

Lemma idleCount_cons k order m :
  idleCount (k :: order) m
  = (match m !! k with
     | Some d => if decide (Drone.status d = idle) then 1 else 0
     | None => 0
     end + idleCount order m)%nat.
Proof.
  unfold idleCount. rewrite droneValues_cons.
  destruct (m !! k) as [d|]; [|done].
  rewrite filter_cons. by case_decide.
Qed.

Lemma idleCount_insert_other k d' order m :
  k ∉ order -> idleCount order (<[k := d']> m) = idleCount order m.
Proof.
  induction order as [|j order IH]; intros Hk; [done|].
  apply not_elem_of_cons in Hk as [Hne Hk].
  rewrite !idleCount_cons, IH by done. by rewrite lookup_insert_ne.
Qed.

Lemma idleCount_insert k d d' order m :
  NoDup order -> k ∈ order -> m !! k = Some d ->
  Drone.status d = idle -> Drone.status d' <> idle ->
  (idleCount order (<[k := d']> m) + 1 = idleCount order m)%nat.
Proof.
  intros Hnd Hk Hd Hidle Hbusy.
  induction order as [|j order IH]; [by apply elem_of_nil in Hk|].
  apply NoDup_cons in Hnd as [Hj Hnd]. rewrite !idleCount_cons.
  destruct (decide (j = k)) as [->|Hne].
  - rewrite lookup_insert_eq, Hd, idleCount_insert_other by done.
    rewrite decide_False by done. rewrite decide_True by done. lia.
  - apply elem_of_cons in Hk as [->|Hk]; [done|].
    rewrite lookup_insert_ne by done. specialize (IH Hnd Hk). lia.
Qed.

(** X21: every dispatch that goes through uses up exactly one idle drone. *)
Theorem dispatch_uses_one_idle_drone order drones requests hub id k request
    route update :
  keyed drones -> NoDup order ->
  handleDispatch order drones requests hub id = Dispatched k request route update ->
  (idleCount order (afterDispatch (Dispatched k request route update) drones)
   + 1 = idleCount order drones)%nat.
Proof.
  intros Hkeyed Hnd H.
  destruct (handleDispatch_Dispatched _ _ _ _ _ _ _ _ _ Hkeyed H)
    as (d & _ & Hd & Hidle & Hk & _).
  cbn [afterDispatch]. unfold assignTaskToDrone. rewrite Hd.
  by apply (idleCount_insert k d).
Qed.

Lemma dispatch_uses_one_idle_drone_witness :
  (idleCount droneOrder
     (afterDispatch
        (Dispatched "DRONE-1" (sampleRequest "REQ-1") sampleRoute
           (mkRequestUpdate "REQ-1" ms_dispatched CENTRAL_HOSPITAL_LOCATION
              "DRONE-1")) createInitialDrones)
   + 1 = idleCount droneOrder createInitialDrones)%nat.
Proof.
  apply (dispatch_uses_one_idle_drone droneOrder createInitialDrones
           [sampleRequest "REQ-1"] CENTRAL_HOSPITAL_LOCATION "REQ-1"%string).
  - exact keyed_createInitialDrones.
  - apply listsKeys_createInitialDrones.
  - exact handleDispatch_first.
Defined.

(** X22: [handleDispatch] does not look at the status of the request: when the
    same request id is dispatched a second time and a drone is idle, a
    second drone is sent, and two drones carry the same task. *)
Theorem same_request_can_be_dispatched_twice order drones requests hub id
    k1 request1 route1 update1 k2 request2 route2 update2 :
  keyed drones ->
  handleDispatch order drones requests hub id
    = Dispatched k1 request1 route1 update1 ->
  handleDispatch order
    (afterDispatch (Dispatched k1 request1 route1 update1) drones)
    requests hub id = Dispatched k2 request2 route2 update2 ->
  k1 <> k2 /\ request2 = request1 /\
  exists d1 d2,
    afterDispatch (Dispatched k2 request2 route2 update2)
      (afterDispatch (Dispatched k1 request1 route1 update1) drones) !! k1
      = Some d1 /\
    afterDispatch (Dispatched k2 request2 route2 update2)
      (afterDispatch (Dispatched k1 request1 route1 update1) drones) !! k2
      = Some d2 /\
    Drone.assignedTaskId d1 = Some id /\ Drone.assignedTaskId d2 = Some id.
Proof.
  intros Hkeyed H1 H2.
  destruct (handleDispatch_Dispatched _ _ _ _ _ _ _ _ _ Hkeyed H1)
    as (d1 & _ & Hd1 & Hidle1 & _ & Hfind1 & _ & _).
  set (m1 := afterDispatch (Dispatched k1 request1 route1 update1) drones) in *.
  assert (Hkeyed1 : keyed m1).
  { apply (sameFleet_keyed drones); [|done]. apply assignTaskToDrone_sameFleet. }
  destruct (handleDispatch_Dispatched _ _ _ _ _ _ _ _ _ Hkeyed1 H2)
    as (d2 & _ & Hd2 & Hidle2 & _ & Hfind2 & _ & _).
  assert (Hm1 : m1 !! k1 = Some (assigned d1 request1 route1))
    by (by apply assignTaskToDrone_lookup).
  assert (Hne : k1 <> k2).
  { intros <-. rewrite Hm1 in Hd2. injection Hd2 as <-. discriminate Hidle2. }
  assert (Hreq : request2 = request1) by congruence.
  apply List.find_some in Hfind1 as [_ Heq]. apply String.eqb_eq in Heq.
  split; [done|]. split; [done|].
  exists (assigned d1 request1 route1), (assigned d2 request2 route2).
  cbn [afterDispatch]. split; [|split].
  - rewrite assignTaskToDrone_other by done. exact Hm1.
  - by apply assignTaskToDrone_lookup.
  - subst request2. cbn. by rewrite Heq.
Qed.

Lemma handleDispatch_second :
  handleDispatch droneOrder
    (afterDispatch
       (Dispatched "DRONE-1" (sampleRequest "REQ-1") sampleRoute
          (mkRequestUpdate "REQ-1" ms_dispatched CENTRAL_HOSPITAL_LOCATION
             "DRONE-1")) createInitialDrones)
    [sampleRequest "REQ-1"] CENTRAL_HOSPITAL_LOCATION "REQ-1"
  = Dispatched "DRONE-2" (sampleRequest "REQ-1") sampleRoute
      (mkRequestUpdate "REQ-1" ms_dispatched CENTRAL_HOSPITAL_LOCATION
         "DRONE-2").
Proof.
  cbn [afterDispatch]. fold dispatchedFleet. unfold handleDispatch.
  assert (Ea : getAvailableDrone droneOrder dispatchedFleet
               = Some (initialDrone "DRONE-2" "Drone 2" "#3b82f6")).
  { unfold getAvailableDrone, droneOrder.
    rewrite droneValues_cons, dispatchedFleet_lookup.
    rewrite droneValues_cons. unfold dispatchedFleet at 1.
    rewrite assignTaskToDrone_other by discriminate.
    unfold createInitialDrones at 1.
    rewrite lookup_insert_ne by discriminate.
    rewrite lookup_insert_eq. reflexivity. }
  rewrite Ea. reflexivity.
Qed.

Lemma same_request_can_be_dispatched_twice_witness :
  "DRONE-1"%string <> "DRONE-2"%string /\
  sampleRequest "REQ-1" = sampleRequest "REQ-1" /\
  exists d1 d2,
    afterDispatch
      (Dispatched "DRONE-2" (sampleRequest "REQ-1") sampleRoute
         (mkRequestUpdate "REQ-1" ms_dispatched CENTRAL_HOSPITAL_LOCATION
            "DRONE-2"))
      (afterDispatch
         (Dispatched "DRONE-1" (sampleRequest "REQ-1") sampleRoute
            (mkRequestUpdate "REQ-1" ms_dispatched CENTRAL_HOSPITAL_LOCATION
               "DRONE-1")) createInitialDrones) !! "DRONE-1"%string
      = Some d1 /\
    afterDispatch
      (Dispatched "DRONE-2" (sampleRequest "REQ-1") sampleRoute
         (mkRequestUpdate "REQ-1" ms_dispatched CENTRAL_HOSPITAL_LOCATION
            "DRONE-2"))
      (afterDispatch
         (Dispatched "DRONE-1" (sampleRequest "REQ-1") sampleRoute
            (mkRequestUpdate "REQ-1" ms_dispatched CENTRAL_HOSPITAL_LOCATION
               "DRONE-1")) createInitialDrones) !! "DRONE-2"%string
      = Some d2 /\
    Drone.assignedTaskId d1 = Some "REQ-1"%string /\
    Drone.assignedTaskId d2 = Some "REQ-1"%string.
Proof.
  apply (same_request_can_be_dispatched_twice droneOrder createInitialDrones
           [sampleRequest "REQ-1"] CENTRAL_HOSPITAL_LOCATION "REQ-1"%string).
  - exact keyed_createInitialDrones.
  - exact handleDispatch_first.
  - exact handleDispatch_second.
Defined.

(** ** The console log *)

Lemma take_app_more {A} (n : nat) (l1 l2 l3 : list A) :
  take (n - length l1) l2 = take (n - length l1) l3 ->
  take n (l1 ++ l2) = take n (l1 ++ l3).
Proof. intros H. rewrite !take_app. by rewrite H. Qed.

Lemma replayLog_latest {T} (entries : list (LogMessage T)) : forall prev,
  (length prev <= 50)%nat ->
  replayLog entries prev = take 50 (reverse entries ++ prev).
Proof.
  unfold replayLog.
  induction entries as [|m entries IH]; intros prev Hlen.
  - simpl. by rewrite take_ge.
  - cbn [foldl]. rewrite IH.
    + unfold addLog. cbv zeta.
      assert (Em : mkLogMessage (log_id m) (log_timestamp m) (log_severity m)
                     (log_text m) = m) by (by destruct m).
      rewrite Em. rewrite reverse_cons, <- app_assoc. cbn [app].
      apply take_app_more.
      destruct (50 - length (reverse entries))%nat as [|n] eqn:En; [done|].
      cbn [take]. f_equal. rewrite take_take. f_equal. lia.
    + unfold addLog. cbn [length]. rewrite length_take. lia.
Qed.

(** X23: the console keeps the latest fifty messages, newest first: after any
    run of [addLog] calls on a log of at most fifty messages, the log is
    the reversed run followed by the old log, cut at fifty. *)
Theorem log_keeps_the_latest_fifty {T} (entries prev : list (LogMessage T)) :
  (length prev <= 50)%nat ->
  replayLog entries prev = take 50 (reverse entries ++ prev) /\
  (length (replayLog entries prev) <= 50)%nat.
Proof.
  intros Hlen. rewrite replayLog_latest by done. split; [done|].
  rewrite length_take. lia.
Qed.

Lemma log_keeps_the_latest_fifty_witness :
  replayLog [mkLogMessage 1 "18:30:00" INFO MANUAL_CONTROL_ACTIVE;
             mkLogMessage 2 "18:30:01" ERROR AUTO_FAIL_NO_MISSION] []
  = take 50 (reverse [mkLogMessage 1 "18:30:00" INFO MANUAL_CONTROL_ACTIVE;
                      mkLogMessage 2 "18:30:01" ERROR AUTO_FAIL_NO_MISSION]
             ++ []) /\
  (length (replayLog
             [mkLogMessage 1 "18:30:00" INFO MANUAL_CONTROL_ACTIVE;
              mkLogMessage 2 "18:30:01" ERROR AUTO_FAIL_NO_MISSION] [])
   <= 50)%nat.
Proof.
  apply (log_keeps_the_latest_fifty
           [mkLogMessage 1 "18:30:00" INFO MANUAL_CONTROL_ACTIVE;
            mkLogMessage 2 "18:30:01" ERROR AUTO_FAIL_NO_MISSION] []).
  cbn. lia.
Defined.

(** ** Physics records of the fleet *)

Lemma initializeDronePhysics_lookup clock drones ref k :
  initializeDronePhysics clock drones ref !! k
  = match ref !! k with
    | Some physics => Some physics
    | None => (fun drone => initialPhysics drone (clock k)) <$> drones !! k
    end.
Proof.
  unfold initializeDronePhysics. revert k.
  apply (map_fold_weak_ind
           (fun r (m : gmap string Drone.t) => forall k,
              r !! k = match ref !! k with
                       | Some physics => Some physics
                       | None => (fun drone => initialPhysics drone (clock k))
                                   <$> m !! k
                       end)).
  - intros k. rewrite lookup_empty. by destruct (ref !! k).
  - intros i x m r Hi IH k.
    destruct (decide (i = k)) as [->|Hne].
    + rewrite lookup_insert_eq. specialize (IH k). rewrite Hi in IH.
      destruct (r !! k) as [p|] eqn:Er.
      * rewrite Er. destruct (ref !! k); [done|discriminate].
      * rewrite lookup_insert_eq. destruct (ref !! k); [discriminate|done].
    + rewrite lookup_insert_ne by done. rewrite <- IH.
      destruct (r !! i); [done|]. by rewrite lookup_insert_ne.
Qed.

(** X24: the effect that initialises the physics records never touches a record
    that exists: it keeps every record of the store and adds, for each
    drone that has none, a record on the ground at the drone's home,
    disarmed, in STABILIZE and with no mission started.  Running it again,
    at any later time, changes nothing. *)
Theorem initializeDronePhysics_keeps_records clock clock' drones ref :
  (forall k,
     initializeDronePhysics clock drones ref !! k
     = match ref !! k with
       | Some physics => Some physics
       | None => (fun drone => initialPhysics drone (clock k)) <$> drones !! k
       end) /\
  initializeDronePhysics clock' drones (initializeDronePhysics clock drones ref)
  = initializeDronePhysics clock drones ref.
Proof.
  split; [intros k; apply initializeDronePhysics_lookup|].
  apply map_eq. intros k. rewrite !initializeDronePhysics_lookup.
  destruct (ref !! k); [done|]. by destruct (drones !! k).
Qed.

(** ** Arming and disarming *)

Lemma selected_lookup w sel drone physics :
  selectedDroneId w = Some sel -> JS.truthy (Some sel) = true ->
  drones w !! sel = Some drone -> dronePhysicsRef w !! sel = Some physics ->
  getSelectedDrone w = Some drone /\ getSelectedPhysics w = Some physics.
Proof.
  intros Hsel Ht Hd Hp. unfold getSelectedDrone, getSelectedPhysics.
  by rewrite Hsel, Ht, Hd, Hp.
Qed.

(** X25: [disarmSystem] is refused while the selected drone is more than 2 m
    up: nothing changes.  At 2 m or less it stops the motors and sets
    STABILIZE but keeps the mission state (waypoint index, waiting time,
    return flag); from then on no run of ticks moves the drone. *)
Theorem disarm_is_refused_in_the_air w sel drone physics :
  selectedDroneId w = Some sel -> JS.truthy (Some sel) = true ->
  drones w !! sel = Some drone -> dronePhysicsRef w !! sel = Some physics ->
  (alt physics > 2 ->
   disarmSystem w = (w, [(DISARM_REJECTED_VEHICLE_AIRBORNE, CRITICAL)])) /\
  (alt physics <= 2 ->
   exists p',
     dronePhysicsRef (disarmSystem w).1 !! sel = Some p' /\
     armed p' = false /\ flightMode p' = STABILIZE /\
     activeWpIndex p' = activeWpIndex physics /\
     isReturningHome p' = isReturningHome physics /\
     deliveryWaitTime p' = deliveryWaitTime physics /\
     forall inputs, exists t, (runTicks inputs p').1 = set_lastTick p' t).
Proof.
  intros Hsel Ht Hd Hp.
  destruct (selected_lookup w sel drone physics Hsel Ht Hd Hp) as [Ed Ep].
  unfold disarmSystem. rewrite Ed, Ep. split.
  - intros Halt. by rewrite decide_True.
  - intros Halt. rewrite decide_False by lra.
    exists (set_flightMode (set_armed physics false) STABILIZE).
    split.
    + unfold putSelectedPhysics. rewrite Hsel. cbn [fst dronePhysicsRef].
      apply lookup_insert_eq.
    + repeat (split; [reflexivity|]). intros inputs.
      by apply runTicks_disarmed.
Qed.

Lemma disarm_is_refused_in_the_air_witness :
  (alt homeLandingPhysics > 2 ->
   disarmSystem homeLandingWorld
   = (homeLandingWorld, [(DISARM_REJECTED_VEHICLE_AIRBORNE, CRITICAL)])) /\
  (alt homeLandingPhysics <= 2 ->
   exists p',
     dronePhysicsRef (disarmSystem homeLandingWorld).1 !! "DRONE-1"%string
       = Some p' /\
     armed p' = false /\ flightMode p' = STABILIZE /\
     activeWpIndex p' = activeWpIndex homeLandingPhysics /\
     isReturningHome p' = isReturningHome homeLandingPhysics /\
     deliveryWaitTime p' = deliveryWaitTime homeLandingPhysics /\
     forall inputs, exists t, (runTicks inputs p').1 = set_lastTick p' t).
Proof.
  apply (disarm_is_refused_in_the_air homeLandingWorld "DRONE-1"%string
           runningDrone homeLandingPhysics).
  - reflexivity.
  - reflexivity.
  - exact runningFleet_lookup.
  - apply lookup_singleton_eq.
Defined.

(** X26: [armSystem] arms nothing without a selected drone that has a physics
    record, or without a GPS fix: the fleet, the physics records and the
    preflight state stay as they are, no timer is set, and one error is
    logged. *)
Theorem arming_needs_a_drone_and_a_gps_fix w sys :
  getSelectedDrone w = None \/ getSelectedPhysics w = None
  \/ gpsFix sys = NO_FIX ->
  con_world (armSystem w sys) = w /\ con_systems (armSystem w sys) = sys /\
  con_timers (armSystem w sys) = [] /\
  exists text, con_logs (armSystem w sys) = [(text, ERROR)].
Proof.
  intros H. unfold armSystem.
  destruct (getSelectedDrone w) as [drone|];
    [|cbn; repeat split; eauto].
  destruct (getSelectedPhysics w) as [physics|];
    [|cbn; repeat split; eauto].
  destruct H as [H|[H|H]]; [discriminate|discriminate|].
  rewrite decide_True by done. cbn. repeat split; eauto.
Qed.

Lemma arming_needs_a_drone_and_a_gps_fix_witness :
  con_world (armSystem homeLandingWorld
               (mkSystems NO_FIX
                  (PreflightChecks.mk false false false false false) false))
    = homeLandingWorld /\
  con_systems (armSystem homeLandingWorld
                 (mkSystems NO_FIX
                    (PreflightChecks.mk false false false false false) false))
    = mkSystems NO_FIX (PreflightChecks.mk false false false false false) false /\
  con_timers (armSystem homeLandingWorld
                (mkSystems NO_FIX
                   (PreflightChecks.mk false false false false false) false))
    = [] /\
  exists text,
    con_logs (armSystem homeLandingWorld
                (mkSystems NO_FIX
                   (PreflightChecks.mk false false false false false) false))
    = [(text, ERROR)].
Proof.
  apply (arming_needs_a_drone_and_a_gps_fix homeLandingWorld
           (mkSystems NO_FIX
              (PreflightChecks.mk false false false false false) false)).
  right. right. reflexivity.
Defined.

Lemma passCheck_all c :
  allChecksPassed
    (passCheck step_battery
       (passCheck step_rc
          (passCheck step_mag (passCheck step_gyro (passCheck step_accel c)))))
  = true.
Proof. reflexivity. Qed.

(** X27: with a selected drone and a GPS fix, [armSystem] arms the selected
    drone and changes nothing else of it: at once when the preflight
    checks are passed, and otherwise once the timers it sets have fired,
    by which time all the checks are passed.  It asks neither for a
    mission nor for an idle drone. *)
Theorem arming_completes_after_the_preflight_checks w sys sel drone physics :
  selectedDroneId w = Some sel -> JS.truthy (Some sel) = true ->
  drones w !! sel = Some drone -> dronePhysicsRef w !! sel = Some physics ->
  gpsFix sys <> NO_FIX ->
  let c := armSystem w sys in
  let r := fireTimers (con_timers c) (con_world c) (con_systems c) in
  (allChecksPassed (preflightChecks sys) = true ->
   con_timers c = []
   /\ dronePhysicsRef (con_world c) !! sel = Some (set_armed physics true)) /\
  (allChecksPassed (preflightChecks sys) = false ->
   dronePhysicsRef (con_world c) = dronePhysicsRef w) /\
  dronePhysicsRef r.1 !! sel = Some (set_armed physics true) /\
  (forall k, k <> sel -> dronePhysicsRef r.1 !! k = dronePhysicsRef w !! k) /\
  drones r.1 = drones w /\
  allChecksPassed (preflightChecks r.2) = true.
Proof.
  intros Hsel Ht Hd Hp Hgps.
  destruct (selected_lookup w sel drone physics Hsel Ht Hd Hp) as [Ed Ep].
  cbv zeta. unfold armSystem. rewrite Ed, Ep.
  rewrite decide_False by done.
  destruct (allChecksPassed (preflightChecks sys)) eqn:Ec; cbn [negb].
  - cbn [con_world con_systems con_timers fireTimers fst snd].
    unfold putSelectedPhysics. rewrite Hsel. cbn [dronePhysicsRef drones].
    split; [intros _; split; [done|apply lookup_insert_eq]|].
    split; [discriminate|].
    split; [apply lookup_insert_eq|].
    split; [intros k Hne; by rewrite lookup_insert_ne|]. done.
  - cbn [con_world con_systems con_timers].
    split; [discriminate|]. split; [done|].
    cbn [fireTimers fireTimer gpsFix preflightChecks checklistOpen fst snd].
    rewrite Hsel. cbn [dronePhysicsRef drones fst snd preflightChecks].
    split; [by rewrite lookup_alter_eq, Hp|].
    split; [intros k Hne; by rewrite lookup_alter_ne|].
    split; [done|apply passCheck_all].
Qed.

Lemma arming_completes_after_the_preflight_checks_witness :
  let sys := mkSystems FIX_3D (PreflightChecks.mk false false false false false)
               false in
  let c := armSystem homeLandingWorld sys in
  let r := fireTimers (con_timers c) (con_world c) (con_systems c) in
  (allChecksPassed (preflightChecks sys) = true ->
   con_timers c = []
   /\ dronePhysicsRef (con_world c) !! "DRONE-1"%string
      = Some (set_armed homeLandingPhysics true)) /\
  (allChecksPassed (preflightChecks sys) = false ->
   dronePhysicsRef (con_world c) = dronePhysicsRef homeLandingWorld) /\
  dronePhysicsRef r.1 !! "DRONE-1"%string
    = Some (set_armed homeLandingPhysics true) /\
  (forall k, k <> "DRONE-1"%string ->
     dronePhysicsRef r.1 !! k = dronePhysicsRef homeLandingWorld !! k) /\
  drones r.1 = drones homeLandingWorld /\
  allChecksPassed (preflightChecks r.2) = true.
Proof.
  apply (arming_completes_after_the_preflight_checks homeLandingWorld
           (mkSystems FIX_3D
              (PreflightChecks.mk false false false false false) false)
           "DRONE-1"%string runningDrone homeLandingPhysics).
  - reflexivity.
  - reflexivity.
  - exact runningFleet_lookup.
  - apply lookup_singleton_eq.
  - discriminate.
Defined.

(** X28: the arming that [armSystem] defers arms the drone that was selected
    when [armSystem] ran: when its timer fires, that drone is armed
    whichever drone is selected by then and whatever the GPS fix is. *)
Theorem deferred_arming_hits_the_captured_drone w sys sel drone physics :
  selectedDroneId w = Some sel -> JS.truthy (Some sel) = true ->
  drones w !! sel = Some drone -> dronePhysicsRef w !! sel = Some physics ->
  gpsFix sys <> NO_FIX -> allChecksPassed (preflightChecks sys) = false ->
  last (con_timers (armSystem w sys))
    = Some (3200, ArmCaptured (Some sel) (Drone.name drone)) /\
  forall w' sys' physics',
    dronePhysicsRef w' !! sel = Some physics' ->
    dronePhysicsRef
      (fireTimer (ArmCaptured (Some sel) (Drone.name drone)) w' sys').1.1 !! sel
    = Some (set_armed physics' true).
Proof.
  intros Hsel Ht Hd Hp Hgps Hc.
  destruct (selected_lookup w sel drone physics Hsel Ht Hd Hp) as [Ed Ep].
  split.
  - unfold armSystem. rewrite Ed, Ep, Hc, Hsel.
    rewrite decide_False by done. reflexivity.
  - intros w' sys' physics' Hp'. cbn [fireTimer fst dronePhysicsRef].
    by rewrite lookup_alter_eq, Hp'.
Qed.

Lemma deferred_arming_hits_the_captured_drone_witness :
  last (con_timers
          (armSystem homeLandingWorld
             (mkSystems FIX_3D
                (PreflightChecks.mk false false false false false) false)))
    = Some (3200, ArmCaptured (Some "DRONE-1"%string)
                    (Drone.name runningDrone)) /\
  forall w' sys' physics',
    dronePhysicsRef w' !! "DRONE-1"%string = Some physics' ->
    dronePhysicsRef
      (fireTimer (ArmCaptured (Some "DRONE-1"%string) (Drone.name runningDrone))
         w' sys').1.1 !! "DRONE-1"%string
    = Some (set_armed physics' true).
Proof.
  apply (deferred_arming_hits_the_captured_drone homeLandingWorld
           (mkSystems FIX_3D
              (PreflightChecks.mk false false false false false) false)
           "DRONE-1"%string runningDrone homeLandingPhysics).
  - reflexivity.
  - reflexivity.
  - exact runningFleet_lookup.
  - apply lookup_singleton_eq.
  - discriminate.
  - reflexivity.
Defined.

(** ** Keyboard control *)

Lemma keyMap_truthy key control :
  keyMap key = Some control -> JS.truthy (Some control) = true.
Proof.
  unfold keyMap. cbn [List.find fst snd].
  repeat (destruct (String.eqb _ key);
          [cbn; intros H; injection H as <-; reflexivity|]).
  discriminate.
Qed.

(** X29: two keys that drive the same control do not add up: while both are
    held the control is active, and releasing either one switches the
    control off although the other key is still down. *)
Theorem releasing_one_key_releases_the_control key1 key2 control prev :
  keyMap key1 = Some control -> keyMap key2 = Some control ->
  ctl (handleKeyDown key2 (handleKeyDown key1 prev)) control = true /\
  ctl (handleKeyUp key2 (handleKeyDown key2 (handleKeyDown key1 prev))) control
    = false.
Proof.
  intros H1 H2. pose proof (keyMap_truthy key1 control H1) as Ht.
  unfold handleKeyDown, handleKeyUp, ctl. rewrite H1, H2, Ht.
  by rewrite !lookup_insert_eq.
Qed.

Lemma releasing_one_key_releases_the_control_witness :
  ctl (handleKeyDown " " (handleKeyDown "w" ∅)) "up" = true /\
  ctl (handleKeyUp " " (handleKeyDown " " (handleKeyDown "w" ∅))) "up" = false.
Proof.
  apply (releasing_one_key_releases_the_control "w" " " "up" ∅); reflexivity.
Defined.

(** X30: once the timers of [runPreflight] have fired, all preflight checks are
    passed and the checklist is closed, nothing of the fleet has changed,
    and [armSystem] then arms the selected drone at once, without setting
    a timer. *)
Theorem preflight_makes_arming_immediate w sys sel drone physics :
  selectedDroneId w = Some sel -> JS.truthy (Some sel) = true ->
  drones w !! sel = Some drone -> dronePhysicsRef w !! sel = Some physics ->
  gpsFix sys <> NO_FIX ->
  let c := runPreflight w sys in
  let r := fireTimers (con_timers c) (con_world c) (con_systems c) in
  r.1 = w /\ allChecksPassed (preflightChecks r.2) = true /\
  checklistOpen r.2 = false /\
  con_timers (armSystem r.1 r.2) = [] /\
  dronePhysicsRef (con_world (armSystem r.1 r.2)) !! sel
    = Some (set_armed physics true).
Proof.
  intros Hsel Ht Hd Hp Hgps.
  destruct (selected_lookup w sel drone physics Hsel Ht Hd Hp) as [Ed Ep].
  cbv zeta. unfold runPreflight.
  cbn [con_world con_systems con_timers fireTimers fireTimer gpsFix
       preflightChecks checklistOpen fst snd].
  split; [done|]. split; [apply passCheck_all|]. split; [done|].
  unfold armSystem. rewrite Ed, Ep. cbn [gpsFix preflightChecks].
  rewrite decide_False by done. rewrite passCheck_all. cbn [negb].
  cbn [con_timers con_world]. split; [done|].
  unfold putSelectedPhysics. rewrite Hsel. cbn [dronePhysicsRef].
  apply lookup_insert_eq.
Qed.

Lemma preflight_makes_arming_immediate_witness :
  let sys := mkSystems FIX_3D (PreflightChecks.mk false false false false false)
               false in
  let c := runPreflight homeLandingWorld sys in
  let r := fireTimers (con_timers c) (con_world c) (con_systems c) in
  r.1 = homeLandingWorld /\ allChecksPassed (preflightChecks r.2) = true /\
  checklistOpen r.2 = false /\
  con_timers (armSystem r.1 r.2) = [] /\
  dronePhysicsRef (con_world (armSystem r.1 r.2)) !! "DRONE-1"%string
    = Some (set_armed homeLandingPhysics true).
Proof.
  apply (preflight_makes_arming_immediate homeLandingWorld
           (mkSystems FIX_3D
              (PreflightChecks.mk false false false false false) false)
           "DRONE-1"%string runningDrone homeLandingPhysics).
  - reflexivity.
  - reflexivity.
  - exact runningFleet_lookup.
  - apply lookup_singleton_eq.
  - discriminate.
Defined.

(** ** AUTO selected during the delivery wait *)

Lemma clinicWaitingPhysics_landed :
  atDeliveryLanding sampleRoute clinicWaitingPhysics.
Proof.
  split; [reflexivity|]. split; [reflexivity|].
  eexists. split; [reflexivity|]. split; [reflexivity|].
  cbn [MissionItem.lat MissionItem.lng MissionItem.alt PHC_Village_A
       Location.lat Location.lng clinicWaitingPhysics flightPhysics
       lat lng alt].
  rewrite getDist_same. unfold WP_RADIUS.
  split; [lra|]. split; [|lra].
  replace (0.2 - 0) with 0.2 by lra. rewrite Rabs_pos_eq; lra.
Qed.

(** C10: selecting AUTO during the delivery wait does not cancel the
    pending return.  The drone waits at the clinic, 1.5 s into the wait;
    [setMode] to AUTO is accepted and resets the flags; the next tick
    reports the delivery of the same task once more and restarts the
    wait, the drone still armed in the delivery sequence. *)
Theorem auto_mode_change_restarts_the_delivery :
  atDeliveryLanding sampleRoute clinicWaitingPhysics /\
  0 < deliveryWaitTime clinicWaitingPhysics < 3 /\
  isReturningHome clinicWaitingPhysics = false /\
  exists physics,
    dronePhysicsRef (setMode AUTO clinicWaitingWorld).1 !! "DRONE-1"%string
      = Some physics /\
    flightMode physics = AUTO /\ isReturningHome physics = false /\
    deliveryWaitTime physics = 0 /\
    completions "REQ-1"
      (tickDrone 1100 (Some "DRONE-1"%string) ∅ "DRONE-1" runningDrone
         physics).2 = 1%nat /\
    deliveryWaitTime
      (tickDrone 1100 (Some "DRONE-1"%string) ∅ "DRONE-1" runningDrone
         physics).1 = 0.1 /\
    armed
      (tickDrone 1100 (Some "DRONE-1"%string) ∅ "DRONE-1" runningDrone
         physics).1 = true.
Proof.
  pose proof clinicWaitingPhysics_landed as Hat.
  split; [exact Hat|]. split; [cbn; lra|]. split; [reflexivity|].
  exists (setModePhysics AUTO clinicWaitingPhysics).
  split.
  { apply (setMode_accepted AUTO clinicWaitingWorld "DRONE-1" runningDrone
             clinicWaitingPhysics).
    - reflexivity.
    - reflexivity.
    - exact runningFleet_lookup.
    - apply lookup_singleton_eq.
    - intros [_ H]. discriminate H.
    - intros [_ H]. discriminate H. }
  destruct (setModePhysics_resets AUTO clinicWaitingPhysics) as (M1 & M2 & M3);
    [discriminate|].
  split; [exact M1|]. split; [exact M2|]. split; [exact M3|].
  destruct (tickDrone_delivery_first 1100 (Some "DRONE-1"%string) ∅ "DRONE-1"
              runningDrone (setModePhysics AUTO clinicWaitingPhysics)
              sampleRoute "REQ-1" eq_refl
              (setModePhysics_landed sampleRoute clinicWaitingPhysics Hat)
              M2 M3 eq_refl eq_refl)
    as (C1 & C2 & _ & C4).
  split; [exact C1|]. split; [|exact C4].
  rewrite C2, setModePhysics_lastTick.
  change (lastTick clinicWaitingPhysics) with 1000.
  unfold Rmin. destruct (Rle_dec _ _); lra.
Qed.

(** ** A stale waypoint index in flight *)

Lemma stale_index_keeps_flying now sel controls droneId drone physics route :
  Drone.assignedRoute drone = Some route ->
  armed physics = true -> flightMode physics = AUTO ->
  (Z.of_nat (length route) <= activeWpIndex physics)%Z ->
  Some droneId <> sel -> -90 <= lat physics <= 90 -> lastTick physics < now ->
  let p' := (tickDrone now sel controls droneId drone physics).1 in
  getDist (lat physics) (lng physics) (lat p') (lng p')
    = 60 * Rmin ((now - lastTick physics) / 1000) 0.1.
Proof.
  intros Hr Ha Hm Hi Hsel Hlat Hclk. cbv zeta.
  destruct (tickDrone_effects now sel controls droneId drone physics route Hr)
    as (dt & p1 & tgt & effs1 & p2 & effs3 & Hdt & E1 & E3 & Et).
  rewrite Et. cbn [fst]. rewrite <- Hdt.
  assert (Hpos : 0 < dt <= 0.1).
  { subst dt. unfold Rmin. destruct (Rle_dec _ _); lra. }
  rewrite manualControl_unselected in E3 by done. injection E3 as <- _.
  destruct (stateMachine_stale_index dt droneId drone route
              (set_lastTick physics now) Ha Hm Hi)
    as (p1' & E1' & Ha1 & Hm1 & _).
  rewrite E1 in E1'. injection E1' as <- Htgt _.
  pose proof (stateMachine_frame dt droneId drone route
                (set_lastTick physics now)) as Hs.
  rewrite E1 in Hs. cbv zeta in Hs. cbn [fst] in Hs.
  destruct Hs as (S1 & S2 & _).
  change (lat (set_lastTick physics now)) with (lat physics) in S1.
  change (lng (set_lastTick physics now)) with (lng physics) in S2.
  assert (Hn : navigating (flightMode p1) = true) by (by rewrite Hm1).
  destruct (physicsMove_horizontal SIM_SPEED_MULT dt tgt p1 Ha1 Hn) as [_ Hmv].
  rewrite decide_True in Hmv by (unfold SIM_SPEED_MULT; lra).
  set (h := turnedHeading _ _ _) in Hmv.
  assert (E1l : lat (physicsMove SIM_SPEED_MULT dt tgt p1)
                = (destination (lat p1) (lng p1) h (15 * dt * SIM_SPEED_MULT)).1)
    by (by rewrite <- Hmv).
  assert (E2l : lng (physicsMove SIM_SPEED_MULT dt tgt p1)
                = (destination (lat p1) (lng p1) h (15 * dt * SIM_SPEED_MULT)).2)
    by (by rewrite <- Hmv).
  rewrite E1l, E2l, S1, S2.
  rewrite getDist_destination; [unfold SIM_SPEED_MULT; lra|done|].
  pose proof PI_gt_3. unfold SIM_SPEED_MULT. split; [lra|nra].
Qed.

(** The drone with the stale index of the example does not hold its
    position: the tick 16 ms later has moved it 0.96 m over the ground. *)
Lemma stale_index_drone_flies_on :
  exists p',
    dronePhysicsRef (tick 1016 staleIndexWorld).1 !! "DRONE-1"%string = Some p' /\
    getDist (lat staleIndexPhysics) (lng staleIndexPhysics) (lat p') (lng p')
      = 0.96.
Proof.
  destruct (tick_focus 1016 staleIndexWorld "DRONE-1" reroutedDrone
              staleIndexPhysics) as (before & after & F1 & _).
  - exact reroutedFleet_lookup.
  - apply lookup_singleton_eq.
  - eexists. split; [exact F1|].
    rewrite (stale_index_keeps_flying 1016 (selectedDroneId staleIndexWorld)
               (activeControls staleIndexWorld) "DRONE-1"%string reroutedDrone
               staleIndexPhysics shortRoute).
    + change (lastTick staleIndexPhysics) with 1000.
      unfold Rmin. destruct (Rle_dec _ _); lra.
    + reflexivity.
    + reflexivity.
    + reflexivity.
    + cbn. lia.
    + discriminate.
    + cbn. lra.
    + cbn. lra.
Qed.

(** ** A new route for an idle drone *)

(** [updateDroneRoute] on an idle drone leaves it idle with a route: the
    invariant of the fleet is lost. *)
Lemma updateDroneRoute_idle_breaks_invariant :
  fleetInvariant createInitialDrones /\
  ~ fleetInvariant (updateDroneRoute "DRONE-1" sampleRoute createInitialDrones).
Proof.
  split; [exact fleetInvariant_initial|].
  intros H.
  assert (Hd : createInitialDrones !! "DRONE-1"%string
               = Some (initialDrone "DRONE-1" "Drone 1" "#10b981"))
    by (unfold createInitialDrones; apply lookup_insert_eq).
  pose proof (updateDroneRoute_lookup "DRONE-1" sampleRoute createInitialDrones
                _ Hd) as Hl.
  specialize (H "DRONE-1"%string _ Hl).
  destruct (H eq_refl) as [Hr _]. discriminate Hr.
Qed.

